(** * Hive Mind: extension runtime and shared conversational context

    A shallow embedding of

      - [shared/errors]                                  (the fault taxonomy),
      - [core/domain/interfaces/context_interface.py]    ([Message]),
      - [core/infrastructure/redis/redis_context.py]     ([RedisContext]),
      - [core/domain/interfaces/plugin_interface.py]     ([PluginInterface]),
      - [core/application/services/plugin_service.py]    ([PluginLoader]),
      - [config.py]                                      ([Settings]),

    followed by the properties of the specification that concern them.

    Conventions.  A Python value that JSON can carry is a [json] tree; a
    Python [dict] is an insertion-ordered association list; a call that may
    raise returns an [outcome]; code that mutates an object ([PluginLoader],
    the Redis key) is a function in the state-and-exception monad [M]. *)

From Stdlib Require Import ZArith Ascii String List Bool Lia Sorted.
From Stdlib Require Import Floats.SpecFloat.
From Stdlib Require Import DecimalString DecimalZ.
Import ListNotations.

Local Open Scope string_scope.
Local Open Scope list_scope.

(** String concatenation, as an f-string builds a message. *)
Infix "+:+" := String.append (at level 60, right associativity) : string_scope.

Set Implicit Arguments.
Set Warnings "-register-all".

(* ================================================================== *)
(** * Python values                                                    *)
(* ================================================================== *)

(** A [datetime] is offset-naive, as [datetime.utcnow()] makes it, or
    offset-aware.  Python equates and orders two naive ones by their fields
    and two aware ones by their instant, whatever their zones: either way a
    [datetime] is a number here, counted in microseconds (of UTC for an aware
    one). *)
Inductive datetime : Type :=
| Naive (t : Z)
| Aware (utc : Z).

Definition instant (d : datetime) : Z :=
  match d with
  | Naive t => t
  | Aware utc => utc
  end.

Definition aware (d : datetime) : bool :=
  match d with
  | Naive _ => false
  | Aware _ => true
  end.

(** [datetime.utcnow()] when the clock reads [clock]: a naive [datetime]. *)
Definition utcnow (clock : Z) : datetime := Naive clock.

(** What [json.loads] builds and [json.dumps] accepts.  [JNull] is [None]. *)
Inductive json : Type :=
| JNull
| JBool (b : bool)
| JInt (n : Z)
| JFloat (x : spec_float)
| JStr (s : string)
| JArr (items : list json)
| JObj (fields : list (string * json)).

(** Python's truth value of an object, as [not x], [x or y] and [if x] read it. *)
Definition truthy (v : json) : bool :=
  match v with
  | JNull => false
  | JBool b => b
  | JInt n => negb (n =? 0)%Z
  | JFloat (S754_zero _) => false
  | JFloat _ => true
  | JStr s => negb (s =? "")
  | JArr items => match items with [] => false | _ => true end
  | JObj fields => match fields with [] => false | _ => true end
  end.

(** [x or y]. *)
Definition py_or (x y : json) : json := if truthy x then x else y.

(** ** Dictionaries

    A Python [dict] keeps its keys in insertion order, and the loader iterates
    over one, so a dictionary is an association list: [d[k] = v] replaces the
    value of a key in place or appends a new key at the end. *)
Definition dict (V : Type) := list (string * V).

Fixpoint dict_get {V} (k : string) (d : dict V) : option V :=
  match d with
  | [] => None
  | (k', v) :: rest => if k =? k' then Some v else dict_get k rest
  end.

(** [k in d]. *)
Definition dict_in {V} (k : string) (d : dict V) : bool :=
  match dict_get k d with Some _ => true | None => false end.

(** [d[k] = v]. *)
Fixpoint dict_set {V} (k : string) (v : V) (d : dict V) : dict V :=
  match d with
  | [] => [(k, v)]
  | (k', v') :: rest =>
      if k =? k' then (k, v) :: rest else (k', v') :: dict_set k v rest
  end.

(** [del d[k]]. *)
Fixpoint dict_del {V} (k : string) (d : dict V) : dict V :=
  match d with
  | [] => []
  | (k', v') :: rest =>
      if k =? k' then dict_del k rest else (k', v') :: dict_del k rest
  end.

(** [{**d, **extra}]: the entries of [extra] are written over [d], in order. *)
Definition dict_update {V} (d extra : dict V) : dict V :=
  fold_left (fun acc kv => dict_set (fst kv) (snd kv) acc) extra d.

Definition keys {V} (d : dict V) : list string := map fst d.

(** [sub in s] on two strings: [sub] occurs in [s]. *)
Definition str_contains (sub s : string) : bool :=
  match index 0 sub s with Some _ => true | None => false end.

(* ================================================================== *)
(** * shared/errors                                                    *)
(* ================================================================== *)

(** The classes of [shared/errors/domain.py] and [infrastructure.py]. *)
Inductive ErrorClass : Type :=
| ValidationError | AudioProcessingError | LLMError
| PluginExecutionError | ContextError
| DatabaseError | RedisError | ConfigurationError | ModelLoadError.

(** [BaseError]: the dataclass every classified fault is. *)
Record BaseError : Type := mkBaseError {
  message : string;
  error_code : string;
  err_timestamp : datetime;
  context : option (dict json)
}.

(** Classes of the faults that are not of the taxonomy.  [NonException] stands
    for a class that derives from [BaseException] and not from [Exception]:
    [asyncio.CancelledError], [KeyboardInterrupt], [SystemExit],
    [GeneratorExit] and their subclasses. *)
Inductive pyclass : Type :=
| JSONDecodeError | KeyError | TypeError | ValueError | AttributeError
| UnicodeDecodeError
| OtherException (name : string)
| NonException (name : string).

(** A raised object: a fault of the taxonomy, or any other Python exception,
    of which the code reads the class, [type(e).__name__] and [str(e)]; the
    latter runs the class's own [__str__], which may itself raise. *)
Inductive exn : Type :=
| Hive (cls : ErrorClass) (e : BaseError)
| Py (cls : pyclass) (text : str_result)
with str_result : Type :=
| Str (s : string)
| StrRaises (e : exn).

Definition class_name (c : ErrorClass) : string :=
  match c with
  | ValidationError => "ValidationError"
  | AudioProcessingError => "AudioProcessingError"
  | LLMError => "LLMError"
  | PluginExecutionError => "PluginExecutionError"
  | ContextError => "ContextError"
  | DatabaseError => "DatabaseError"
  | RedisError => "RedisError"
  | ConfigurationError => "ConfigurationError"
  | ModelLoadError => "ModelLoadError"
  end.

Definition pyclass_name (c : pyclass) : string :=
  match c with
  | JSONDecodeError => "JSONDecodeError"
  | KeyError => "KeyError"
  | TypeError => "TypeError"
  | ValueError => "ValueError"
  | AttributeError => "AttributeError"
  | UnicodeDecodeError => "UnicodeDecodeError"
  | OtherException name => name
  | NonException name => name
  end.

(** [type(e).__name__]. *)
Definition type_name (e : exn) : string :=
  match e with
  | Hive cls _ => class_name cls
  | Py cls _ => pyclass_name cls
  end.

(** [isinstance(e, Exception)]: what a clause [except Exception] catches. *)
Definition is_Exception (e : exn) : bool :=
  match e with
  | Py (NonException _) _ => false
  | _ => true
  end.

(** [isinstance(e, cls)] for a class of the taxonomy. *)
Definition ErrorClass_eqb (a b : ErrorClass) : bool :=
  class_name a =? class_name b.

Definition is_instance (cls : ErrorClass) (e : exn) : bool :=
  match e with
  | Hive c _ => ErrorClass_eqb c cls
  | Py _ _ => false
  end.

Definition is_JSONDecodeError (e : exn) : bool :=
  match e with
  | Py JSONDecodeError _ => true
  | _ => false
  end.

(** ** Calls that may raise *)

Inductive outcome (A : Type) : Type :=
| Return (a : A)
| Raise (e : exn).
Arguments Return {A} a.
Arguments Raise {A} e.

Definition bind {A B} (c : outcome A) (k : A -> outcome B) : outcome B :=
  match c with
  | Return a => k a
  | Raise e => Raise e
  end.

Declare Scope py_scope.
Delimit Scope py_scope with py.
Notation "x <- c ;; k" := (bind c (fun x => k))
  (at level 61, c at next level, right associativity) : py_scope.
Local Open Scope py_scope.

(** [try: body / except <class> as e: handler(e)], [catches] telling the
    instances of the class. *)
Definition try_except {A} (catches : exn -> bool)
    (body : outcome A) (handler : exn -> outcome A) : outcome A :=
  match body with
  | Return a => Return a
  | Raise e => if catches e then handler e else Raise e
  end.

(** [try: body / except Exception as e: handler(e)]. *)
Definition try_except_Exception {A} := @try_except A is_Exception.

(** ** Ordering two datetimes

    [a < b] and [a >= b]: Python orders two naive or two aware datetimes and
    raises a [TypeError] when one is naive and the other aware. *)
Definition comparable (a b : datetime) : bool := Bool.eqb (aware a) (aware b).

Definition naive_and_aware : exn :=
  Py TypeError (Str "can't compare offset-naive and offset-aware datetimes").

Definition datetime_lt (a b : datetime) : outcome bool :=
  if comparable a b then Return (instant a <? instant b)%Z
  else Raise naive_and_aware.

Definition datetime_ge (a b : datetime) : outcome bool :=
  if comparable a b then Return (instant b <=? instant a)%Z
  else Raise naive_and_aware.

(** [BaseError.__str__]. *)
Definition BaseError_str (e : BaseError) : string :=
  "[" +:+ error_code e +:+ "] " +:+ message e.

(** [str(e)]. *)
Definition py_str (e : exn) : outcome string :=
  match e with
  | Hive _ b => Return (BaseError_str b)
  | Py _ (Str s) => Return s
  | Py _ (StrRaises e') => Raise e'
  end.

(** [{"k": v, **(context or {})}] with [context : Optional[Dict]]. *)
Definition or_empty (context : option (dict json)) : dict json :=
  match context with
  | Some d => d
  | None => []
  end.

(** [PluginExecutionError.__init__] (shared/errors/domain.py). *)
Definition mkPluginExecutionError
    (plugin_name intent message : string)
    (context : option (dict json)) (timestamp : datetime) : exn :=
  let full_message :=
    "Plugin '" +:+ plugin_name +:+ "' failed to execute intent '" +:+ intent
      +:+ "': " +:+ message in
  Hive PluginExecutionError
    {| message := full_message;
       error_code := "PLUGIN_EXECUTION_ERROR";
       err_timestamp := timestamp;
       context := Some (dict_update
                          [("plugin", JStr plugin_name); ("intent", JStr intent)]
                          (or_empty context)) |}.

(** [ContextError.__init__] (shared/errors/domain.py). *)
Definition mkContextError
    (message : string) (context : option (dict json)) (timestamp : datetime) : exn :=
  Hive ContextError
    {| message := message;
       error_code := "CONTEXT_ERROR";
       err_timestamp := timestamp;
       context := context |}.

(** [ConfigurationError.__init__] (shared/errors/infrastructure.py). *)
Definition mkConfigurationError
    (field message : string)
    (context : option (dict json)) (timestamp : datetime) : exn :=
  let full_message := "Configuration error for '" +:+ field +:+ "': " +:+ message in
  Hive ConfigurationError
    {| message := full_message;
       error_code := "CONFIGURATION_ERROR";
       err_timestamp := timestamp;
       context := Some (dict_update [("field", JStr field)] (or_empty context)) |}.

(** ** State and exceptions

    A method of an object with mutable state [S]: it returns or raises, and
    leaves the object in a new state either way. *)
Definition M (S A : Type) : Type := S -> outcome A * S.

Definition ret {S A} (a : A) : M S A := fun s => (Return a, s).

Definition raise {S A} (e : exn) : M S A := fun s => (Raise e, s).

Definition lift {S A} (c : outcome A) : M S A := fun s => (c, s).

Definition mbind {S A B} (c : M S A) (k : A -> M S B) : M S B :=
  fun s =>
    match c s with
    | (Return a, s') => k a s'
    | (Raise e, s') => (Raise e, s')
    end.

Definition get {S} : M S S := fun s => (Return s, s).

Definition modify {S} (f : S -> S) : M S unit := fun s => (Return tt, f s).

Notation "x <~ c ;; k" := (mbind c (fun x => k))
  (at level 61, c at next level, right associativity) : py_scope.

(** [try: body / except: handler(e)], the handler choosing what it catches. *)
Definition mtry {S A} (body : M S A) (handler : exn -> M S A) : M S A :=
  fun s =>
    match body s with
    | (Return a, s') => (Return a, s')
    | (Raise e, s') => handler e s'
    end.

(* ================================================================== *)
(** * core/domain/interfaces/context_interface.py                      *)
(* ================================================================== *)

(** [datetime.isoformat] and [datetime.fromisoformat] are Python's own; the
    store relies on the second reading back what the first wrote, a naive
    [datetime] for a naive one and an aware one of the same instant for an
    aware one.  [fromisoformat s = None] is the [ValueError] of a string that
    is no date. *)
Class IsoFormat : Type := {
  isoformat : datetime -> string;
  fromisoformat : string -> option datetime;
  fromisoformat_isoformat : forall t, fromisoformat (isoformat t) = Some t
}.

(** The dataclass [Message].  Python checks no field's type: [from_dict]
    stores whatever the record holds, so every field but the timestamp is a
    [json] value ([None] is [JNull]). *)
Record Message : Type := mkMessage {
  role : json;
  content : json;
  timestamp : datetime;
  client_id : json;
  metadata : json
}.

(** [data[key]]. *)
Definition getitem (data : json) (key : string) : outcome json :=
  match data with
  | JObj fields =>
      match dict_get key fields with
      | Some v => Return v
      | None => Raise (Py KeyError (Str ("'" +:+ key +:+ "'")))
      end
  | JArr _ => Raise (Py TypeError (Str "list indices must be integers or slices, not str"))
  | JStr _ => Raise (Py TypeError (Str "string indices must be integers"))
  | _ => Raise (Py TypeError (Str "object is not subscriptable"))
  end.

(** [data.get(key, default)]. *)
Definition py_get (data : json) (key : string) (default : json) : outcome json :=
  match data with
  | JObj fields =>
      match dict_get key fields with
      | Some v => Return v
      | None => Return default
      end
  | _ => Raise (Py AttributeError (Str "object has no attribute 'get'"))
  end.

(** [key in data]. *)
Definition py_in (key : string) (data : json) : outcome bool :=
  match data with
  | JObj fields => Return (dict_in key fields)
  | JArr items =>
      Return (existsb (fun v => match v with JStr s => key =? s | _ => false end) items)
  | JStr s => Return (str_contains key s)
  | _ => Raise (Py TypeError (Str "argument is not iterable"))
  end.

Section MessageCodec.
Context `{IsoFormat}.

(** [Message.to_dict]. *)
Definition to_dict (self : Message) : json :=
  JObj [ ("role", role self);
         ("content", content self);
         ("timestamp", JStr (isoformat (timestamp self)));
         ("client_id", client_id self);
         ("metadata", py_or (metadata self) (JObj [])) ].

(** [datetime.fromisoformat(x)] on whatever the record holds. *)
Definition datetime_fromisoformat (x : json) : outcome datetime :=
  match x with
  | JStr s =>
      match fromisoformat s with
      | Some t => Return t
      | None => Raise (Py ValueError (Str ("Invalid isoformat string: '" +:+ s +:+ "'")))
      end
  | _ => Raise (Py TypeError (Str "fromisoformat: argument must be str"))
  end.

(** [Message.from_dict]: the arguments are evaluated in the order written. *)
Definition from_dict (data : json) : outcome Message :=
  role <- getitem data "role" ;;
  content <- getitem data "content" ;;
  stamp <- getitem data "timestamp" ;;
  timestamp <- datetime_fromisoformat stamp ;;
  client_id <- py_get data "client_id" JNull ;;
  metadata <- py_get data "metadata" JNull ;;
  Return (mkMessage role content timestamp client_id metadata).
End MessageCodec.

(* ================================================================== *)
(** * core/infrastructure/redis/redis_context.py                       *)
(* ================================================================== *)

(** An element of the Redis list: bytes.  They are no UTF-8 text, and
    decoding them raises a [UnicodeDecodeError] that says why; or they are
    a text, identified with what [json.loads] makes of it: no JSON document,
    and [json.loads] raises, or the text [json.dumps] writes for a value,
    and [json.loads] gives that value back. *)
Inductive raw : Type :=
| NotUtf8 (reason : string)
| NotJson (text : string)
| JsonText (value : json).

Definition json_loads (s : raw) : outcome json :=
  match s with
  | NotUtf8 reason => Raise (Py UnicodeDecodeError (Str reason))
  | NotJson _ => Raise (Py JSONDecodeError (Str "Expecting value"))
  | JsonText value => Return value
  end.

Definition json_dumps (value : json) : raw := JsonText value.

(** The list under [self._messages_key] on a reachable server, and the
    time-to-live last set on it: [self._get_redis()] returns its connection
    and the server answers.  A Redis list exists while it has an element;
    deleting the key forgets its time-to-live.  The clock that would expire
    the key is not part of the model. *)
Record redis : Type := mkRedis {
  items : list raw;
  ttl : option Z
}.

(** The commands the store sends; the server runs each of them atomically.
    [EXPIRE] does nothing to a key that does not exist and deletes the key
    when the timeout is zero or negative. *)
Definition RPUSH (values : list raw) (r : redis) : redis :=
  mkRedis (items r ++ values) (ttl r).

Definition DEL (r : redis) : redis := mkRedis [] None.

Definition EXPIRE (seconds : Z) (r : redis) : redis :=
  match items r with
  | [] => r
  | _ :: _ => if (seconds <=? 0)%Z then DEL r else mkRedis (items r) (Some seconds)
  end.

Definition rpush (values : list raw) : M redis unit :=
  fun r => (Return tt, RPUSH values r).

Definition delete : M redis unit := fun r => (Return tt, DEL r).

Definition expire (seconds : Z) : M redis unit :=
  fun r => (Return tt, EXPIRE seconds r).

(** The client is made with [decode_responses=True]: it decodes each element
    of a reply as UTF-8, in order, and raises at the first that is not. *)
Fixpoint decode_responses (reply : list raw) : outcome (list raw) :=
  match reply with
  | [] => Return []
  | NotUtf8 reason :: _ => Raise (Py UnicodeDecodeError (Str reason))
  | element :: rest =>
      rest' <- decode_responses rest ;;
      Return (element :: rest')
  end.

(** [LRANGE key 0 -1]. *)
Definition lrange_all : M redis (list raw) :=
  fun r => (decode_responses (items r), r).

Definition llen : M redis Z := fun r => (Return (Z.of_nat (length (items r))), r).

(** [messages[-n:]] for a positive [n]. *)
Definition last_n {A} (n : Z) (messages : list A) : list A :=
  skipn (length messages - Z.to_nat n) messages.

Definition opt_str (x : option string) : json :=
  match x with Some s => JStr s | None => JNull end.

Definition opt_dict (x : option (dict json)) : json :=
  match x with Some d => JObj d | None => JNull end.

Definition opt_int (x : option Z) : json :=
  match x with Some n => JInt n | None => JNull end.

(** [RedisContext.__init__]:
    [self._ttl_seconds = ttl_seconds or settings.redis_ttl_seconds].  An
    argument of zero is read as absent; any other is taken as it is, a
    negative one too.  [config.py] bounds the setting: [ge=3600]. *)
Definition init_ttl_seconds (ttl_seconds : option Z) (redis_ttl_seconds : Z) : Z :=
  match ttl_seconds with
  | Some n => if (n =? 0)%Z then redis_ttl_seconds else n
  | None => redis_ttl_seconds
  end.

(** The [metadata] a caller of [add_message] gives, a [Dict[str, Any]]: a
    dictionary of values JSON carries, or one that holds an object
    [json.dumps] refuses (a set, a [datetime], a key that is a tuple, a
    reference to itself), by the class and text of the fault [json.dumps]
    raises on it. *)
Inductive metadata_arg : Type :=
| Accepted (d : dict json)
| Refused (cls : pyclass) (text : string).

Section RedisContext.
Context `{IsoFormat}.

(** [self._ttl_seconds]. *)
Variable ttl_seconds : Z.

(** [except RedisError: raise / except Exception as e: raise ContextError(
    message=f"{what}{str(e)}", context=..., timestamp=datetime.utcnow())];
    [now] is what the clock reads. *)
Definition except_as_ContextError {A}
    (reraised : list ErrorClass) (now : Z) (what : string)
    (context : exn -> dict json) (e : exn) : M redis A :=
  if existsb (fun cls => is_instance cls e) reraised then raise e
  else if is_Exception e then
    lift (text <- py_str e ;;
          Raise (mkContextError (what +:+ text) (Some (context e)) (utcnow now)))
  else raise e.

(** [Message(role=role, content=content, timestamp=datetime.utcnow(),
    client_id=client_id, metadata=metadata)] for a [metadata] JSON carries. *)
Definition new_message (now : Z) (role content : string)
    (client_id : option string) (metadata : option (dict json)) : Message :=
  mkMessage (JStr role) (JStr content) (utcnow now)
            (opt_str client_id) (opt_dict metadata).

(** [json.dumps(message.to_dict())] for the message [add_message] makes. *)
Definition dumps_new_message (now : Z) (role content : string)
    (client_id : option string) (metadata : option metadata_arg) : outcome raw :=
  match metadata with
  | Some (Refused cls text) => Raise (Py cls (Str text))
  | Some (Accepted d) =>
      Return (json_dumps (to_dict (new_message now role content client_id (Some d))))
  | None =>
      Return (json_dumps (to_dict (new_message now role content client_id None)))
  end.

(** [RedisContext.add_message]. *)
Definition add_message (now : Z) (role content : string)
    (client_id : option string) (metadata : option metadata_arg) : M redis unit :=
  mtry
    (message_json <~ lift (dumps_new_message now role content client_id metadata) ;;
     _ <~ rpush [message_json] ;;
     expire ttl_seconds)
    (except_as_ContextError [RedisError] now "Failed to add message: "
       (fun e => [ ("role", JStr role);
                   ("content_length", JInt (Z.of_nat (String.length content)));
                   ("error_type", JStr (type_name e)) ])).

(** The body of the [for msg_json in messages_json] loop of [get_messages]:
    a record that does not parse, or whose timestamp does not compare with
    [since], is reported and skipped. *)
Definition read_one (since : option datetime) (msg_json : raw)
    (messages : list Message) : outcome (list Message) :=
  try_except_Exception
    (msg_dict <- json_loads msg_json ;;
     message <- from_dict msg_dict ;;
     too_old <- match since with
                | Some since => datetime_lt (timestamp message) since
                | None => Return false
                end ;;
     Return (if too_old then messages else messages ++ [message]))
    (fun _ => Return messages).

Fixpoint read_loop (since : option datetime) (messages_json : list raw)
    (messages : list Message) : outcome (list Message) :=
  match messages_json with
  | [] => Return messages
  | msg_json :: rest =>
      messages' <- read_one since msg_json messages ;;
      read_loop since rest messages'
  end.

(** [if limit and limit > 0: messages = messages[-limit:]]. *)
Definition apply_limit (limit : option Z) (messages : list Message) : list Message :=
  match limit with
  | Some n => if (negb (n =? 0) && (0 <? n))%Z then last_n n messages else messages
  | None => messages
  end.

(** [RedisContext.get_messages]. *)
Definition get_messages (now : Z)
    (limit : option Z) (since : option datetime) : M redis (list Message) :=
  mtry
    (messages_json <~ lrange_all ;;
     messages <~ lift (read_loop since messages_json []) ;;
     ret (apply_limit limit messages))
    (except_as_ContextError [RedisError] now "Failed to get messages: "
       (fun e => [ ("limit", opt_int limit);
                   ("error_type", JStr (type_name e)) ])).

(** [RedisContext.clear_context]. *)
Definition clear_context (now : Z) : M redis unit :=
  mtry delete
    (except_as_ContextError [RedisError] now "Failed to clear context: "
       (fun e => [ ("error_type", JStr (type_name e)) ])).

(** [RedisContext.get_context_size]. *)
Definition get_context_size (now : Z) : M redis Z :=
  mtry llen
    (except_as_ContextError [RedisError] now "Failed to get context size: "
       (fun e => [ ("error_type", JStr (type_name e)) ])).

(** [[msg for msg in messages if msg.timestamp >= before]]: the comparison
    raises at the first message whose timestamp does not compare with
    [before]. *)
Fixpoint keep_from (before : datetime) (messages : list Message)
    : outcome (list Message) :=
  match messages with
  | [] => Return []
  | msg :: rest =>
      keep <- datetime_ge (timestamp msg) before ;;
      rest' <- keep_from before rest ;;
      Return (if keep then msg :: rest' else rest')
  end.

(** [RedisContext.prune_old_messages]. *)
Definition prune_old_messages (now : Z) (before : datetime) : M redis Z :=
  mtry
    (messages <~ get_messages now None None ;;
     messages_to_keep <~ lift (keep_from before messages) ;;
     _ <~ delete ;;
     _ <~ match messages_to_keep with
          | [] => ret tt
          | _ :: _ =>
              let messages_json :=
                map (fun msg => json_dumps (to_dict msg)) messages_to_keep in
              _ <~ rpush messages_json ;;
              expire ttl_seconds
          end ;;
     let deleted_count :=
       (Z.of_nat (length messages) - Z.of_nat (length messages_to_keep))%Z in
     ret deleted_count)
    (except_as_ContextError [RedisError; ContextError] now
       "Failed to prune old messages: "
       (fun e => [ ("before", JStr (isoformat before));
                   ("error_type", JStr (type_name e)) ])).
End RedisContext.

(** ** [prune_old_messages] between its awaits

    Every [await] on a Redis command is a point where the event loop may run
    another coroutine, and the server runs the commands in the order they
    arrive.  The pruning coroutine is therefore a machine that sends one
    command per step; the commands of the [add_message] calls of other
    clients may arrive in between. *)
Inductive prune_pc : Type :=
| AtRead
| AtDelete (messages : list Message)
| AtRpush (messages messages_to_keep : list Message)
| AtExpire (messages messages_to_keep : list Message)
| Finished (result : outcome Z).

(** A command of an [add_message] call: its [rpush], then its [expire]. *)
Inductive append_cmd : Type :=
| Push (message : Message)
| Expire.

Inductive event : Type :=
| Prune
| Append (c : append_cmd).

Section Interleaving.
Context `{IsoFormat}.
Variable ttl_seconds : Z.
Variable now : Z.
Variable before : datetime.

Definition deleted_count (messages messages_to_keep : list Message) : Z :=
  (Z.of_nat (length messages) - Z.of_nat (length messages_to_keep))%Z.

(** How [prune_old_messages] ends on a fault. *)
Definition prune_fails (e : exn) (r : redis) : prune_pc * redis :=
  let (result, r') :=
    except_as_ContextError (A := Z) [RedisError; ContextError] now
      "Failed to prune old messages: "
      (fun e => [ ("before", JStr (isoformat before));
                  ("error_type", JStr (type_name e)) ]) e r in
  (Finished result, r').

(** The pruning coroutine runs up to its next [await], or to its end.  The
    messages are filtered once the read has answered, before the delete is
    sent: a comparison that raises ends the coroutine with no command
    sent. *)
Definition prune_step (pc : prune_pc) (r : redis) : prune_pc * redis :=
  match pc with
  | AtRead =>
      match get_messages now None None r with
      | (Return messages, r') => (AtDelete messages, r')
      | (Raise e, r') => prune_fails e r'
      end
  | AtDelete messages =>
      match keep_from before messages with
      | Raise e => prune_fails e r
      | Return [] => (Finished (Return (deleted_count messages [])), DEL r)
      | Return (msg :: rest) => (AtRpush messages (msg :: rest), DEL r)
      end
  | AtRpush messages messages_to_keep =>
      (AtExpire messages messages_to_keep,
       RPUSH (map (fun msg => json_dumps (to_dict msg)) messages_to_keep) r)
  | AtExpire messages messages_to_keep =>
      (Finished (Return (deleted_count messages messages_to_keep)),
       EXPIRE ttl_seconds r)
  | Finished result => (Finished result, r)
  end.

Definition append_step (c : append_cmd) (r : redis) : redis :=
  match c with
  | Push message => RPUSH [json_dumps (to_dict message)] r
  | Expire => EXPIRE ttl_seconds r
  end.

Definition step (ev : event) (st : prune_pc * redis) : prune_pc * redis :=
  match ev with
  | Prune => prune_step (fst st) (snd st)
  | Append c => (fst st, append_step c (snd st))
  end.

(** The server's view of a schedule: the events in their order of arrival. *)
Definition run (schedule : list event) (st : prune_pc * redis) : prune_pc * redis :=
  fold_left (fun st ev => step ev st) schedule st.

(** What the appends of a stretch of the schedule pushed. *)
Definition pushed (cmds : list append_cmd) : list raw :=
  flat_map (fun c => match c with
                     | Push message => [json_dumps (to_dict message)]
                     | Expire => []
                     end) cmds.
End Interleaving.

(* ================================================================== *)
(** * core/domain/interfaces/plugin_interface.py                       *)
(* ================================================================== *)

(** A live extension, by what its methods do when the loader calls them.
    [execute] receives the caller's [params] dictionary itself, not a copy:
    beside what it returns or raises it gives the dictionary as the call
    leaves it. *)
Record PluginInterface : Type := mkPlugin {
  execute : string -> dict json -> outcome json * dict json;
  get_prompt_context : string;
  get_manifest : json;
  on_load : outcome unit;
  on_unload : outcome unit;
  health_check : outcome bool
}.

(* ================================================================== *)
(** * core/application/services/plugin_service.py                      *)
(* ================================================================== *)

(** What [getattr(module, attr_name)] is for a name of [dir(module)], as the
    three tests of [_load_plugin_module] tell them apart; a subclass of the
    interface comes with what calling it does. *)
Inductive attribute : Type :=
| NotAClass
| UnrelatedClass
| PluginInterfaceItself
| PluginSubclass (construct : outcome PluginInterface).

(** [handler.py]: whether [spec_from_file_location] finds a loader for it,
    and what running it gives: a fault, or the module, as the listing
    [dir(module)] (sorted by name) of its attributes. *)
Record handler_file : Type := mkHandler {
  spec_found : bool;
  exec_module : outcome (list (string * attribute))
}.

(** A plugin directory: [plugin.json], absent or with what [open] and
    [json.load] make of it, and [handler.py], absent or present. *)
Record plugin_folder : Type := mkFolder {
  manifest_file : option (outcome json);
  handler_py : option handler_file
}.

(** The directories of the file system, by path. *)
Definition filesystem := string -> option plugin_folder.

(** [Path.__truediv__]. *)
Definition path_join (dir name : string) : string := dir +:+ "/" +:+ name.

(** The state of a [PluginLoader]. *)
Record PluginLoader : Type := mkLoader {
  plugins_dir : string;
  loaded_plugins : dict PluginInterface;
  plugin_manifests : dict json
}.

Definition required_fields : list string :=
  ["name"; "version"; "description"; "intents"].

(** The loop [for field in required_fields] of [_load_manifest]. *)
Fixpoint check_required (now : datetime) (manifest_path : string)
    (manifest : json) (fields : list string) : outcome unit :=
  match fields with
  | [] => Return tt
  | field :: rest =>
      present <- py_in field manifest ;;
      if negb present then
        Raise (mkConfigurationError field
                 ("Missing required field '" +:+ field +:+ "' in " +:+ manifest_path)
                 None now)
      else check_required now manifest_path manifest rest
  end.

(** [PluginLoader._load_manifest]. *)
Definition _load_manifest (now : datetime) (plugin_path : string)
    (folder : plugin_folder) : outcome json :=
  let manifest_path := path_join plugin_path "plugin.json" in
  match manifest_file folder with
  | None =>
      Raise (mkConfigurationError "plugin.json"
               ("Manifest not found for plugin at " +:+ plugin_path) None now)
  | Some loaded =>
      try_except is_JSONDecodeError
        (manifest <- loaded ;;
         _ <- check_required now manifest_path manifest required_fields ;;
         Return manifest)
        (fun e =>
           text <- py_str e ;;
           Raise (mkConfigurationError "plugin.json"
                    ("Invalid JSON in " +:+ manifest_path +:+ ": " +:+ text)
                    None now))
  end.

(** The loop [for attr_name in dir(module)] of [_load_plugin_module]: the
    first subclass of the interface that is not the interface itself, after
    which the loop breaks. *)
Fixpoint find_plugin_class (attrs : list (string * attribute))
    : option (outcome PluginInterface) :=
  match attrs with
  | [] => None
  | (attr_name, attr) :: rest =>
      match attr with
      | PluginSubclass construct => Some construct
      | _ => find_plugin_class rest
      end
  end.

(** [PluginLoader._load_plugin_module]. *)
Definition _load_plugin_module (now : datetime) (plugin_path plugin_name : string)
    (folder : plugin_folder) : outcome PluginInterface :=
  let handler_path := path_join plugin_path "handler.py" in
  match handler_py folder with
  | None =>
      Raise (mkConfigurationError "handler.py"
               ("Handler not found for plugin " +:+ plugin_name) None now)
  | Some handler =>
      try_except_Exception
        (if negb (spec_found handler) then
           Raise (mkConfigurationError "handler.py"
                    ("Failed to load spec for " +:+ handler_path) None now)
         else
           module <- exec_module handler ;;
           match find_plugin_class module with
           | None =>
               Raise (mkConfigurationError "handler.py"
                        ("No PluginInterface subclass found in " +:+ handler_path)
                        None now)
           | Some plugin_class => plugin_class
           end)
        (fun e =>
           if is_instance ConfigurationError e then Raise e
           else
             text <- py_str e ;;
             Raise (mkConfigurationError "handler.py"
                      ("Failed to load plugin " +:+ plugin_name +:+ ": " +:+ text)
                      (Some [("error_type", JStr (type_name e))]) now))
  end.

Definition set_loaded_plugins (f : dict PluginInterface -> dict PluginInterface)
    (self : PluginLoader) : PluginLoader :=
  mkLoader (plugins_dir self) (f (loaded_plugins self)) (plugin_manifests self).

Definition set_plugin_manifests (f : dict json -> dict json)
    (self : PluginLoader) : PluginLoader :=
  mkLoader (plugins_dir self) (loaded_plugins self) (f (plugin_manifests self)).

(** [PluginLoader.load_plugin]. *)
Definition load_plugin (fs : filesystem) (now : datetime) (plugin_name : string)
    : M PluginLoader unit :=
  self <~ get ;;
  let plugin_path := path_join (plugins_dir self) plugin_name in
  match fs plugin_path with
  | None =>
      raise (mkConfigurationError "plugin_directory"
               ("Plugin directory not found: " +:+ plugin_path) None now)
  | Some folder =>
      manifest <~ lift (_load_manifest now plugin_path folder) ;;
      enabled <~ lift (py_get manifest "enabled" (JBool true)) ;;
      if negb (truthy enabled) then ret tt
      else
        plugin <~ lift (_load_plugin_module now plugin_path plugin_name folder) ;;
        _ <~ lift (on_load plugin) ;;
        _ <~ modify (set_loaded_plugins (dict_set plugin_name plugin)) ;;
        modify (set_plugin_manifests (dict_set plugin_name manifest))
  end.

(** [del d[k]] as a statement: a [KeyError] when [k] is not in [d]. *)
Definition py_del {V} (k : string) (d : dict V) : outcome (dict V) :=
  if dict_in k d then Return (dict_del k d)
  else Raise (Py KeyError (Str ("'" +:+ k +:+ "'"))).

Definition del_loaded_plugin (plugin_name : string) : M PluginLoader unit :=
  fun self =>
    match py_del plugin_name (loaded_plugins self) with
    | Return d => (Return tt, set_loaded_plugins (fun _ => d) self)
    | Raise e => (Raise e, self)
    end.

Definition del_plugin_manifest (plugin_name : string) : M PluginLoader unit :=
  fun self =>
    match py_del plugin_name (plugin_manifests self) with
    | Return d => (Return tt, set_plugin_manifests (fun _ => d) self)
    | Raise e => (Raise e, self)
    end.

(** [PluginLoader.unload_plugin]. *)
Definition unload_plugin (plugin_name : string) : M PluginLoader unit :=
  self <~ get ;;
  match dict_get plugin_name (loaded_plugins self) with
  | Some plugin =>
      _ <~ lift (on_unload plugin) ;;
      _ <~ del_loaded_plugin plugin_name ;;
      del_plugin_manifest plugin_name
  | None => ret tt
  end.

(** [PluginLoader.get_plugin]. *)
Definition get_plugin (self : PluginLoader) (plugin_name : string)
    : option PluginInterface :=
  dict_get plugin_name (loaded_plugins self).

(** [PluginLoader.get_plugin_manifest]. *)
Definition get_plugin_manifest (self : PluginLoader) (plugin_name : string)
    : option json :=
  dict_get plugin_name (plugin_manifests self).

(** [PluginLoader.execute_plugin].  The handler stores [params], the
    dictionary the extension was given, under ["params"]: what it carries is
    the dictionary as [execute] left it. *)
Definition execute_plugin (self : PluginLoader) (now : datetime)
    (plugin_name intent : string) (params : dict json) : outcome json :=
  match get_plugin self plugin_name with
  | None =>
      Raise (mkPluginExecutionError plugin_name intent
               ("Plugin '" +:+ plugin_name +:+ "' not loaded") None now)
  | Some plugin =>
      let (result, params') := execute plugin intent params in
      try_except_Exception result
        (fun e =>
           text <- py_str e ;;
           Raise (mkPluginExecutionError plugin_name intent text
                    (Some [ ("error_type", JStr (type_name e));
                            ("params", JObj params') ])
                    now))
  end.

(** The loop of [health_check_all] over [self.loaded_plugins.items()]. *)
Fixpoint health_loop (plugins : list (string * PluginInterface))
    (health_status : dict bool) : outcome (dict bool) :=
  match plugins with
  | [] => Return health_status
  | (plugin_name, plugin) :: rest =>
      health_status' <-
        try_except_Exception
          (is_healthy <- health_check plugin ;;
           Return (dict_set plugin_name is_healthy health_status))
          (fun _ => Return (dict_set plugin_name false health_status)) ;;
      health_loop rest health_status'
  end.

(** [PluginLoader.health_check_all]. *)
Definition health_check_all (self : PluginLoader) : outcome (dict bool) :=
  health_loop (loaded_plugins self) [].

(** [PluginLoader.unload_all_plugins]: the names are listed first, then
    unloaded one after the other. *)
Fixpoint unload_loop (plugin_names : list string) : M PluginLoader unit :=
  match plugin_names with
  | [] => ret tt
  | plugin_name :: rest =>
      _ <~ unload_plugin plugin_name ;;
      unload_loop rest
  end.

Definition unload_all_plugins : M PluginLoader unit :=
  self <~ get ;;
  unload_loop (keys (loaded_plugins self)).

(** [PluginLoader.get_all_plugins]: a copy of the dictionary. *)
Definition get_all_plugins (self : PluginLoader) : dict PluginInterface :=
  loaded_plugins self.

(** An entry of [self.plugins_dir.iterdir()]: its name and [is_dir()]. *)
Record dir_entry : Type := mkEntry {
  entry_name : string;
  entry_is_dir : bool
}.

(** [self.plugins_dir]: absent, or with what [iterdir()] gives. *)
Definition plugins_listing := option (outcome (list dir_entry)).

(** [name.startswith("_")]. *)
Definition is_special (name : string) : bool := prefix "_" name.

(** The loop of [load_all_plugins].  The warning it prints for a
    [ConfigurationError] is not part of the model. *)
Fixpoint load_loop (fs : filesystem) (now : datetime) (entries : list dir_entry)
    : M PluginLoader unit :=
  match entries with
  | [] => ret tt
  | plugin_dir :: rest =>
      if negb (entry_is_dir plugin_dir) then load_loop fs now rest
      else if is_special (entry_name plugin_dir) then load_loop fs now rest
      else
        _ <~ mtry (load_plugin fs now (entry_name plugin_dir))
               (fun e => if is_instance ConfigurationError e then ret tt
                         else raise e) ;;
        load_loop fs now rest
  end.

(** [PluginLoader.load_all_plugins]. *)
Definition load_all_plugins (fs : filesystem) (listing : plugins_listing)
    (now : datetime) : M PluginLoader unit :=
  match listing with
  | None => ret tt
  | Some iterdir =>
      entries <~ lift iterdir ;;
      load_loop fs now entries
  end.

(** A line feed, and [sep.join(lines)]. *)
Definition nl : string := String (Ascii.ascii_of_nat 10) "".

Definition join (sep : string) (lines : list string) : string :=
  String.concat sep lines.

(** What an f-string makes of a value: [format(x, "")], which for a string
    is the string itself; the texts of the other values are Python's own. *)
Class PyFormat : Type := {
  py_format : json -> string;
  py_format_str : forall s, py_format (JStr s) = s
}.

Section Rendering.
Context `{IsoFormat} `{PyFormat}.

(** The loop of [get_all_plugin_contexts] over
    [self.loaded_plugins.items()]. *)
Fixpoint contexts_loop (manifests : dict json)
    (plugins : list (string * PluginInterface)) (contexts : list string)
    : outcome (list string) :=
  match plugins with
  | [] => Return contexts
  | (plugin_name, plugin) :: rest =>
      manifest <- match dict_get plugin_name manifests with
                  | Some manifest => Return manifest
                  | None => Raise (Py KeyError (Str ("'" +:+ plugin_name +:+ "'")))
                  end ;;
      description <- getitem manifest "description" ;;
      contexts_loop manifests rest
        (contexts ++ [ "## " +:+ py_format description;
                       get_prompt_context plugin;
                       "" ])
  end.

(** [PluginLoader.get_all_plugin_contexts]. *)
Definition get_all_plugin_contexts (self : PluginLoader) : outcome string :=
  contexts <- contexts_loop (plugin_manifests self) (loaded_plugins self) [] ;;
  Return (join nl contexts).

(** The [if]/[elif] chain of [format_for_llm] on one message: the line it
    appends, if any. *)
Definition render_message (msg : Message) : list string :=
  match role msg with
  | JStr "user" => ["<|user|>" +:+ nl +:+ py_format (content msg) +:+ "<|end|>"]
  | JStr "assistant" => ["<|assistant|>" +:+ nl +:+ py_format (content msg) +:+ "<|end|>"]
  | JStr "system" => ["<|system|>" +:+ nl +:+ py_format (content msg) +:+ "<|end|>"]
  | _ => []
  end.

(** [if system_prompt: lines.append(...)]. *)
Definition render_system (system_prompt : option string) : list string :=
  match system_prompt with
  | Some text =>
      if negb (text =? "") then ["<|system|>" +:+ nl +:+ text +:+ "<|end|>"] else []
  | None => []
  end.

(** [RedisContext.format_for_llm]. *)
Definition format_for_llm (now : Z) (limit : option Z)
    (system_prompt : option string) : M redis string :=
  mtry
    (messages <~ get_messages now limit None ;;
     let lines := render_system system_prompt in
     let lines := fold_left (fun lines msg => lines ++ render_message msg) messages lines in
     let lines := lines ++ ["<|assistant|>"] in
     ret (join nl lines))
    (except_as_ContextError [RedisError; ContextError] now
       "Failed to format context for LLM: "
       (fun e => [ ("limit", opt_int limit);
                   ("error_type", JStr (type_name e)) ])).
End Rendering.

(* ================================================================== *)
(** * config.py                                                        *)
(* ================================================================== *)

(** The keys [model_dump_safe] masks. *)
Definition secrets : list string := ["openweather_api_key"; "google_client_secret"].

(** The loop of [Settings.model_dump_safe] on the dictionary
    [self.model_dump()] gave. *)
Fixpoint mask_secrets (names : list string) (config : dict json) : dict json :=
  match names with
  | [] => config
  | secret :: rest =>
      let config :=
        match dict_get secret config with
        | Some value =>
            if truthy value then dict_set secret (JStr "***MASKED***") config
            else config
        | None => config
        end in
      mask_secrets rest config
  end.

(** [Settings.model_dump_safe]. *)
Definition model_dump_safe (model_dump : dict json) : dict json :=
  mask_secrets secrets model_dump.

(** [Settings.validate_redis_url]. *)
Definition validate_redis_url (v : string) : outcome string :=
  if negb (prefix "redis://" v) then
    Raise (Py ValueError (Str "redis_url doit commencer par 'redis://'"))
  else Return v.

(* ================================================================== *)
(** * Vocabulary of the properties                                     *)
(* ================================================================== *)

(** An [IsoFormat] to run the store on: the number of the [datetime]
    written in decimal, after a [Z] for an aware one; it reads back. *)
Definition decimal_isoformat (t : datetime) : string :=
  match t with
  | Naive t => NilEmpty.string_of_int (Z.to_int t)
  | Aware utc => String "Z"%char (NilEmpty.string_of_int (Z.to_int utc))
  end.

Definition naive_of (s : string) : option datetime :=
  option_map (fun i => Naive (Z.of_int i)) (NilEmpty.int_of_string s).

Definition aware_of (digits : string) : option datetime :=
  option_map (fun i => Aware (Z.of_int i)) (NilEmpty.int_of_string digits).

Definition decimal_fromisoformat (s : string) : option datetime :=
  match s with
  | String "Z"%char digits => aware_of digits
  | _ => naive_of s
  end.

(** A number in decimal does not start with a [Z]. *)
Definition decimal_is_naive (i : Decimal.int) :
    decimal_fromisoformat (NilEmpty.string_of_int i)
    = naive_of (NilEmpty.string_of_int i) :=
  match i with
  | Decimal.Pos d =>
      match d as d0
        return decimal_fromisoformat (NilEmpty.string_of_int (Decimal.Pos d0))
               = naive_of (NilEmpty.string_of_int (Decimal.Pos d0))
      with
      | Decimal.Nil => eq_refl
      | Decimal.D0 _ => eq_refl | Decimal.D1 _ => eq_refl | Decimal.D2 _ => eq_refl
      | Decimal.D3 _ => eq_refl | Decimal.D4 _ => eq_refl | Decimal.D5 _ => eq_refl
      | Decimal.D6 _ => eq_refl | Decimal.D7 _ => eq_refl | Decimal.D8 _ => eq_refl
      | Decimal.D9 _ => eq_refl
      end
  | Decimal.Neg _ => eq_refl
  end.

Definition decimal_iso : IsoFormat :=
  Build_IsoFormat decimal_isoformat decimal_fromisoformat
    (fun t =>
       match t as t0 return decimal_fromisoformat (decimal_isoformat t0) = Some t0 with
       | Naive t =>
           eq_trans (decimal_is_naive (Z.to_int t))
             (eq_trans
                (f_equal (option_map (fun i => Naive (Z.of_int i)))
                         (NilEmpty.isi (Z.to_int t)))
                (f_equal (fun n => Some (Naive n)) (DecimalZ.of_to t)))
       | Aware utc =>
           eq_trans
             (f_equal (option_map (fun i => Aware (Z.of_int i)))
                      (NilEmpty.isi (Z.to_int utc)))
             (f_equal (fun n => Some (Aware n)) (DecimalZ.of_to utc))
       end).

Section Log.
Context `{IsoFormat}.

(** What [get_messages] makes of one record, before its filter. *)
Definition decode (msg_json : raw) : outcome Message :=
  msg_dict <- json_loads msg_json ;; from_dict msg_dict.

(** The messages of a log: its records that parse, in the log's order. *)
Definition stored_messages (log : list raw) : list Message :=
  flat_map (fun msg_json =>
              match decode msg_json with
              | Return message => [message]
              | Raise _ => []
              end) log.

(** Where reading a log fails: the reason of its first element that is no
    UTF-8 text; [None] when every element is text. *)
Fixpoint first_undecodable (log : list raw) : option string :=
  match log with
  | [] => None
  | NotUtf8 reason :: _ => Some reason
  | _ :: rest => first_undecodable rest
  end.

(** A record that is text and does not parse as a message. *)
Definition corrupted (msg_json : raw) : bool :=
  match msg_json with
  | NotUtf8 _ => false
  | _ => match decode msg_json with
         | Return _ => false
         | Raise _ => true
         end
  end.

(** The fault of a read that meets an element that is no text. *)
Definition read_fault (now : Z) (limit : option Z) (reason : string) : exn :=
  mkContextError ("Failed to get messages: " +:+ reason)
    (Some [("limit", opt_int limit); ("error_type", JStr "UnicodeDecodeError")])
    (utcnow now).

(** The timestamp of a message compares with [t] and is at or after it, or
    strictly before it. *)
Definition at_or_after (t : datetime) (message : Message) : bool :=
  comparable (timestamp message) t
  && (instant t <=? instant (timestamp message))%Z.

Definition earlier_than (t : datetime) (message : Message) : bool :=
  comparable (timestamp message) t
  && (instant (timestamp message) <? instant t)%Z.

(** The filter of [get_messages]: no [since], or a timestamp at or after it. *)
Definition not_before (since : option datetime) (message : Message) : bool :=
  match since with
  | Some since => at_or_after since message
  | None => true
  end.

(** Every timestamp compares with [t]. *)
Definition all_comparable (t : datetime) (messages : list Message) : bool :=
  forallb (fun message => comparable (timestamp message) t) messages.

(** The fault of a prune whose cutoff does not compare with a timestamp. *)
Definition prune_fault (now : Z) (before : datetime) : exn :=
  mkContextError
    "Failed to prune old messages: can't compare offset-naive and offset-aware datetimes"
    (Some [("before", JStr (isoformat before)); ("error_type", JStr "TypeError")])
    (utcnow now).

(** What the delete and the rewrite of [prune_old_messages] leave under
    the key, the time-to-live being [ttl_seconds]. *)
Definition rewritten (ttl_seconds : Z) (messages_to_keep : list Message) : redis :=
  match messages_to_keep with
  | [] => mkRedis [] None
  | _ :: _ =>
      EXPIRE ttl_seconds
        (mkRedis (map (fun msg => json_dumps (to_dict msg)) messages_to_keep) None)
  end.

(** A message as it comes back from the record [to_dict] writes for it:
    [to_dict] stores an absent or empty [metadata] as [{}]. *)
Definition stored (message : Message) : Message :=
  mkMessage (role message) (content message) (timestamp message)
            (client_id message) (py_or (metadata message) (JObj [])).

(** What [get_messages] reads back of a message [add_message] appended. *)
Definition appended (now : Z) (role content : string)
    (client_id : option string) (metadata : option (dict json)) : Message :=
  stored (new_message now role content client_id metadata).

(** A record that [add_message] or [prune_old_messages] wrote. *)
Definition written (msg_json : raw) : Prop :=
  exists message, msg_json = json_dumps (to_dict message).

(** Ascending chronological order: each timestamp compares with the later
    ones and is at or before them. *)
Definition chronological (messages : list Message) : Prop :=
  StronglySorted
    (fun a b => comparable (timestamp a) (timestamp b) = true
                /\ (instant (timestamp a) <= instant (timestamp b))%Z)
    messages.

(** The commands of the [add_message] calls in a schedule. *)
Definition appends_of (schedule : list event) : list append_cmd :=
  flat_map (fun ev => match ev with
                      | Append c => [c]
                      | Prune => []
                      end) schedule.

(** The fault of an [add_message] whose metadata [json.dumps] refuses. *)
Definition add_fault (now : Z) (role content : string) (cls : pyclass)
    (text : string) : exn :=
  mkContextError ("Failed to add message: " +:+ text)
    (Some [ ("role", JStr role);
            ("content_length", JInt (Z.of_nat (String.length content)));
            ("error_type", JStr (pyclass_name cls)) ])
    (utcnow now).
End Log.

(** A fault of the taxonomy of the given class. *)
Definition classified (cls : ErrorClass) (e : exn) : Prop :=
  exists b, e = Hive cls b.

(** A registry whose dictionary has each key once, as a Python [dict] has. *)
Definition unique_keys {V} (d : dict V) : Prop := NoDup (keys d).

(** The verdict [health_check_all] records for one extension. *)
Definition verdict (plugin : PluginInterface) : bool :=
  match health_check plugin with
  | Return is_healthy => is_healthy
  | Raise _ => false
  end.

(** The statuses of a registry, in its order. *)
Definition verdicts (plugins : dict PluginInterface) : dict bool :=
  map (fun entry => (fst entry, verdict (snd entry))) plugins.

(** A manifest as [_load_manifest] accepts it and [load_plugin] can use it:
    a JSON object with the four required keys. *)
Definition has_required_fields (manifest : json) : Prop :=
  exists fields,
    manifest = JObj fields /\
    forall field, In field required_fields -> dict_in field fields = true.

(** The subclasses of the interface among the attributes of a module. *)
Definition plugin_classes (attrs : list (string * attribute))
    : list (outcome PluginInterface) :=
  flat_map (fun a => match snd a with
                     | PluginSubclass construct => [construct]
                     | _ => []
                     end) attrs.

(* ================================================================== *)
(** * Sample data                                                      *)
(* ================================================================== *)

Section SampleLogs.
#[local] Existing Instance decimal_iso.
Local Open Scope Z_scope.

(** Three messages appended at times 1, 2 and 3. *)
Definition log3 : redis :=
  let r1 := snd (add_message 3600 1 "user" "one" None None (mkRedis [] None)) in
  let r2 := snd (add_message 3600 2 "assistant" "two" None None r1) in
  snd (add_message 3600 3 "user" "three" (Some "client-a") None r2).

Definition message1 : Message :=
  mkMessage (JStr "user") (JStr "one") (Naive 1) JNull (JObj []).

Definition message2 : Message :=
  mkMessage (JStr "assistant") (JStr "two") (Naive 2) JNull (JObj []).

Definition message3 : Message :=
  mkMessage (JStr "user") (JStr "three") (Naive 3) (JStr "client-a") (JObj []).

(** A message another client appends at time 10. *)
Definition late : Message :=
  mkMessage (JStr "user") (JStr "late") (Naive 10) JNull (JObj []).

(** A record that lacks its timestamp. *)
Definition no_timestamp : raw :=
  JsonText (JObj [("role", JStr "user"); ("content", JStr "x")]).

(** A log with a record that is no JSON and one that lacks its timestamp. *)
Definition damaged_log : redis :=
  mkRedis (NotJson "{oops" :: items log3 ++ [no_timestamp]) (Some 3600).

(** Bytes that are no UTF-8 text, and the three messages after them. *)
Definition binary : raw :=
  NotUtf8 "'utf-8' codec can't decode byte 0xff in position 0: invalid start byte".

Definition binary_log : redis := mkRedis (binary :: items log3) (Some 3600).

(** A message whose timestamp another writer stored with its zone, between
    the messages of times 1 and 2. *)
Definition zoned : Message :=
  mkMessage (JStr "user") (JStr "zoned") (Aware 2) JNull (JObj []).

Definition zoned_log : redis :=
  mkRedis [ json_dumps (to_dict message1); json_dumps (to_dict zoned);
            json_dumps (to_dict message2) ] (Some 3600).

(** The messages of times 3 and 1, stored in that order. *)
Definition unordered_log : redis :=
  mkRedis [json_dumps (to_dict message3); json_dumps (to_dict message1)] (Some 3600).
End SampleLogs.

Section SamplePlugins.

(** The manifest and the extension of the specification's example; the
    temperature is 8.5. *)
Definition weather_manifest : json :=
  JObj [ ("name", JStr "weather"); ("version", JStr "1.0.0");
         ("description", JStr "d"); ("intents", JArr [JStr "get_weather"]);
         ("enabled", JBool true) ].

Definition weather_result : json :=
  JObj [("success", JBool true); ("temperature", JFloat (S754_finite false 17%positive (-1)%Z))].

Definition weather : PluginInterface :=
  mkPlugin
    (fun intent params =>
       (if intent =? "get_weather" then Return weather_result
        else Return (JObj [("success", JBool false); ("error", JStr "unknown intent")]),
        params))
    "get_weather(location)" weather_manifest
    (Return tt) (Return tt) (Return true).

(** An extension cancelled while it runs: [asyncio.CancelledError] derives
    from [BaseException] and not from [Exception]. *)
Definition cancelled : exn := Py (NonException "CancelledError") (Str "").

Definition stalled : PluginInterface :=
  mkPlugin (fun intent params => (Raise cancelled, params))
    "" JNull (Return tt) (Return tt) (Raise cancelled).

(** An extension that consumes its parameters and then fails. *)
Definition runtime_error : exn := Py (OtherException "RuntimeError") (Str "boom").

Definition broken : PluginInterface :=
  mkPlugin (fun intent params => (Raise runtime_error, dict_del "location" params))
    "" JNull (Return tt) (Return tt) (Raise runtime_error).

(** An extension whose [on_load] fails. *)
Definition moody : PluginInterface :=
  mkPlugin (fun intent params => (Return JNull, params))
    "" JNull (Raise runtime_error) (Return tt) (Return false).

(** A manifest with its four required keys and nothing in them. *)
Definition blank_manifest : json :=
  JObj [ ("name", JStr ""); ("version", JStr "");
         ("description", JStr ""); ("intents", JArr []) ].

(** The module of a handler that imports the interface and [datetime], as
    [dir] lists it: the classes it defines whose names sort before
    [PluginInterface], the interface, those that sort after, and the rest. *)
Definition module_of (before after : list (string * attribute)) : handler_file :=
  mkHandler true
    (Return (before ++ [("PluginInterface", PluginInterfaceItself)] ++ after
               ++ [("__name__", NotAClass); ("datetime", UnrelatedClass)])).

Definition weather_folder : plugin_folder :=
  mkFolder (Some (Return weather_manifest))
           (Some (module_of [] [("WeatherPlugin", PluginSubclass (Return weather))])).

(** A handler with two implementations of the interface. *)
Definition duo_folder : plugin_folder :=
  mkFolder (Some (Return weather_manifest))
           (Some (module_of [ ("AlphaPlugin", PluginSubclass (Return weather));
                              ("BetaPlugin", PluginSubclass (Return broken)) ] [])).

Definition blank_folder : plugin_folder :=
  mkFolder (Some (Return blank_manifest))
           (Some (module_of [("BlankPlugin", PluginSubclass (Return weather))] [])).

Definition moody_folder : plugin_folder :=
  mkFolder (Some (Return weather_manifest))
           (Some (module_of [("MoodyPlugin", PluginSubclass (Return moody))] [])).

(** Folders that fail earlier: no manifest, a manifest that is no JSON, one
    without [intents], no handler, a handler without implementation. *)
Definition ghost_folder : plugin_folder := mkFolder None None.

Definition garbled_folder : plugin_folder :=
  mkFolder (Some (Raise (Py JSONDecodeError (Str "Expecting value")))) None.

Definition partial_folder : plugin_folder :=
  mkFolder (Some (Return (JObj [ ("name", JStr "p"); ("version", JStr "1");
                                 ("description", JStr "d") ])))
           None.

Definition headless_folder : plugin_folder :=
  mkFolder (Some (Return weather_manifest)) None.

Definition hollow_folder : plugin_folder :=
  mkFolder (Some (Return weather_manifest)) (Some (module_of [] [])).

Definition sample_fs : filesystem :=
  fun path =>
    dict_get path
      [ ("plugins/weather", weather_folder); ("plugins/duo", duo_folder);
        ("plugins/blank", blank_folder); ("plugins/moody", moody_folder);
        ("plugins/ghost", ghost_folder); ("plugins/garbled", garbled_folder);
        ("plugins/partial", partial_folder); ("plugins/headless", headless_folder);
        ("plugins/hollow", hollow_folder) ].

Definition empty_loader : PluginLoader := mkLoader "plugins" [] [].

(** A registry with a healthy extension, then a cancelled one, then a
    failing one. *)
Definition busy_loader : PluginLoader :=
  mkLoader "plugins"
    [("weather", weather); ("stalled", stalled); ("broken", broken)]
    [("weather", weather_manifest); ("stalled", weather_manifest);
     ("broken", weather_manifest)].

(** A registry whose checks return or raise instances of [Exception]. *)
Definition calm_loader : PluginLoader :=
  mkLoader "plugins"
    [("weather", weather); ("broken", broken); ("moody", moody)]
    [("weather", weather_manifest); ("broken", weather_manifest);
     ("moody", weather_manifest)].
End SamplePlugins.

(** [del] for each name of a list. *)
Definition remove_all {V} (names : list string) (d : dict V) : dict V :=
  fold_left (fun d k => dict_del k d) names d.

(** Both dictionaries of the registry hold the same names, each once. *)
Definition consistent (self : PluginLoader) : Prop :=
  keys (loaded_plugins self) = keys (plugin_manifests self)
  /\ unique_keys (loaded_plugins self).

(** What [load_plugin] finds for a name before it writes to the registry: a
    fault, nothing to register (the manifest is not enabled), or an instance
    whose [on_load] returned and its manifest. *)
Definition load_result (fs : filesystem) (now : datetime) (dir plugin_name : string)
    : outcome (option (PluginInterface * json)) :=
  let plugin_path := path_join dir plugin_name in
  match fs plugin_path with
  | None =>
      Raise (mkConfigurationError "plugin_directory"
               ("Plugin directory not found: " +:+ plugin_path) None now)
  | Some folder =>
      manifest <- _load_manifest now plugin_path folder ;;
      enabled <- py_get manifest "enabled" (JBool true) ;;
      if negb (truthy enabled) then Return None
      else
        plugin <- _load_plugin_module now plugin_path plugin_name folder ;;
        _ <- on_load plugin ;;
        Return (Some (plugin, manifest))
  end.

(** The two assignments that end [load_plugin]. *)
Definition register (plugin_name : string) (found : option (PluginInterface * json))
    (self : PluginLoader) : PluginLoader :=
  match found with
  | Some (plugin, manifest) =>
      mkLoader (plugins_dir self)
        (dict_set plugin_name plugin (loaded_plugins self))
        (dict_set plugin_name manifest (plugin_manifests self))
  | None => self
  end.

(** The names [load_all_plugins] tries to load, in the order of the listing. *)
Definition candidates (entries : list dir_entry) : list string :=
  map entry_name
    (filter (fun d => entry_is_dir d && negb (is_special (entry_name d))) entries).

(** The entries of a registry under a name are the same in two states. *)
Definition same_entry (name : string) (self self' : PluginLoader) : Prop :=
  get_plugin self' name = get_plugin self name
  /\ get_plugin_manifest self' name = get_plugin_manifest self name.

(** A [PyFormat] to run examples on: Python's text of a string, an integer,
    a boolean and [None]; the other values do not occur in the examples. *)
Definition text_format (v : json) : string :=
  match v with
  | JStr s => s
  | JInt n => NilEmpty.string_of_int (Z.to_int n)
  | JBool true => "True"
  | JBool false => "False"
  | JNull => "None"
  | _ => ""
  end.

Definition text_py_format : PyFormat :=
  Build_PyFormat text_format (fun s => eq_refl).

Section MoreSamples.

(** A manifest that is not enabled, as the template's is, in a folder
    without handler. *)
Definition example_manifest : json :=
  JObj [ ("name", JStr "example"); ("version", JStr "1.0.0");
         ("description", JStr "Example plugin template");
         ("triggers", JArr [JStr "example"; JStr "test"]);
         ("intents", JArr [JStr "example_action"]);
         ("enabled", JBool false) ].

Definition example_folder : plugin_folder :=
  mkFolder (Some (Return example_manifest)) None.

Definition extended_fs : filesystem :=
  fun path =>
    if path =? "plugins/example" then Some example_folder else sample_fs path.

(** A plugins directory: a file, the template, and four plugin folders. *)
Definition sample_listing : list dir_entry :=
  [ mkEntry "README.md" false; mkEntry "_template" true; mkEntry "blank" true;
    mkEntry "example" true; mkEntry "ghost" true; mkEntry "weather" true ].

(** A plugins directory whose second folder has a failing [on_load]. *)
Definition unlucky_listing : list dir_entry :=
  [ mkEntry "weather" true; mkEntry "moody" true; mkEntry "blank" true ].

(** An extension whose [on_unload] fails. *)
Definition clingy : PluginInterface :=
  mkPlugin (fun intent params => (Return JNull, params))
    "" JNull (Return tt) (Raise runtime_error) (Return true).

Definition weather_loader : PluginLoader :=
  mkLoader "plugins" [("weather", weather)] [("weather", weather_manifest)].

Definition clingy_loader : PluginLoader :=
  mkLoader "plugins"
    [("weather", weather); ("clingy", clingy); ("moody", moody)]
    [("weather", weather_manifest); ("clingy", weather_manifest);
     ("moody", weather_manifest)].

(** The dump of a configuration with one secret set and one left empty. *)
Definition sample_dump : dict json :=
  [ ("server_port", JInt 8000); ("openweather_api_key", JStr "k-123");
    ("google_client_secret", JStr ""); ("log_level", JStr "INFO") ].
End MoreSamples.

(* ================================================================== *)
(** * Facts about the embedding                                        *)
(* ================================================================== *)

Section DictFacts.
Variable V : Type.

Lemma dict_get_set_same (k : string) (v : V) (d : dict V) :
  dict_get k (dict_set k v d) = Some v.
Proof.
  induction d as [|[k' v'] rest IH]; simpl.
  - now rewrite String.eqb_refl.
  - destruct (k =? k') eqn:E; simpl.
    + now rewrite String.eqb_refl.
    + now rewrite E.
Qed.

Lemma dict_get_set_other (k k' : string) (v : V) (d : dict V) :
  k <> k' -> dict_get k (dict_set k' v d) = dict_get k d.
Proof.
  intros Hne. induction d as [|[k0 v0] rest IH]; simpl.
  - apply String.eqb_neq in Hne. now rewrite Hne.
  - destruct (k' =? k0) eqn:E; simpl.
    + apply String.eqb_eq in E. subst k0.
      apply String.eqb_neq in Hne. now rewrite Hne.
    + now rewrite IH.
Qed.

Lemma dict_get_None (k : string) (d : dict V) :
  dict_get k d = None <-> ~ In k (keys d).
Proof.
  induction d as [|[k0 v0] rest IH]; simpl.
  - tauto.
  - destruct (k =? k0) eqn:E.
    + apply String.eqb_eq in E. subst. split; [discriminate | tauto].
    + apply String.eqb_neq in E. rewrite IH. split.
      * intros Hn [Heq | Hin]; [congruence | tauto].
      * tauto.
Qed.
End DictFacts.

(** Closes [c = Raise e -> is_Exception e = true] once [c] is a value. *)
Ltac raised :=
  let Heq := fresh "Heq" in
  intros Heq; inversion Heq; reflexivity.

(** The faults of the library calls of [from_dict]. *)
Create HintDb raises.

(** The time-to-live of a context is never zero, and it is positive unless
    the constructor was given a negative one: the setting it falls back on
    is at least 3600. *)
Lemma init_ttl_seconds_sign (given : option Z) (redis_ttl_seconds : Z) :
  (3600 <= redis_ttl_seconds)%Z ->
  init_ttl_seconds given redis_ttl_seconds <> 0%Z
  /\ ((0 < init_ttl_seconds given redis_ttl_seconds)%Z
      <-> forall n, given = Some n -> (0 <= n)%Z).
Proof.
  intros Hsetting. unfold init_ttl_seconds.
  destruct given as [n|].
  - destruct (Z.eqb_spec n 0) as [-> | Hn].
    + split; [lia|]. split; [|lia]. intros _ n Heq. inversion Heq. lia.
    + split; [exact Hn|]. split.
      * intros Hpos k Heq. inversion Heq. lia.
      * intros Hall. specialize (Hall n eq_refl). lia.
  - split; [lia|]. split; [|lia]. intros _ n Heq. discriminate Heq.
Qed.

Section StoreFacts.
Context `{IsoFormat}.
Variable ttl_seconds : Z.

Lemma json_loads_raises_Exception (msg_json : raw) (e : exn) :
  json_loads msg_json = Raise e -> is_Exception e = true.
Proof. destruct msg_json; simpl; raised. Qed.

Lemma getitem_raises_Exception (data : json) (key : string) (e : exn) :
  getitem data key = Raise e -> is_Exception e = true.
Proof.
  unfold getitem. destruct data; try raised.
  destruct (dict_get key fields); raised.
Qed.

Lemma py_get_raises_Exception (data : json) (key : string) (default : json) (e : exn) :
  py_get data key default = Raise e -> is_Exception e = true.
Proof.
  unfold py_get. destruct data; try raised.
  destruct (dict_get key fields); discriminate.
Qed.

Lemma fromisoformat_raises_Exception (x : json) (e : exn) :
  datetime_fromisoformat x = Raise e -> is_Exception e = true.
Proof.
  unfold datetime_fromisoformat. destruct x; try raised.
  destruct (fromisoformat s); raised.
Qed.

#[local] Hint Resolve json_loads_raises_Exception getitem_raises_Exception
  py_get_raises_Exception fromisoformat_raises_Exception : raises.

Lemma bind_raises {A B} (c : outcome A) (k : A -> outcome B) (e : exn) :
  bind c k = Raise e ->
  c = Raise e \/ exists a, c = Return a /\ k a = Raise e.
Proof.
  destruct c as [a|e0]; simpl; intros Heq.
  - right. now exists a.
  - left. now inversion Heq.
Qed.

Lemma from_dict_raises_Exception (data : json) (e : exn) :
  from_dict data = Raise e -> is_Exception e = true.
Proof.
  unfold from_dict. intros Heq.
  repeat match type of Heq with
         | bind _ _ = Raise _ =>
             apply bind_raises in Heq; destruct Heq as [Heq | [? [_ Heq]]]
         end;
    eauto with raises.
  discriminate.
Qed.

Lemma decode_raises_Exception (msg_json : raw) (e : exn) :
  decode msg_json = Raise e -> is_Exception e = true.
Proof.
  unfold decode. intros Heq. apply bind_raises in Heq.
  destruct Heq as [Heq | [? [_ Heq]]];
    eauto using from_dict_raises_Exception with raises.
Qed.

(** A record [to_dict] wrote reads back as the message it was made from,
    [metadata] as stored. *)
Lemma decode_written (message : Message) :
  decode (json_dumps (to_dict message)) = Return (stored message).
Proof.
  unfold decode, json_dumps, to_dict, from_dict. simpl.
  now rewrite fromisoformat_isoformat.
Qed.

Lemma py_or_idempotent (x y : json) : py_or (py_or x y) y = py_or x y.
Proof.
  unfold py_or. destruct (truthy x) eqn:E.
  - now rewrite E.
  - now destruct (truthy y).
Qed.

Lemma stored_idempotent (message : Message) :
  stored (stored message) = stored message.
Proof.
  unfold stored. simpl. now rewrite py_or_idempotent.
Qed.

Lemma stored_timestamp (message : Message) :
  timestamp (stored message) = timestamp message.
Proof. reflexivity. Qed.

Lemma stored_messages_app (log1 log2 : list raw) :
  stored_messages (log1 ++ log2) = stored_messages log1 ++ stored_messages log2.
Proof. unfold stored_messages. apply flat_map_app. Qed.

Lemma stored_messages_written (messages : list Message) :
  stored_messages (map (fun msg => json_dumps (to_dict msg)) messages)
  = map stored messages.
Proof.
  induction messages as [|m rest IH]; simpl; [reflexivity|].
  rewrite decode_written. simpl. now rewrite <- IH.
Qed.

(** The messages of a log of written records are in their stored form. *)
Lemma stored_messages_of_written (log : list raw) :
  Forall written log ->
  map stored (stored_messages log) = stored_messages log.
Proof.
  induction 1 as [|s rest [m Hm] _ IH]; simpl; [reflexivity|].
  subst s. rewrite decode_written. simpl.
  now rewrite stored_idempotent, IH.
Qed.

(** ** Reading the list *)

Lemma first_undecodable_app (log1 log2 : list raw) :
  first_undecodable (log1 ++ log2)
  = match first_undecodable log1 with
    | Some reason => Some reason
    | None => first_undecodable log2
    end.
Proof.
  induction log1 as [|s rest IH]; simpl; [reflexivity|].
  destruct s; [reflexivity | exact IH | exact IH].
Qed.

Lemma first_undecodable_written (messages : list Message) :
  first_undecodable (map (fun msg => json_dumps (to_dict msg)) messages) = None.
Proof. induction messages as [|m rest IH]; simpl; [reflexivity | exact IH]. Qed.

Lemma first_undecodable_all_written (log : list raw) :
  Forall written log -> first_undecodable log = None.
Proof.
  induction 1 as [|s rest [m ->] _ IH]; simpl; [reflexivity | exact IH].
Qed.

Lemma decode_responses_spec (log : list raw) :
  decode_responses log
  = match first_undecodable log with
    | None => Return log
    | Some reason => Raise (Py UnicodeDecodeError (Str reason))
    end.
Proof.
  induction log as [|s rest IH]; simpl; [reflexivity|].
  destruct s; [reflexivity | |]; rewrite IH;
    now destruct (first_undecodable rest).
Qed.

(** One turn of the loop of [get_messages]. *)
Lemma read_one_spec (since : option datetime) (msg_json : raw)
    (messages : list Message) :
  read_one since msg_json messages
  = Return (messages ++ filter (not_before since) (stored_messages [msg_json])).
Proof.
  unfold read_one, try_except_Exception, try_except, stored_messages, decode.
  destruct msg_json as [reason|text|value]; simpl.
  - now rewrite app_nil_r.
  - now rewrite app_nil_r.
  - destruct (from_dict value) as [m|e] eqn:E; simpl.
    + destruct since as [since|]; simpl; [|reflexivity].
      unfold datetime_lt, at_or_after.
      destruct (comparable (timestamp m) since); simpl.
      * rewrite (Z.leb_antisym (instant (timestamp m)) (instant since)).
        destruct (instant (timestamp m) <? instant since)%Z; simpl;
          [now rewrite app_nil_r | reflexivity].
      * now rewrite app_nil_r.
    + rewrite (from_dict_raises_Exception _ E). now rewrite app_nil_r.
Qed.

Lemma read_loop_spec (since : option datetime) (messages_json : list raw) :
  forall messages,
    read_loop since messages_json messages
    = Return (messages ++ filter (not_before since) (stored_messages messages_json)).
Proof.
  induction messages_json as [|s rest IH]; intros messages; simpl.
  - now rewrite app_nil_r.
  - rewrite read_one_spec. simpl. rewrite IH.
    rewrite app_nil_r, <- app_assoc, filter_app. reflexivity.
Qed.

(** [get_messages] on any log: it fails at an element that is no text and
    otherwise returns the messages that pass its filter and its limit;
    either way it leaves the log as it was. *)
Lemma get_messages_spec (now : Z) (limit : option Z)
    (since : option datetime) (r : redis) :
  get_messages now limit since r
  = match first_undecodable (items r) with
    | None =>
        (Return (apply_limit limit
                   (filter (not_before since) (stored_messages (items r)))), r)
    | Some reason => (Raise (read_fault now limit reason), r)
    end.
Proof.
  unfold get_messages, mtry, mbind, lrange_all, lift, ret.
  rewrite decode_responses_spec.
  destruct (first_undecodable (items r)) as [reason|]; [reflexivity|].
  now rewrite read_loop_spec.
Qed.

Lemma filter_not_before_None (messages : list Message) :
  filter (not_before None) messages = messages.
Proof. unfold not_before. apply filter_true. Qed.

(** [get_messages()] on a log of text: every message of the log. *)
Lemma get_messages_all (now : Z) (r : redis) :
  first_undecodable (items r) = None ->
  get_messages now None None r = (Return (stored_messages (items r)), r).
Proof.
  intros Htext. rewrite get_messages_spec, Htext. unfold apply_limit.
  now rewrite filter_not_before_None.
Qed.

(** ** The commands *)

Lemma EXPIRE_positive (seconds : Z) (r : redis) :
  (0 < seconds)%Z ->
  EXPIRE seconds r
  = match items r with
    | [] => r
    | _ :: _ => mkRedis (items r) (Some seconds)
    end.
Proof.
  intros Hpos. unfold EXPIRE. destruct (items r); [reflexivity|].
  assert (E : (seconds <=? 0)%Z = false) by (apply Z.leb_gt; lia).
  now rewrite E.
Qed.

Lemma items_EXPIRE (seconds : Z) (r : redis) :
  (0 < seconds)%Z -> items (EXPIRE seconds r) = items r.
Proof.
  intros Hpos. rewrite EXPIRE_positive by exact Hpos.
  destruct r as [[|s log] t]; reflexivity.
Qed.

(** With a timeout of zero or less, [EXPIRE] leaves no list. *)
Lemma items_EXPIRE_nonpositive (seconds : Z) (r : redis) :
  (seconds <= 0)%Z -> items (EXPIRE seconds r) = [].
Proof.
  intros Hneg. unfold EXPIRE. destruct (items r) eqn:E; [exact E|].
  assert (E' : (seconds <=? 0)%Z = true) by (apply Z.leb_le; lia).
  now rewrite E'.
Qed.

Lemma EXPIRE_pushed_positive (seconds : Z) (s : raw) (log : list raw)
    (r : redis) :
  (0 < seconds)%Z ->
  EXPIRE seconds (RPUSH (s :: log) r) = mkRedis (items r ++ s :: log) (Some seconds).
Proof.
  intros Hpos. rewrite EXPIRE_positive by exact Hpos. unfold RPUSH. cbn [items].
  now destruct (items r).
Qed.

Lemma EXPIRE_pushed_nonpositive (seconds : Z) (s : raw) (log : list raw)
    (r : redis) :
  (seconds <= 0)%Z -> EXPIRE seconds (RPUSH (s :: log) r) = mkRedis [] None.
Proof.
  intros Hneg. unfold EXPIRE, RPUSH. cbn [items].
  assert (E' : (seconds <=? 0)%Z = true) by (apply Z.leb_le; lia).
  destruct (items r ++ s :: log) eqn:E; [|now rewrite E'].
  now destruct (items r).
Qed.

(** ** [add_message] *)

Lemma add_message_spec (now : Z) (role content : string)
    (client_id : option string) (metadata : option (dict json)) (r : redis) :
  add_message ttl_seconds now role content client_id
    (option_map Accepted metadata) r
  = (Return tt,
     EXPIRE ttl_seconds
       (RPUSH [json_dumps (to_dict (new_message now role content client_id metadata))]
              r)).
Proof. destruct metadata; reflexivity. Qed.

(** Under a positive time-to-live the record is at the tail of the log. *)
Lemma add_message_positive (now : Z) (role content : string)
    (client_id : option string) (metadata : option (dict json)) (r : redis) :
  (0 < ttl_seconds)%Z ->
  add_message ttl_seconds now role content client_id
    (option_map Accepted metadata) r
  = (Return tt,
     mkRedis (items r
                ++ [json_dumps (to_dict (new_message now role content client_id
                                                     metadata))])
             (Some ttl_seconds)).
Proof.
  intros Hpos. rewrite add_message_spec, EXPIRE_positive by exact Hpos.
  unfold RPUSH. cbn [items]. now destruct (items r).
Qed.

(** Under a time-to-live of zero or less the key is gone. *)
Lemma add_message_nonpositive (now : Z) (role content : string)
    (client_id : option string) (metadata : option (dict json)) (r : redis) :
  (ttl_seconds <= 0)%Z ->
  add_message ttl_seconds now role content client_id
    (option_map Accepted metadata) r
  = (Return tt, mkRedis [] None).
Proof.
  intros Hneg. rewrite add_message_spec.
  now rewrite (EXPIRE_pushed_nonpositive _ [] r Hneg).
Qed.

(** A metadata [json.dumps] refuses: nothing is sent to the server. *)
Lemma add_message_refused (now : Z) (role content : string)
    (client_id : option string) (cls : pyclass) (text : string) (r : redis) :
  is_Exception (Py cls (Str text)) = true ->
  add_message ttl_seconds now role content client_id (Some (Refused cls text)) r
  = (Raise (add_fault now role content cls text), r).
Proof.
  intros Hexc. unfold add_message, mtry, mbind, lift. cbn [dumps_new_message].
  unfold except_as_ContextError. cbn [existsb is_instance orb].
  rewrite Hexc. reflexivity.
Qed.

Lemma stored_messages_one (message : Message) :
  stored_messages [json_dumps (to_dict message)] = [stored message].
Proof. unfold stored_messages. simpl. now rewrite decode_written. Qed.

(** ** The filter of [prune_old_messages] *)

Lemma keep_from_spec (before : datetime) (messages : list Message) :
  keep_from before messages
  = if all_comparable before messages
    then Return (filter (at_or_after before) messages)
    else Raise naive_and_aware.
Proof.
  induction messages as [|m rest IH]; simpl; [reflexivity|].
  unfold datetime_ge, at_or_after.
  destruct (comparable (timestamp m) before); simpl; [|reflexivity].
  rewrite IH. destruct (all_comparable before rest); simpl; [|reflexivity].
  now destruct (instant before <=? instant (timestamp m))%Z.
Qed.

(** Where every timestamp compares with [t], a message is at or after [t]
    or earlier than it by its instant alone. *)
Lemma filter_at_or_after (t : datetime) (messages : list Message) :
  all_comparable t messages = true ->
  filter (at_or_after t) messages
  = filter (fun m => (instant t <=? instant (timestamp m))%Z) messages.
Proof.
  induction messages as [|m rest IH]; simpl; [reflexivity|].
  intros Hall. apply andb_prop in Hall. destruct Hall as [Hm Hrest].
  unfold at_or_after at 1. rewrite Hm, (IH Hrest). reflexivity.
Qed.

Lemma filter_earlier_than (t : datetime) (messages : list Message) :
  all_comparable t messages = true ->
  filter (earlier_than t) messages
  = filter (fun m => negb (at_or_after t m)) messages.
Proof.
  induction messages as [|m rest IH]; simpl; [reflexivity|].
  intros Hall. apply andb_prop in Hall. destruct Hall as [Hm Hrest].
  unfold earlier_than at 1, at_or_after at 1. rewrite Hm, (IH Hrest).
  cbn [andb]. now rewrite Z.leb_antisym, negb_involutive.
Qed.

Lemma all_comparable_filter (t : datetime) (p : Message -> bool)
    (messages : list Message) :
  all_comparable t messages = true -> all_comparable t (filter p messages) = true.
Proof.
  induction messages as [|m rest IH]; simpl; [reflexivity|].
  intros Hall. apply andb_prop in Hall. destruct Hall as [Hm Hrest].
  destruct (p m); simpl; [rewrite Hm|]; now apply IH.
Qed.

Lemma all_comparable_stored (t : datetime) (messages : list Message) :
  all_comparable t (map stored messages) = all_comparable t messages.
Proof.
  induction messages as [|m rest IH]; simpl; [reflexivity | now rewrite IH].
Qed.

(** [prune_old_messages] on any log. *)
Lemma prune_old_messages_spec (now : Z) (before : datetime) (r : redis) :
  let messages := stored_messages (items r) in
  let messages_to_keep := filter (at_or_after before) messages in
  prune_old_messages ttl_seconds now before r
  = match first_undecodable (items r) with
    | Some reason => (Raise (read_fault now None reason), r)
    | None =>
        if all_comparable before messages
        then (Return (deleted_count messages messages_to_keep),
              rewritten ttl_seconds messages_to_keep)
        else (Raise (prune_fault now before), r)
    end.
Proof.
  intros messages messages_to_keep.
  unfold prune_old_messages, mtry, mbind.
  rewrite get_messages_spec.
  destruct (first_undecodable (items r)) as [reason|]; [reflexivity|].
  unfold apply_limit. rewrite filter_not_before_None. fold messages.
  unfold lift. rewrite keep_from_spec.
  destruct (all_comparable before messages); [|reflexivity].
  fold messages_to_keep.
  unfold delete, rpush, expire, ret, deleted_count, rewritten.
  destruct messages_to_keep as [|m rest]; reflexivity.
Qed.

Lemma rewritten_positive (messages_to_keep : list Message) :
  (0 < ttl_seconds)%Z ->
  rewritten ttl_seconds messages_to_keep
  = mkRedis (map (fun msg => json_dumps (to_dict msg)) messages_to_keep)
            (match messages_to_keep with
             | [] => None
             | _ :: _ => Some ttl_seconds
             end).
Proof.
  intros Hpos. unfold rewritten. destruct messages_to_keep as [|m rest];
    [reflexivity|].
  now rewrite EXPIRE_positive by exact Hpos.
Qed.

Lemma rewritten_nonpositive (messages_to_keep : list Message) :
  (ttl_seconds <= 0)%Z -> rewritten ttl_seconds messages_to_keep = mkRedis [] None.
Proof.
  intros Hneg. unfold rewritten. destruct messages_to_keep as [|m rest];
    [reflexivity|].
  exact (EXPIRE_pushed_nonpositive _ _ (mkRedis [] None) Hneg).
Qed.

(** The records of a log: those that parse, and those that are text and
    do not. *)
Lemma length_stored_corrupted (log : list raw) :
  first_undecodable log = None ->
  length log = (length (stored_messages log) + length (filter corrupted log))%nat.
Proof.
  induction log as [|s rest IH]; [reflexivity|].
  intros Htext.
  change (stored_messages (s :: rest))
    with ((match decode s with Return m => [m] | Raise _ => [] end)
            ++ stored_messages rest).
  cbn [filter].
  destruct s as [reason|text|value]; [discriminate | |];
    cbn [first_undecodable] in Htext; specialize (IH Htext).
  - change (corrupted (NotJson text)) with true.
    change (decode (NotJson text))
      with (Raise (A := Message) (Py JSONDecodeError (Str "Expecting value"))).
    cbn [app length]. lia.
  - change (corrupted (JsonText value))
      with (match decode (JsonText value) with
            | Return _ => false
            | Raise _ => true
            end).
    destruct (decode (JsonText value)); cbn [app length]; lia.
Qed.
End StoreFacts.

Section PruneFacts.
Context `{IsoFormat}.
Variable ttl_seconds : Z.
Variable now : Z.
Variable before : datetime.

Lemma prune_fails_read_fault (limit : option Z) (reason : string) (r : redis) :
  prune_fails now before (read_fault now limit reason) r
  = (Finished (Raise (read_fault now limit reason)), r).
Proof. reflexivity. Qed.

Lemma prune_fails_naive_and_aware (r : redis) :
  prune_fails now before naive_and_aware r
  = (Finished (Raise (prune_fault now before)), r).
Proof. reflexivity. Qed.

(** The first step of the pruning coroutine: its read. *)
Lemma prune_step_read (r : redis) :
  prune_step ttl_seconds now before AtRead r
  = match first_undecodable (items r) with
    | Some reason => (Finished (Raise (read_fault now None reason)), r)
    | None => (AtDelete (stored_messages (items r)), r)
    end.
Proof.
  unfold prune_step. rewrite get_messages_spec.
  destruct (first_undecodable (items r)) as [reason|]; [reflexivity|].
  unfold apply_limit. now rewrite filter_not_before_None.
Qed.

(** Its second step: the filter, and the delete when the filter returns. *)
Lemma prune_step_delete (messages : list Message) (r : redis) :
  prune_step ttl_seconds now before (AtDelete messages) r
  = if all_comparable before messages
    then match filter (at_or_after before) messages with
         | [] => (Finished (Return (deleted_count messages [])), DEL r)
         | msg :: rest => (AtRpush messages (msg :: rest), DEL r)
         end
    else (Finished (Raise (prune_fault now before)), r).
Proof.
  unfold prune_step. rewrite keep_from_spec.
  now destruct (all_comparable before messages).
Qed.

Lemma run_cons (ev : event) (schedule : list event) (st : prune_pc * redis) :
  run ttl_seconds now before (ev :: schedule) st
  = run ttl_seconds now before schedule (step ttl_seconds now before ev st).
Proof. reflexivity. Qed.

(** Left alone, the machine of [prune_step] is [prune_old_messages]. *)
Lemma prune_steps_sequential (r : redis) :
  run ttl_seconds now before [Prune; Prune; Prune; Prune] (AtRead, r)
  = (Finished (fst (prune_old_messages ttl_seconds now before r)),
     snd (prune_old_messages ttl_seconds now before r)).
Proof.
  rewrite prune_old_messages_spec. cbv zeta.
  rewrite run_cons. unfold step at 1. cbn [fst snd]. rewrite prune_step_read.
  destruct (first_undecodable (items r)) as [reason|]; [reflexivity|].
  rewrite run_cons. unfold step at 1. cbn [fst snd]. rewrite prune_step_delete.
  destruct (all_comparable before (stored_messages (items r))); [|reflexivity].
  destruct (filter (at_or_after before) (stored_messages (items r)))
    as [|m rest]; reflexivity.
Qed.

Lemma run_app (s1 s2 : list event) (st : prune_pc * redis) :
  run ttl_seconds now before (s1 ++ s2) st
  = run ttl_seconds now before s2 (run ttl_seconds now before s1 st).
Proof. unfold run. apply fold_left_app. Qed.

Lemma pushed_app (cmds1 cmds2 : list append_cmd) :
  pushed (cmds1 ++ cmds2) = pushed cmds1 ++ pushed cmds2.
Proof. unfold pushed. apply flat_map_app. Qed.

Lemma first_undecodable_pushed (cmds : list append_cmd) :
  first_undecodable (pushed cmds) = None.
Proof.
  induction cmds as [|[m|] rest IH]; simpl; [reflexivity | exact IH | exact IH].
Qed.

Lemma appends_of_app (s1 s2 : list event) :
  appends_of (s1 ++ s2) = appends_of s1 ++ appends_of s2.
Proof. unfold appends_of. apply flat_map_app. Qed.

Lemma appends_of_Append (cmds : list append_cmd) :
  appends_of (map Append cmds) = cmds.
Proof.
  induction cmds as [|c rest IH]; simpl; [reflexivity | now rewrite IH].
Qed.

Lemma In_pushed (message : Message) (cmds : list append_cmd) :
  In (Push message) cmds -> In (json_dumps (to_dict message)) (pushed cmds).
Proof.
  intros Hin. unfold pushed. apply in_flat_map.
  exists (Push message). split; [exact Hin | now left].
Qed.

(** Under a positive time-to-live, a stretch of appends moves the pruning
    coroutine nowhere and adds what it pushes at the tail of the log. *)
Lemma run_appends (cmds : list append_cmd) :
  (0 < ttl_seconds)%Z ->
  forall (pc : prune_pc) (r : redis),
  exists r',
    run ttl_seconds now before (map Append cmds) (pc, r) = (pc, r')
    /\ items r' = items r ++ pushed cmds.
Proof.
  intros Hpos. induction cmds as [|c rest IH]; intros pc r; simpl.
  - exists r. now rewrite app_nil_r.
  - destruct (IH pc (append_step ttl_seconds c r)) as [r' [Hrun Hitems]].
    exists r'. split.
    + exact Hrun.
    + rewrite Hitems. destruct c; simpl.
      * now rewrite <- app_assoc.
      * now rewrite items_EXPIRE.
Qed.

(** Once the pruning coroutine has ended, the schedule only appends. *)
Lemma run_finished (schedule : list event) :
  (0 < ttl_seconds)%Z ->
  forall (result : outcome Z) (r : redis),
  exists r',
    run ttl_seconds now before schedule (Finished result, r) = (Finished result, r')
    /\ items r' = items r ++ pushed (appends_of schedule).
Proof.
  intros Hpos. induction schedule as [|ev rest IH]; intros result r.
  - exists r. split; [reflexivity | now rewrite app_nil_r].
  - rewrite run_cons. destruct ev as [|c].
    + cbn [step fst snd prune_step]. apply IH.
    + cbn [step fst snd].
      destruct (IH result (append_step ttl_seconds c r)) as [r' [Hrun Hitems]].
      exists r'. split; [exact Hrun|]. rewrite Hitems.
      destruct c; cbn [append_step appends_of flat_map app pushed].
      * unfold RPUSH. cbn [items]. now rewrite <- app_assoc.
      * now rewrite items_EXPIRE.
Qed.
End PruneFacts.

Section OrderFacts.
Variable A : Type.
Variable R : A -> A -> Prop.

Lemma StronglySorted_filter (p : A -> bool) (l : list A) :
  StronglySorted R l -> StronglySorted R (filter p l).
Proof.
  induction 1 as [|a l _ IH Hall]; simpl; [constructor|].
  destruct (p a); [|exact IH].
  constructor; [exact IH|].
  rewrite Forall_forall in *. intros x Hx.
  apply filter_In in Hx. now apply Hall.
Qed.

Lemma StronglySorted_skipn (n : nat) :
  forall l : list A, StronglySorted R l -> StronglySorted R (skipn n l).
Proof.
  induction n as [|n IH]; intros l Hl; simpl; [exact Hl|].
  destruct l as [|a l]; [constructor|].
  apply IH. now inversion Hl.
Qed.

Lemma map_fixed_filter (f : A -> A) (p : A -> bool) (l : list A) :
  map f l = l -> map f (filter p l) = filter p l.
Proof.
  induction l as [|a l IH]; simpl; [reflexivity|].
  intros Heq. inversion Heq as [[Ha Hl]]. rewrite Ha, Hl.
  destruct (p a); simpl; rewrite (IH Hl); congruence.
Qed.
End OrderFacts.

Section ContextStore.
Context `{IsoFormat}.
Variable ttl_seconds : Z.

Lemma length_filter_split {A} (p : A -> bool) (l : list A) :
  length l = (length (filter (fun x => negb (p x)) l) + length (filter p l))%nat.
Proof.
  induction l as [|a l IH]; simpl; [reflexivity|].
  destruct (p a); simpl; lia.
Qed.

Lemma written_map_dumps (messages : list Message) :
  Forall written (map (fun m => json_dumps (to_dict m)) messages).
Proof.
  apply Forall_forall. intros s Hs. apply in_map_iff in Hs.
  destruct Hs as [m [Hm _]]. exists m. now symmetry.
Qed.

(** C4, as the code has it.  On a log whose records are all text and
    whose messages all have a timestamp that compares with the cutoff
    [before], [prune_old_messages] returns the number of messages strictly
    earlier than [before].  Under a positive time-to-live the log is then
    the records of the messages at or after [before], in their order, each
    rewritten through [to_dict] (read back as [stored], which for a log the
    store wrote itself is the message unchanged); the records that did not
    parse are gone with the earlier messages and are not in the count.
    Under a time-to-live of zero or less nothing is left.  When a timestamp
    does not compare with [before], or a record is no text, the prune
    raises a [ContextError] and leaves the log as it was. *)
Theorem prune_removes_strictly_earlier (now : Z) (before : datetime) (r : redis) :
  let messages := stored_messages (items r) in
  let earlier :=
    filter (fun m => (instant (timestamp m) <? instant before)%Z) messages in
  let kept :=
    filter (fun m => (instant before <=? instant (timestamp m))%Z) messages in
  (first_undecodable (items r) = None ->
   all_comparable before messages = true ->
   exists r',
     get_messages now None None r = (Return messages, r)
     /\ prune_old_messages ttl_seconds now before r
        = (Return (Z.of_nat (length earlier)), r')
     /\ ((0 < ttl_seconds)%Z ->
         items r' = map (fun m => json_dumps (to_dict m)) kept
         /\ ttl r' = match kept with [] => None | _ :: _ => Some ttl_seconds end
         /\ get_messages now None None r' = (Return (map stored kept), r')
         /\ (Forall written (items r) -> map stored kept = kept)
         /\ length (items r)
            = (length earlier + length (items r')
               + length (filter corrupted (items r)))%nat)
     /\ ((ttl_seconds <= 0)%Z -> r' = mkRedis [] None))
  /\ (first_undecodable (items r) = None ->
      all_comparable before messages = false ->
      prune_old_messages ttl_seconds now before r
      = (Raise (prune_fault now before), r))
  /\ (forall reason,
        first_undecodable (items r) = Some reason ->
        prune_old_messages ttl_seconds now before r
        = (Raise (read_fault now None reason), r)).
Proof.
  intros messages earlier kept.
  pose proof (prune_old_messages_spec ttl_seconds now before r) as Hprune.
  cbv zeta in Hprune. fold messages in Hprune.
  split; [|split].
  - intros Htext Hcmp. rewrite Htext, Hcmp in Hprune.
    rewrite (filter_at_or_after _ _ Hcmp) in Hprune. fold kept in Hprune.
    assert (Hlen : length messages = (length earlier + length kept)%nat).
    { unfold earlier, kept.
      rewrite (length_filter_split
                 (fun m => (instant before <=? instant (timestamp m))%Z) messages).
      f_equal. f_equal. apply filter_ext. intros m.
      now rewrite Z.leb_antisym, negb_involutive. }
    exists (rewritten ttl_seconds kept).
    split; [now apply get_messages_all|].
    split; [rewrite Hprune; unfold deleted_count; f_equal; f_equal; lia|].
    split.
    + intros Hpos. rewrite rewritten_positive by exact Hpos. cbn [items ttl].
      split; [reflexivity|]. split; [reflexivity|].
      split.
      { rewrite get_messages_all by apply first_undecodable_written.
        cbn [items]. now rewrite stored_messages_written. }
      split.
      { intros Hwritten. apply map_fixed_filter.
        now apply stored_messages_of_written. }
      rewrite length_map.
      rewrite (length_stored_corrupted (items r) Htext). fold messages. lia.
    + intros Hneg. now apply rewritten_nonpositive.
  - intros Htext Hcmp. now rewrite Htext, Hcmp in Hprune.
  - intros reason Hbad. now rewrite Hbad in Hprune.
Qed.

(** The round trip of the specification, under a positive time-to-live: a
    message appended to an empty log is what [get_messages(limit=1)] reads;
    pruning with a naive cutoff after its timestamp removes it, and the
    next read is empty. *)
Lemma append_read_prune_read (t now cutoff : Z) :
  (0 < ttl_seconds)%Z -> (t < cutoff)%Z ->
  let r1 := snd (add_message ttl_seconds t "user" "hello" None None (mkRedis [] None)) in
  let r2 := snd (prune_old_messages ttl_seconds now (Naive cutoff) r1) in
  fst (get_messages now (Some 1%Z) None r1)
  = Return [mkMessage (JStr "user") (JStr "hello") (Naive t) JNull (JObj [])]
  /\ fst (prune_old_messages ttl_seconds now (Naive cutoff) r1) = Return 1%Z
  /\ fst (get_messages now None None r2) = Return [].
Proof.
  intros Hpos Hlt r1 r2.
  assert (Hadd : r1 = mkRedis [json_dumps (to_dict (new_message t "user" "hello"
                                                               None None))]
                              (Some ttl_seconds)).
  { unfold r1.
    now rewrite (add_message_positive t "user" "hello" None None
                   (mkRedis [] None) Hpos). }
  assert (Hr1 : stored_messages (items r1)
                = [mkMessage (JStr "user") (JStr "hello") (Naive t) JNull (JObj [])]).
  { rewrite Hadd. cbn [items]. now rewrite stored_messages_one. }
  assert (Htext : first_undecodable (items r1) = None) by (now rewrite Hadd).
  assert (Hcut : (cutoff <=? t)%Z = false) by (apply Z.leb_gt; lia).
  assert (Hprune : prune_old_messages ttl_seconds now (Naive cutoff) r1
                   = (Return 1%Z, mkRedis [] None)).
  { rewrite prune_old_messages_spec. cbv zeta. rewrite Htext, Hr1.
    cbn. now rewrite Hcut. }
  split; [|split].
  - rewrite get_messages_spec, Htext, filter_not_before_None, Hr1. reflexivity.
  - now rewrite Hprune.
  - unfold r2. rewrite Hprune. reflexivity.
Qed.

Lemma chronological_last_n (n : Z) (messages : list Message) :
  chronological messages -> chronological (last_n n messages).
Proof. apply StronglySorted_skipn. Qed.

Lemma chronological_filter (p : Message -> bool) (messages : list Message) :
  chronological messages -> chronological (filter p messages).
Proof. apply StronglySorted_filter. Qed.

Lemma apply_limit_positive (n : Z) (messages : list Message) :
  (0 < n)%Z -> apply_limit (Some n) messages = last_n n messages.
Proof.
  intros Hn. unfold apply_limit.
  assert (Hnz : (n =? 0)%Z = false) by (apply Z.eqb_neq; lia).
  assert (Hpos : (0 <? n)%Z = true) by (apply Z.ltb_lt; lia).
  now rewrite Hnz, Hpos.
Qed.

Lemma apply_limit_ignored (n : Z) (messages : list Message) :
  (n <= 0)%Z -> apply_limit (Some n) messages = messages.
Proof.
  intros Hn. unfold apply_limit.
  destruct (n =? 0)%Z; simpl; [reflexivity|].
  assert (Hpos : (0 <? n)%Z = false) by (apply Z.ltb_ge; lia).
  now rewrite Hpos.
Qed.

(** C5, as the code has it.  On a log whose records are all text,
    [get_messages(since=s)] returns the messages whose timestamp compares
    with [s] and is at or after it, in the order of the log; a message
    whose timestamp does not compare with [s] is skipped.  With a positive
    [limit] as well it returns the last [limit] of them, order kept; a
    [limit] of zero or less changes nothing.  The result is in ascending
    chronological order when the messages of the log are.  A record that
    is no text makes the read raise a [ContextError].  In particular,
    three messages appended at [t1 < t2 < t3], under a positive
    time-to-live, to a log that holds none are read back from
    [since = t2] as the second and the third, in that order. *)
Theorem get_messages_since_limit (now : Z) (since : datetime) (n : Z) (r : redis) :
  (0 < n)%Z ->
  let messages := stored_messages (items r) in
  let recent := filter (at_or_after since) messages in
  (first_undecodable (items r) = None ->
   get_messages now None None r = (Return messages, r)
   /\ get_messages now None (Some since) r = (Return recent, r)
   /\ get_messages now (Some n) (Some since) r = (Return (last_n n recent), r)
   /\ forall k, (k <= 0)%Z ->
        get_messages now (Some k) (Some since) r = (Return recent, r))
  /\ (forall m,
        In m recent
        <-> In m messages
            /\ comparable (timestamp m) since = true
            /\ (instant since <= instant (timestamp m))%Z)
  /\ (chronological messages ->
      chronological recent /\ chronological (last_n n recent))
  /\ (forall reason limit,
        first_undecodable (items r) = Some reason ->
        get_messages now limit (Some since) r
        = (Raise (read_fault now limit reason), r))
  /\ (forall t1 t2 t3 role1 role2 role3 content1 content2 content3
             client1 client2 client3 meta1 meta2 meta3,
        first_undecodable (items r) = None -> messages = [] ->
        (0 < ttl_seconds)%Z -> (t1 < t2)%Z -> (t2 < t3)%Z ->
        let r1 := snd (add_message ttl_seconds t1 role1 content1 client1
                         (option_map Accepted meta1) r) in
        let r2 := snd (add_message ttl_seconds t2 role2 content2 client2
                         (option_map Accepted meta2) r1) in
        let r3 := snd (add_message ttl_seconds t3 role3 content3 client3
                         (option_map Accepted meta3) r2) in
        fst (get_messages now None (Some (utcnow t2)) r3)
        = Return [ appended t2 role2 content2 client2 meta2;
                   appended t3 role3 content3 client3 meta3 ]).
Proof.
  intros Hn messages recent.
  split; [|split; [|split; [|split]]].
  - intros Htext. split; [now apply get_messages_all|].
    split; [now rewrite get_messages_spec, Htext|].
    split; [now rewrite get_messages_spec, Htext, apply_limit_positive|].
    intros k Hk. now rewrite get_messages_spec, Htext, apply_limit_ignored.
  - intros m. unfold recent. rewrite filter_In. unfold at_or_after.
    rewrite andb_true_iff, Z.leb_le. tauto.
  - intros Hsorted. split.
    + now apply chronological_filter.
    + now apply chronological_last_n, chronological_filter.
  - intros reason limit Hbad. now rewrite get_messages_spec, Hbad.
  - intros t1 t2 t3 role1 role2 role3 content1 content2 content3
           client1 client2 client3 meta1 meta2 meta3 Htext Hempty Hpos H12 H23.
    repeat (rewrite add_message_positive by exact Hpos; cbn [snd items]).
    rewrite get_messages_spec. cbn [items].
    rewrite !first_undecodable_app, Htext. cbn [first_undecodable].
    rewrite !stored_messages_app. fold messages. rewrite Hempty.
    rewrite !stored_messages_one.
    cbn [app filter not_before fst apply_limit].
    unfold at_or_after. rewrite !stored_timestamp.
    cbn [new_message timestamp utcnow comparable aware instant Bool.eqb andb].
    assert (G1 : (t2 <=? t1)%Z = false) by (apply Z.leb_gt; lia).
    assert (G2 : (t2 <=? t2)%Z = true) by (apply Z.leb_le; lia).
    assert (G3 : (t2 <=? t3)%Z = true) by (apply Z.leb_le; lia).
    now rewrite G1, G2, G3.
Qed.


Lemma stored_messages_corrupted (record : raw) :
  corrupted record = true -> stored_messages [record] = [].
Proof.
  unfold corrupted, stored_messages. destruct record as [reason|text|value];
    [discriminate | reflexivity |].
  cbn [flat_map]. destruct (decode (JsonText value)); [discriminate | reflexivity].
Qed.

Lemma first_undecodable_text (pre post : list raw) (record : raw) :
  (forall reason, record <> NotUtf8 reason) ->
  first_undecodable (pre ++ record :: post) = first_undecodable (pre ++ post).
Proof.
  intros Htext. rewrite !first_undecodable_app.
  destruct (first_undecodable pre); [reflexivity|].
  destruct record as [reason|text|value]; [|reflexivity|reflexivity].
  now destruct (Htext reason).
Qed.

(** C10, as the code has it.  A record that is text and does not
    deserialize as a [Message], or whose timestamp does not pass the
    filter of [since] (it is earlier, or does not compare with it), is
    skipped: [get_messages] gives what it gives on the log without that
    record, which on a log of text is the messages of the other records
    in their order.  A record that is no UTF-8 text is not skipped: the
    client decodes the reply of [lrange] outside the loop's [try], and the
    read raises a [ContextError]. *)
Theorem get_messages_skips_corrupted (now : Z) (limit : option Z)
    (since : option datetime) (pre post : list raw) (record : raw)
    (expiry : option Z) :
  let damaged := mkRedis (pre ++ record :: post) expiry in
  let without := mkRedis (pre ++ post) expiry in
  ((corrupted record = true
    \/ exists message,
         decode record = Return message /\ not_before since message = false) ->
   get_messages now limit since damaged
   = (fst (get_messages now limit since without), damaged)
   /\ (first_undecodable (pre ++ post) = None ->
       get_messages now limit since damaged
       = (Return (apply_limit limit
                    (filter (not_before since)
                       (stored_messages pre ++ stored_messages post))),
          damaged)))
  /\ (forall reason,
        record = NotUtf8 reason ->
        exists reason',
          get_messages now limit since damaged
          = (Raise (read_fault now limit reason'), damaged)
          /\ (first_undecodable pre = None -> reason' = reason)).
Proof.
  intros damaged without. split.
  - intros Hskip.
    assert (Htext : forall reason, record <> NotUtf8 reason).
    { intros reason ->. destruct Hskip as [Hc | [m [Hm _]]]; discriminate. }
    assert (Hsame : filter (not_before since) (stored_messages (pre ++ record :: post))
                    = filter (not_before since)
                        (stored_messages pre ++ stored_messages post)).
    { change (pre ++ record :: post) with (pre ++ [record] ++ post).
      rewrite !stored_messages_app, !filter_app.
      destruct Hskip as [Hc | [m [Hm Hfilter]]].
      - now rewrite (stored_messages_corrupted _ Hc).
      - unfold stored_messages at 2. cbn [flat_map]. rewrite Hm.
        cbn [app filter]. now rewrite Hfilter. }
    assert (Hread : get_messages now limit since damaged
                    = (fst (get_messages now limit since without), damaged)).
    { rewrite !get_messages_spec. unfold damaged, without. cbn [items].
      rewrite (first_undecodable_text pre post Htext).
      destruct (first_undecodable (pre ++ post)); [reflexivity|].
      cbn [fst]. now rewrite Hsame, stored_messages_app. }
    split; [exact Hread|].
    intros Hall. rewrite Hread, get_messages_spec. unfold without. cbn [items].
    now rewrite Hall, stored_messages_app.
  - intros reason ->. rewrite get_messages_spec. unfold damaged. cbn [items].
    rewrite first_undecodable_app. cbn [first_undecodable].
    destruct (first_undecodable pre) as [reason'|].
    + exists reason'. split; [reflexivity | discriminate].
    + exists reason. split; reflexivity.
Qed.

(** On a log of text [get_messages] returns and leaves the log as it is. *)
Lemma get_messages_returns (now : Z) (limit : option Z)
    (since : option datetime) (r : redis) :
  first_undecodable (items r) = None ->
  exists messages, get_messages now limit since r = (Return messages, r).
Proof. intros Htext. eexists. now rewrite get_messages_spec, Htext. Qed.

(** C3, as the code has it.  [prune_old_messages] is not atomic with
    respect to a concurrent [add_message]: it reads the whole log, deletes
    the whole key and pushes back the messages it keeps, with no
    high-water mark.  Under a positive time-to-live, for every
    interleaving of one prune with appends, with [e0] the appends before
    its read, [e1] those between its read and its delete, [e2] those
    between its delete and its rewrite, [e3] and [e4] those after: when
    the read and the filter succeed, the prune counts and filters the log
    as its read found it, the final log is what [e2] pushed, then the kept
    messages, then what [e3] and [e4] pushed, so that a message appended
    after the delete is never lost, and nothing of what [e1] pushed is in
    it.  When the read or the filter fails, the prune raises its
    [ContextError] before it deletes anything and the final log holds
    every record. *)
Theorem prune_interleaved_with_appends (now : Z) (before : datetime) (r : redis)
    (e0 e1 e2 e3 e4 : list append_cmd) :
  (0 < ttl_seconds)%Z ->
  let schedule :=
    map Append e0 ++ Prune :: map Append e1 ++ Prune :: map Append e2
      ++ Prune :: map Append e3 ++ Prune :: map Append e4 in
  let log := items r ++ pushed e0 in
  let messages := stored_messages log in
  let messages_to_keep := filter (at_or_after before) messages in
  let final := run ttl_seconds now before schedule (AtRead, r) in
  (first_undecodable (items r) = None ->
   all_comparable before messages = true ->
   fst final = Finished (Return (deleted_count messages messages_to_keep))
   /\ items (snd final)
      = pushed e2
          ++ map (fun msg => json_dumps (to_dict msg)) messages_to_keep
          ++ pushed e3 ++ pushed e4
   /\ (forall message,
         In (Push message) (e2 ++ e3 ++ e4) ->
         In (json_dumps (to_dict message)) (items (snd final))))
  /\ (first_undecodable (items r) = None ->
      all_comparable before messages = false ->
      fst final = Finished (Raise (prune_fault now before))
      /\ items (snd final) = log ++ pushed (e1 ++ e2 ++ e3 ++ e4))
  /\ (forall reason,
        first_undecodable (items r) = Some reason ->
        fst final = Finished (Raise (read_fault now None reason))
        /\ items (snd final) = log ++ pushed (e1 ++ e2 ++ e3 ++ e4)).
Proof.
  intros Hpos schedule log messages messages_to_keep final.
  destruct (run_appends now before e0 Hpos AtRead r) as [r0 [R0 I0]].
  assert (Hfirst : first_undecodable (items r0) = first_undecodable (items r)).
  { rewrite I0, first_undecodable_app, first_undecodable_pushed.
    now destruct (first_undecodable (items r)). }
  (* the stretch after a prune that has ended *)
  assert (Hended :
    forall result r1 rest,
      appends_of rest = e2 ++ e3 ++ e4 ->
      items r1 = log ++ pushed e1 ->
      exists rf,
        run ttl_seconds now before rest (Finished result, r1) = (Finished result, rf)
        /\ items rf = log ++ pushed (e1 ++ e2 ++ e3 ++ e4)).
  { intros result r1 rest Hrest I1.
    destruct (run_finished now before rest Hpos result r1) as [rf [Rf If]].
    exists rf. split; [exact Rf|].
    rewrite If, I1, Hrest, (pushed_app e1 (e2 ++ e3 ++ e4)).
    now rewrite <- app_assoc. }
  assert (Hrest2 : appends_of (map Append e2 ++ Prune :: map Append e3
                                 ++ Prune :: map Append e4) = e2 ++ e3 ++ e4).
  { rewrite appends_of_app, appends_of_Append.
    change (Prune :: map Append e3 ++ Prune :: map Append e4)
      with ([Prune] ++ map Append e3 ++ [Prune] ++ map Append e4).
    now rewrite !appends_of_app, !appends_of_Append. }
  (* the schedule up to the second step of the prune *)
  assert (Hstart :
    forall reason, first_undecodable (items r) = Some reason ->
      exists rf, final = (Finished (Raise (read_fault now None reason)), rf)
                 /\ items rf = log ++ pushed (e1 ++ e2 ++ e3 ++ e4)).
  { intros reason Hbad. unfold final, schedule.
    rewrite run_app, R0, run_cons. unfold step at 1. cbn [fst snd].
    rewrite prune_step_read, Hfirst, Hbad.
    change (map Append e1 ++ Prune :: map Append e2 ++ Prune :: map Append e3
              ++ Prune :: map Append e4)
      with (map Append e1 ++ [Prune] ++ (map Append e2 ++ Prune :: map Append e3
              ++ Prune :: map Append e4)).
    destruct (run_finished now before
                (map Append e1 ++ [Prune] ++ (map Append e2 ++ Prune :: map Append e3
                   ++ Prune :: map Append e4))
                Hpos (Raise (read_fault now None reason)) r0) as [rf [Rf If]].
    exists rf. split; [exact Rf|].
    rewrite If, I0, (appends_of_app (map Append e1)), (appends_of_app [Prune]),
      appends_of_Append, Hrest2.
    cbn [appends_of flat_map app]. fold log. reflexivity. }
  split; [|split].
  - intros Htext Hcmp.
    assert (Hfinal :
      exists rf,
        final = (Finished (Return (deleted_count messages messages_to_keep)), rf)
        /\ items rf
           = pushed e2
               ++ map (fun msg => json_dumps (to_dict msg)) messages_to_keep
               ++ pushed e3 ++ pushed e4).
    { unfold final, schedule.
      rewrite run_app, R0, run_cons. unfold step at 1. cbn [fst snd].
      rewrite prune_step_read, Hfirst, Htext, I0. fold log. fold messages.
      rewrite run_app.
      destruct (run_appends now before e1 Hpos (AtDelete messages) r0)
        as [r1 [R1 _]].
      rewrite R1, run_cons. unfold step at 1. cbn [fst snd].
      rewrite prune_step_delete, Hcmp. fold messages_to_keep.
      destruct messages_to_keep as [|m keep] eqn:Hkeep.
      - rewrite run_app.
        destruct (run_appends now before e2 Hpos
                    (Finished (Return (deleted_count messages []))) (DEL r1))
          as [r2 [R2 I2]].
        rewrite R2, run_cons. unfold step at 1. cbn [fst snd prune_step].
        rewrite run_app.
        destruct (run_appends now before e3 Hpos
                    (Finished (Return (deleted_count messages []))) r2)
          as [r3 [R3 I3]].
        rewrite R3, run_cons. unfold step at 1. cbn [fst snd prune_step].
        destruct (run_appends now before e4 Hpos
                    (Finished (Return (deleted_count messages []))) r3)
          as [r4 [R4 I4]].
        rewrite R4. exists r4. split; [reflexivity|].
        rewrite I4, I3, I2. cbn [DEL items map app].
        now rewrite <- app_assoc.
      - rewrite run_app.
        destruct (run_appends now before e2 Hpos
                    (AtRpush messages (m :: keep)) (DEL r1))
          as [r2 [R2 I2]].
        rewrite R2, run_cons. unfold step at 1. cbn [fst snd prune_step].
        rewrite run_app.
        destruct (run_appends now before e3 Hpos
                    (AtExpire messages (m :: keep))
                    (RPUSH (map (fun msg => json_dumps (to_dict msg)) (m :: keep)) r2))
          as [r3 [R3 I3]].
        rewrite R3, run_cons. unfold step at 1. cbn [fst snd prune_step].
        destruct (run_appends now before e4 Hpos
                    (Finished (Return (deleted_count messages (m :: keep))))
                    (EXPIRE ttl_seconds r3))
          as [r4 [R4 I4]].
        rewrite R4. exists r4. split; [reflexivity|].
        rewrite I4, items_EXPIRE by exact Hpos. rewrite I3. unfold RPUSH.
        cbn [items]. rewrite I2. cbn [DEL items app].
        now rewrite <- !app_assoc. }
    destruct Hfinal as [rf [Hrun Hitems]]. rewrite Hrun. cbn [fst snd].
    split; [reflexivity|]. split; [exact Hitems|].
    intros message Hin. rewrite Hitems.
    apply in_app_or in Hin. destruct Hin as [Hin | Hin].
    + apply in_or_app. left. now apply In_pushed.
    + apply in_or_app. right. apply in_or_app. right.
      apply in_app_or in Hin. apply in_or_app.
      destruct Hin as [Hin | Hin]; [left | right]; now apply In_pushed.
  - intros Htext Hcmp.
    assert (Hfinal :
      exists rf, final = (Finished (Raise (prune_fault now before)), rf)
                 /\ items rf = log ++ pushed (e1 ++ e2 ++ e3 ++ e4)).
    { unfold final, schedule.
      rewrite run_app, R0, run_cons. unfold step at 1. cbn [fst snd].
      rewrite prune_step_read, Hfirst, Htext, I0. fold log. fold messages.
      rewrite run_app.
      destruct (run_appends now before e1 Hpos (AtDelete messages) r0)
        as [r1 [R1 I1]].
      rewrite R1, run_cons. unfold step at 1. cbn [fst snd].
      rewrite prune_step_delete, Hcmp.
      apply Hended; [exact Hrest2 | now rewrite I1, I0]. }
    destruct Hfinal as [rf [Hrun Hitems]]. rewrite Hrun. now split.
  - intros reason Hbad. destruct (Hstart reason Hbad) as [rf [Hrun Hitems]].
    rewrite Hrun. now split.
Qed.
End ContextStore.

(* ================================================================== *)
(** * The context store on concrete logs                               *)
(* ================================================================== *)

Section ContextStoreExamples.
#[local] Existing Instance decimal_iso.
Local Open Scope Z_scope.

(** C3 as stated fails.  The log holds the messages of times 1, 2 and 3
    and a prune with cutoff 2 starts; between its read and its delete
    another client appends [late]; the prune then deletes the key and
    pushes back what it had read and kept.  It reports one message
    removed, and [late], appended after the read and newer than the
    cutoff, is in the log no more. *)
Lemma prune_loses_concurrent_append :
  let schedule :=
    [Prune; Append (Push late); Append Expire; Prune; Prune; Prune] in
  let final := run 3600 20 (Naive 2) schedule (AtRead, log3) in
  at_or_after (Naive 2) late = true
  /\ fst final = Finished (Return 1%Z)
  /\ stored_messages (items (snd final)) = [message2; message3]
  /\ ~ In (json_dumps (to_dict late)) (items (snd final)).
Proof.
  cbv zeta. split; [reflexivity|].
  split; [vm_compute; reflexivity|].
  split; [vm_compute; reflexivity|].
  vm_compute. intros [Heq | [Heq | []]]; discriminate Heq.
Qed.

(** C4 as stated fails, in three ways.  With a cutoff that carries a
    zone, on the log the store wrote, the comparison raises: the prune
    raises a [ContextError], returns no count and removes nothing, the
    message of time 1 included.  On the damaged log the prune with cutoff
    2 removes three records and reports one.  With a time-to-live of -1
    the prune with cutoff 2 leaves nothing, the messages of times 2 and 3
    it was to retain included. *)
Lemma prune_raises_or_removes_more :
  (prune_old_messages 3600 20 (Aware 2) log3
   = (Raise (prune_fault 20 (Aware 2)), log3)
   /\ stored_messages (items log3) = [message1; message2; message3]
   /\ instant (timestamp message1) < instant (Aware 2))
  /\ (prune_old_messages 3600 20 (Naive 2) damaged_log
      = (Return 1,
         mkRedis [json_dumps (to_dict message2); json_dumps (to_dict message3)]
                 (Some 3600))
      /\ length (items damaged_log) = 5%nat)
  /\ (prune_old_messages (-1) 20 (Naive 2) log3 = (Return 1, mkRedis [] None)
      /\ at_or_after (Naive 2) message2 = true
      /\ at_or_after (Naive 2) message3 = true).
Proof. repeat split; vm_compute; reflexivity. Qed.

(** C5 as stated fails, in three ways.  At [limit = 0], of the two
    messages at or after [since = 2] the read returns both and not the
    most recent zero.  On a log whose records are not in the order of
    their timestamps the read is not in ascending order.  A message whose
    timestamp carries a zone is not returned for a naive [since], though
    its instant is at or after it. *)
Lemma get_messages_not_as_claimed :
  (fst (get_messages 9 (Some 0) (Some (Naive 2)) log3) = Return [message2; message3]
   /\ last_n 0 [message2; message3] = [])
  /\ (fst (get_messages 9 None (Some (Naive 0)) unordered_log)
      = Return [message3; message1]
      /\ ~ chronological [message3; message1])
  /\ (fst (get_messages 9 None (Some (Naive 2)) zoned_log) = Return [message2]
      /\ stored_messages (items zoned_log) = [message1; zoned; message2]
      /\ instant (Naive 2) <= instant (timestamp zoned)).
Proof.
  split; [split; vm_compute; reflexivity|].
  split.
  - split; [vm_compute; reflexivity|].
    intros Hsorted. inversion Hsorted as [|a l _ Hall]. subst.
    inversion Hall as [|b l' [_ Hle] _]. subst.
    vm_compute in Hle. now apply Hle.
  - split; [vm_compute; reflexivity|].
    split; [vm_compute; reflexivity | discriminate].
Qed.

(** C10 as stated fails.  The first element of the list is no UTF-8
    text: the client raises when it decodes the reply, before the loop,
    and the read fails with a [ContextError] though the three other
    records are well formed. *)
Lemma get_messages_fails_on_binary_record :
  get_messages 9 None None binary_log
  = (Raise (read_fault 9 None
              "'utf-8' codec can't decode byte 0xff in position 0: invalid start byte"),
     binary_log)
  /\ classified ContextError
       (read_fault 9 None
          "'utf-8' codec can't decode byte 0xff in position 0: invalid start byte")
  /\ stored_messages (items binary_log) = [message1; message2; message3].
Proof.
  split; [vm_compute; reflexivity|].
  split; [eexists; reflexivity | vm_compute; reflexivity].
Qed.

Lemma get_messages_since_limit_witness :
  (0 < 1)%Z
  /\ get_messages 9 (Some 1) (Some (Naive 2)) log3 = (Return [message3], log3)
  /\ get_messages 9 (Some 1) (Some (Naive 2)) binary_log
     = (Raise (read_fault 9 (Some 1)
                 "'utf-8' codec can't decode byte 0xff in position 0: invalid start byte"),
        binary_log)
  /\ fst (get_messages 9 None (Some (utcnow 2)) log3)
     = Return [ appended 2 "assistant" "two" None None;
                appended 3 "user" "three" (Some "client-a"%string) None ].
Proof.
  split; [reflexivity|]. split; [|split].
  - destruct (proj1 (@get_messages_since_limit decimal_iso 3600 9 (Naive 2) 1 log3
                       eq_refl) eq_refl)
      as [_ [_ [Hlimit _]]].
    exact Hlimit.
  - exact (proj1 (proj2 (proj2 (proj2
             (@get_messages_since_limit decimal_iso 3600 9 (Naive 2) 1 binary_log
                eq_refl))))
             _ (Some 1) eq_refl).
  - exact (proj2 (proj2 (proj2 (proj2
             (@get_messages_since_limit decimal_iso 3600 9 (Naive 2) 1
                (mkRedis [] None) eq_refl))))
             1 2 3 "user" "assistant" "user" "one" "two" "three"
             None None (Some "client-a") None None None
             eq_refl eq_refl eq_refl eq_refl eq_refl)%string.
Defined.

Lemma prune_removes_strictly_earlier_witness :
  (exists r',
      prune_old_messages 3600 20 (Naive 2) log3 = (Return 1, r')
      /\ get_messages 20 None None r' = (Return [message2; message3], r'))
  /\ prune_old_messages 3600 20 (Naive 2) zoned_log
     = (Raise (prune_fault 20 (Naive 2)), zoned_log)
  /\ prune_old_messages 3600 20 (Naive 2) binary_log
     = (Raise (read_fault 20 None
                 "'utf-8' codec can't decode byte 0xff in position 0: invalid start byte"),
        binary_log).
Proof.
  split; [|split].
  - destruct (proj1 (@prune_removes_strictly_earlier decimal_iso 3600 20 (Naive 2) log3)
                    eq_refl eq_refl)
      as [r' [_ [Hprune [Hleft _]]]].
    destruct (Hleft eq_refl) as [_ [_ [Hread _]]].
    exists r'. split; [exact Hprune | exact Hread].
  - exact (proj1 (proj2 (@prune_removes_strictly_earlier decimal_iso 3600 20
                           (Naive 2) zoned_log))
                 eq_refl eq_refl).
  - exact (proj2 (proj2 (@prune_removes_strictly_earlier decimal_iso 3600 20
                           (Naive 2) binary_log))
                 _ eq_refl).
Defined.

Lemma prune_interleaved_with_appends_witness :
  (0 < 3600)%Z
  /\ items (snd (run 3600 20 (Naive 2)
                   [ Prune; Append (Push late); Append Expire; Prune; Prune;
                     Append (Push late); Append Expire; Prune ]
                   (AtRead, log3)))
     = [ json_dumps (to_dict message2); json_dumps (to_dict message3);
         json_dumps (to_dict late) ].
Proof.
  split; [reflexivity|].
  exact (proj1 (proj2 (proj1 (@prune_interleaved_with_appends decimal_iso 3600 20
                                (Naive 2) log3
                                [] [Push late; Expire] [] [Push late; Expire] []
                                eq_refl)
                             eq_refl eq_refl))).
Defined.


Lemma get_messages_skips_corrupted_witness :
  corrupted (NotJson "{oops") = true
  /\ get_messages 9 None None damaged_log
     = (Return [message1; message2; message3], damaged_log)
  /\ exists reason,
       get_messages 9 None None binary_log
       = (Raise (read_fault 9 None reason), binary_log).
Proof.
  split; [reflexivity|]. split.
  - exact (proj2 (proj1 (@get_messages_skips_corrupted decimal_iso 9 None None []
                           (items log3 ++ [no_timestamp])
                           (NotJson "{oops") (Some 3600%Z))
                        (or_introl eq_refl))
                 eq_refl).
  - destruct (proj2 (@get_messages_skips_corrupted decimal_iso 9 None None []
                       (items log3) binary (Some 3600%Z))
                    _ eq_refl)
      as [reason [Hraise _]].
    exists reason. exact Hraise.
Defined.

(** On the damaged log the read returns the three messages. *)
Lemma get_messages_damaged_log :
  fst (get_messages 9 None None damaged_log)
  = Return [message1; message2; message3].
Proof. vm_compute. reflexivity. Qed.
End ContextStoreExamples.

(* ================================================================== *)
(** * The extension registry                                           *)
(* ================================================================== *)

Section LoaderFacts.
Variable fs : filesystem.
Variable now : datetime.

(** [load_plugin], step by step: the registry is written in the last
    branch only. *)
Lemma load_plugin_cases (plugin_name : string) (self : PluginLoader) :
  let plugin_path := path_join (plugins_dir self) plugin_name in
  load_plugin fs now plugin_name self
  = match fs plugin_path with
    | None =>
        (Raise (mkConfigurationError "plugin_directory"
                  ("Plugin directory not found: " +:+ plugin_path) None now),
         self)
    | Some folder =>
        match _load_manifest now plugin_path folder with
        | Raise e => (Raise e, self)
        | Return manifest =>
            match py_get manifest "enabled" (JBool true) with
            | Raise e => (Raise e, self)
            | Return enabled =>
                if negb (truthy enabled) then (Return tt, self)
                else
                  match _load_plugin_module now plugin_path plugin_name folder with
                  | Raise e => (Raise e, self)
                  | Return plugin =>
                      match on_load plugin with
                      | Raise e => (Raise e, self)
                      | Return _ =>
                          (Return tt,
                           mkLoader (plugins_dir self)
                             (dict_set plugin_name plugin (loaded_plugins self))
                             (dict_set plugin_name manifest (plugin_manifests self)))
                      end
                  end
            end
        end
    end.
Proof.
  intros plugin_path. unfold load_plugin, mbind, get. fold plugin_path.
  destruct (fs plugin_path) as [folder|]; [|reflexivity].
  unfold lift.
  destruct (_load_manifest now plugin_path folder) as [manifest|e]; [|reflexivity].
  destruct (py_get manifest "enabled" (JBool true)) as [enabled|e]; [|reflexivity].
  destruct (negb (truthy enabled)); [reflexivity|].
  destruct (_load_plugin_module now plugin_path plugin_name folder)
    as [plugin|e]; [|reflexivity].
  destruct (on_load plugin) as [[]|e]; reflexivity.
Qed.

Lemma check_required_returns (manifest_path : string) (manifest : json)
    (fields : list string) :
  check_required now manifest_path manifest fields = Return tt ->
  forall field, In field fields -> py_in field manifest = Return true.
Proof.
  induction fields as [|f rest IH]; simpl; intros Hret field Hin; [contradiction|].
  destruct (py_in f manifest) as [[|]|e] eqn:E; simpl in Hret; try discriminate.
  destruct Hin as [<- | Hin]; [exact E | now apply IH].
Qed.

Lemma check_required_raises (manifest_path : string) (manifest : json)
    (fields : list string) (e : exn) :
  check_required now manifest_path manifest fields = Raise e ->
  is_JSONDecodeError e = false.
Proof.
  induction fields as [|f rest IH]; simpl; intros Hraise; [discriminate|].
  destruct manifest; simpl in Hraise;
    try (inversion Hraise; reflexivity);
    match type of Hraise with
    | (if negb ?b then _ else _) = _ =>
        destruct b; simpl in Hraise; [now apply IH | inversion Hraise; reflexivity]
    end.
Qed.

(** The loop passes a JSON object that has every field, whatever their
    values. *)
Lemma check_required_present (manifest_path : string) (fields : dict json)
    (names : list string) :
  (forall field, In field names -> dict_in field fields = true) ->
  check_required now manifest_path (JObj fields) names = Return tt.
Proof.
  induction names as [|f rest IH]; simpl; intros Hall; [reflexivity|].
  rewrite (Hall f (or_introl eq_refl)). simpl. apply IH.
  intros field Hin. apply Hall. now right.
Qed.

(** A manifest [_load_manifest] returns passed the four membership tests. *)
Lemma _load_manifest_returns (plugin_path : string) (folder : plugin_folder)
    (manifest : json) :
  _load_manifest now plugin_path folder = Return manifest ->
  manifest_file folder = Some (Return manifest)
  /\ forall field, In field required_fields -> py_in field manifest = Return true.
Proof.
  unfold _load_manifest, try_except.
  destruct (manifest_file folder) as [[loaded|e]|]; [| |discriminate].
  - cbn [bind].
    destruct (check_required now (path_join plugin_path "plugin.json")
                loaded required_fields) as [[]|e] eqn:E; cbn [bind].
    + intros Heq. inversion Heq; subst. split; [reflexivity|].
      now apply check_required_returns
        with (manifest_path := path_join plugin_path "plugin.json").
    + rewrite (check_required_raises _ _ _ E). discriminate.
  - cbn [bind]. destruct (is_JSONDecodeError e); [|discriminate].
    destruct (py_str e); discriminate.
Qed.

(** A manifest that passed the tests and answers [get] is a JSON object
    with the four required keys. *)
Lemma manifest_has_required_fields (manifest enabled : json) :
  (forall field, In field required_fields -> py_in field manifest = Return true) ->
  py_get manifest "enabled" (JBool true) = Return enabled ->
  has_required_fields manifest.
Proof.
  intros Hin Hget. destruct manifest; simpl in Hget; try discriminate.
  exists fields. split; [reflexivity|].
  intros field Hfield. specialize (Hin field Hfield). simpl in Hin. congruence.
Qed.

(** What a successful [load_plugin] did: nothing, for a manifest that is
    not enabled; otherwise it registered the manifest of the file, which
    has the four required keys, and an instance whose [on_load] returned. *)
Lemma load_plugin_returns (plugin_name : string) (self self' : PluginLoader) :
  load_plugin fs now plugin_name self = (Return tt, self') ->
  self' = self
  \/ exists folder manifest plugin,
       fs (path_join (plugins_dir self) plugin_name) = Some folder
       /\ manifest_file folder = Some (Return manifest)
       /\ has_required_fields manifest
       /\ _load_plugin_module now (path_join (plugins_dir self) plugin_name)
            plugin_name folder = Return plugin
       /\ on_load plugin = Return tt
       /\ loaded_plugins self' = dict_set plugin_name plugin (loaded_plugins self)
       /\ plugin_manifests self' = dict_set plugin_name manifest (plugin_manifests self).
Proof.
  rewrite load_plugin_cases. cbv zeta.
  destruct (fs (path_join (plugins_dir self) plugin_name)) as [folder|];
    [|discriminate].
  destruct (_load_manifest now _ folder) as [manifest|e] eqn:Em; [|discriminate].
  destruct (py_get manifest "enabled" (JBool true)) as [enabled|e] eqn:Eg;
    [|discriminate].
  destruct (negb (truthy enabled)).
  - intros Heq. left. now inversion Heq.
  - destruct (_load_plugin_module now _ plugin_name folder) as [plugin|e] eqn:Ep;
      [|discriminate].
    destruct (on_load plugin) as [[]|e] eqn:El; [|discriminate].
    intros Heq. inversion Heq. subst self'. right.
    apply _load_manifest_returns in Em. destruct Em as [Efile Hfields].
    exists folder, manifest, plugin. simpl.
    repeat split; try assumption; try reflexivity.
    now apply manifest_has_required_fields with (enabled := enabled).
Qed.

Lemma find_plugin_class_first (attrs : list (string * attribute)) :
  find_plugin_class attrs = hd_error (plugin_classes attrs).
Proof.
  induction attrs as [|[attr_name attr] rest IH]; simpl; [reflexivity|].
  destruct attr; simpl; auto.
Qed.
End LoaderFacts.

Section RegistryFacts.
Variable V : Type.

Lemma dict_set_fresh (k : string) (v : V) (d : dict V) :
  ~ In k (keys d) -> dict_set k v d = d ++ [(k, v)].
Proof.
  induction d as [|[k0 v0] rest IH]; simpl; intros Hfresh; [reflexivity|].
  destruct (k =? k0) eqn:E.
  - apply String.eqb_eq in E. subst k0. tauto.
  - rewrite IH; [reflexivity | tauto].
Qed.

Lemma keys_dict_set (k : string) (v : V) (d : dict V) :
  keys (dict_set k v d) = if dict_in k d then keys d else keys d ++ [k].
Proof.
  unfold dict_in. induction d as [|[k0 v0] rest IH]; simpl; [reflexivity|].
  destruct (k =? k0) eqn:E; simpl.
  - apply String.eqb_eq in E. now subst.
  - rewrite IH. now destruct (dict_get k rest).
Qed.

(** [d[k] = v] keeps each key once. *)
Lemma unique_keys_dict_set (k : string) (v : V) (d : dict V) :
  unique_keys d -> unique_keys (dict_set k v d).
Proof.
  unfold unique_keys. intros Hd. rewrite keys_dict_set.
  unfold dict_in. destruct (dict_get k d) eqn:E; [exact Hd|].
  apply dict_get_None in E.
  apply NoDup_rev in Hd. rewrite <- (rev_involutive (keys d ++ [k])).
  apply NoDup_rev. rewrite rev_app_distr. simpl.
  constructor; [|exact Hd]. now rewrite <- in_rev.
Qed.
End RegistryFacts.

Section HealthFacts.
Lemma health_loop_spec (plugins : dict PluginInterface) :
  forall health_status : dict bool,
    unique_keys plugins ->
    (forall name, In name (keys plugins) -> ~ In name (keys health_status)) ->
    (forall name plugin e,
        In (name, plugin) plugins -> health_check plugin = Raise e ->
        is_Exception e = true) ->
    health_loop plugins health_status = Return (health_status ++ verdicts plugins).
Proof.
  induction plugins as [|[name plugin] rest IH];
    intros health_status Huniq Hfresh Hexc; simpl.
  - now rewrite app_nil_r.
  - inversion Huniq as [|? ? Hname Hrest]; subst.
    assert (Hset : forall b, dict_set name b health_status = health_status ++ [(name, b)]).
    { intros b. apply dict_set_fresh. apply Hfresh. now left. }
    assert (Hnext : forall b,
               health_loop rest (health_status ++ [(name, b)])
               = Return ((health_status ++ [(name, b)]) ++ verdicts rest)).
    { intros b. apply IH; [exact Hrest | | ].
      - intros k Hk Hin. unfold keys in Hin. rewrite map_app in Hin.
        apply in_app_or in Hin. destruct Hin as [Hin | [<- | []]].
        + apply (Hfresh k); [now right | exact Hin].
        + now apply Hname.
      - intros k p e Hin. apply (Hexc k p e). now right. }
    unfold try_except_Exception, try_except, verdict. simpl.
    destruct (health_check plugin) as [is_healthy|e] eqn:E; simpl.
    + rewrite Hset, Hnext. now rewrite <- app_assoc.
    + rewrite (Hexc name plugin e (or_introl eq_refl) E). simpl.
      rewrite Hset, Hnext. now rewrite <- app_assoc.
Qed.

(** The loop stops at the first check that raises a fault its handler
    does not catch. *)
Lemma health_loop_aborts (before after : dict PluginInterface) (name : string)
    (plugin : PluginInterface) (e : exn) :
  (forall n p e',
      In (n, p) before -> health_check p = Raise e' -> is_Exception e' = true) ->
  health_check plugin = Raise e ->
  is_Exception e = false ->
  forall health_status : dict bool,
    health_loop (before ++ (name, plugin) :: after) health_status = Raise e.
Proof.
  intros Hbefore Hraise Hexc.
  induction before as [|[n p] rest IH]; intros health_status;
    cbn [app health_loop]; unfold try_except_Exception, try_except.
  - rewrite Hraise. cbn [bind]. now rewrite Hexc.
  - assert (Hrest : forall n0 p0 e', In (n0, p0) rest ->
                      health_check p0 = Raise e' -> is_Exception e' = true).
    { intros n0 p0 e' Hin. apply (Hbefore n0 p0 e'). now right. }
    destruct (health_check p) as [is_healthy|e'] eqn:E; cbn [bind].
    + now apply IH.
    + rewrite (Hbefore n p e' (or_introl eq_refl) E). cbn [bind]. now apply IH.
Qed.

Lemma dict_get_verdicts (name : string) (plugins : dict PluginInterface) :
  dict_get name (verdicts plugins) = option_map verdict (dict_get name plugins).
Proof.
  induction plugins as [|[k p] rest IH]; simpl; [reflexivity|].
  now destruct (name =? k).
Qed.
End HealthFacts.

Section Registry.
Variable fs : filesystem.
Variable now : datetime.

(** A [load_plugin] that raises wrote nothing. *)
Lemma load_plugin_raises_unchanged (plugin_name : string)
    (self self' : PluginLoader) (e : exn) :
  load_plugin fs now plugin_name self = (Raise e, self') -> self' = self.
Proof.
  rewrite load_plugin_cases. cbv zeta.
  destruct (fs (path_join (plugins_dir self) plugin_name)) as [folder|];
    [|intros Heq; now inversion Heq].
  destruct (_load_manifest now _ folder) as [manifest|e0];
    [|intros Heq; now inversion Heq].
  destruct (py_get manifest "enabled" (JBool true)) as [enabled|e0];
    [|intros Heq; now inversion Heq].
  destruct (negb (truthy enabled)); [discriminate|].
  destruct (_load_plugin_module now _ plugin_name folder) as [plugin|e0];
    [|intros Heq; now inversion Heq].
  destruct (on_load plugin) as [[]|e0]; [discriminate|].
  intros Heq. now inversion Heq.
Qed.

(** C1, as the code has it.  [execute_plugin] on a name that is not loaded
    raises a [PluginExecutionError] that says so, with the name and the
    intent in its context.  When the loaded extension's [execute] raises
    an instance of [Exception] whose [str] returns, it raises a
    [PluginExecutionError] whose context holds the name, the intent, the
    fault's type name and the [params] dictionary as the extension left
    it.  A dispatch raises nothing else, but for the two faults the
    handler lets through: one that is no instance of [Exception]
    (cancellation, interpreter exit), and the one [str] raises.  These it
    does let through: a fault of [execute] that is no instance of
    [Exception] comes out of the dispatch as it is, and so does the fault
    [str] raises on an instance of [Exception]; a result [execute] returns
    is handed back as it is. *)
Theorem execute_plugin_classifies (self : PluginLoader)
    (plugin_name intent : string) (params : dict json) :
  (get_plugin self plugin_name = None ->
   exists b,
     execute_plugin self now plugin_name intent params
     = Raise (Hive PluginExecutionError b)
     /\ message b = "Plugin '" +:+ plugin_name +:+ "' failed to execute intent '"
                      +:+ intent +:+ "': Plugin '" +:+ plugin_name +:+ "' not loaded"
     /\ error_code b = "PLUGIN_EXECUTION_ERROR"
     /\ err_timestamp b = now
     /\ context b = Some [("plugin", JStr plugin_name); ("intent", JStr intent)])
  /\ (forall plugin e params' text,
        get_plugin self plugin_name = Some plugin ->
        execute plugin intent params = (Raise e, params') ->
        is_Exception e = true ->
        py_str e = Return text ->
        exists b,
          execute_plugin self now plugin_name intent params
          = Raise (Hive PluginExecutionError b)
          /\ message b = "Plugin '" +:+ plugin_name +:+ "' failed to execute intent '"
                           +:+ intent +:+ "': " +:+ text
          /\ error_code b = "PLUGIN_EXECUTION_ERROR"
          /\ err_timestamp b = now
          /\ context b = Some [ ("plugin", JStr plugin_name);
                                ("intent", JStr intent);
                                ("error_type", JStr (type_name e));
                                ("params", JObj params') ])
  /\ (forall raised,
        execute_plugin self now plugin_name intent params = Raise raised ->
        classified PluginExecutionError raised
        \/ exists plugin e params',
             get_plugin self plugin_name = Some plugin
             /\ execute plugin intent params = (Raise e, params')
             /\ ((is_Exception e = false /\ raised = e)
                 \/ (is_Exception e = true /\ py_str e = Raise raised)))
  /\ (forall plugin e params',
        get_plugin self plugin_name = Some plugin ->
        execute plugin intent params = (Raise e, params') ->
        is_Exception e = false ->
        execute_plugin self now plugin_name intent params = Raise e)
  /\ (forall plugin e params' raised,
        get_plugin self plugin_name = Some plugin ->
        execute plugin intent params = (Raise e, params') ->
        is_Exception e = true ->
        py_str e = Raise raised ->
        execute_plugin self now plugin_name intent params = Raise raised)
  /\ (forall plugin result params',
        get_plugin self plugin_name = Some plugin ->
        execute plugin intent params = (Return result, params') ->
        execute_plugin self now plugin_name intent params = Return result).
Proof.
  unfold execute_plugin. split; [|split; [|split; [|split; [|split]]]].
  - intros Hnone. rewrite Hnone. eexists. split; [reflexivity|].
    repeat split.
  - intros plugin e params' text Hsome Hexec Hexc Hstr.
    rewrite Hsome, Hexec. unfold try_except_Exception, try_except.
    rewrite Hexc, Hstr. eexists. split; [reflexivity|].
    repeat split.
  - intros raised. destruct (get_plugin self plugin_name) as [plugin|].
    + destruct (execute plugin intent params) as [[result|e] params'] eqn:Hexec;
        unfold try_except_Exception, try_except; [discriminate|].
      destruct (is_Exception e) eqn:Hexc.
      * destruct (py_str e) as [text|e'] eqn:Hstr; simpl; intros Heq;
          inversion Heq; subst.
        -- left. eexists. reflexivity.
        -- right. exists plugin, e, params'. auto.
      * intros Heq. inversion Heq; subst.
        right. exists plugin, raised, params'. auto.
    + intros Heq. inversion Heq. left. eexists. reflexivity.
  - intros plugin e params' Hsome Hexec Hexc.
    rewrite Hsome, Hexec. unfold try_except_Exception, try_except.
    now rewrite Hexc.
  - intros plugin e params' raised Hsome Hexec Hexc Hstr.
    rewrite Hsome, Hexec. unfold try_except_Exception, try_except.
    now rewrite Hexc, Hstr.
  - intros plugin result params' Hsome Hexec. now rewrite Hsome, Hexec.
Qed.

(** A result [execute] returns is handed back as it is. *)
Lemma execute_plugin_returns (self : PluginLoader) (plugin_name intent : string)
    (params params' : dict json) (plugin : PluginInterface) (result : json) :
  get_plugin self plugin_name = Some plugin ->
  execute plugin intent params = (Return result, params') ->
  execute_plugin self now plugin_name intent params = Return result.
Proof.
  intros Hsome Hexec. unfold execute_plugin. now rewrite Hsome, Hexec.
Qed.

(** C2.  Whatever makes [load_plugin] fail (no directory, no manifest
    file, a manifest that is no JSON or lacks a required field, no
    handler or none that loads, an [on_load] that raises), the loaded
    plugins and the manifests are after the failure exactly what they
    were before it. *)
Theorem load_plugin_failure_registers_nothing (plugin_name : string)
    (self self' : PluginLoader) (e : exn) :
  load_plugin fs now plugin_name self = (Raise e, self') ->
  loaded_plugins self' = loaded_plugins self
  /\ plugin_manifests self' = plugin_manifests self.
Proof.
  intros Hraise. apply load_plugin_raises_unchanged in Hraise.
  now subst self'.
Qed.

(** C6, as the code has it.  When the module of [handler.py] loads: with
    no subclass of the interface among its attributes, the load fails
    with a [ConfigurationError]; with one or more, the first of them in
    the order of [dir(module)] is instantiated, the others are not looked
    at, and the instance is what the load returns. *)
Theorem load_plugin_module_takes_first (plugin_path plugin_name : string)
    (folder : plugin_folder) (handler : handler_file)
    (attrs : list (string * attribute)) :
  handler_py folder = Some handler ->
  spec_found handler = true ->
  exec_module handler = Return attrs ->
  (plugin_classes attrs = [] ->
   _load_plugin_module now plugin_path plugin_name folder
   = Raise (mkConfigurationError "handler.py"
              ("No PluginInterface subclass found in "
                 +:+ path_join plugin_path "handler.py") None now))
  /\ (forall first others plugin,
        plugin_classes attrs = first :: others ->
        first = Return plugin ->
        _load_plugin_module now plugin_path plugin_name folder = Return plugin)
  /\ (forall first others e text,
        plugin_classes attrs = first :: others ->
        first = Raise e ->
        is_Exception e = true -> is_instance ConfigurationError e = false ->
        py_str e = Return text ->
        _load_plugin_module now plugin_path plugin_name folder
        = Raise (mkConfigurationError "handler.py"
                   ("Failed to load plugin " +:+ plugin_name +:+ ": " +:+ text)
                   (Some [("error_type", JStr (type_name e))]) now)).
Proof.
  intros Hhandler Hspec Hmodule.
  unfold _load_plugin_module. rewrite Hhandler, Hspec, Hmodule.
  cbn [negb bind]. rewrite find_plugin_class_first.
  unfold try_except_Exception, try_except.
  split; [|split].
  - intros Hnone. rewrite Hnone. reflexivity.
  - intros first others plugin Hfirst Hret. rewrite Hfirst. simpl. now rewrite Hret.
  - intros first others e text Hfirst Hraise Hexc Hconf Hstr.
    rewrite Hfirst. simpl. rewrite Hraise, Hexc, Hconf, Hstr. reflexivity.
Qed.

(** C7, as the code has it.  Every manifest of the registry is a JSON
    object that has the four required keys [name], [version],
    [description] and [intents]: [load_plugin] keeps this true whether it
    returns or raises.  It tests that the keys are there and nothing of
    their values: whatever the values of the four keys, empty ones
    included, a manifest that has them and is enabled is registered as it
    is, once the handler gives an instance whose [on_load] returns. *)
Theorem load_plugin_keeps_required_fields (plugin_name : string)
    (self : PluginLoader) :
  (forall (self' : PluginLoader) (result : outcome unit),
      (forall name manifest,
          get_plugin_manifest self name = Some manifest ->
          has_required_fields manifest) ->
      load_plugin fs now plugin_name self = (result, self') ->
      forall name manifest,
        get_plugin_manifest self' name = Some manifest ->
        has_required_fields manifest)
  /\ (forall folder fields plugin,
        fs (path_join (plugins_dir self) plugin_name) = Some folder ->
        manifest_file folder = Some (Return (JObj fields)) ->
        (forall field, In field required_fields -> dict_in field fields = true) ->
        match dict_get "enabled" fields with
        | Some flag => truthy flag = true
        | None => True
        end ->
        _load_plugin_module now (path_join (plugins_dir self) plugin_name)
          plugin_name folder = Return plugin ->
        on_load plugin = Return tt ->
        load_plugin fs now plugin_name self
        = (Return tt,
           mkLoader (plugins_dir self)
             (dict_set plugin_name plugin (loaded_plugins self))
             (dict_set plugin_name (JObj fields) (plugin_manifests self)))).
Proof.
  split.
  - intros self' result Hinv Hload name manifest. destruct result as [[]|e].
    + apply load_plugin_returns in Hload.
      destruct Hload as [-> | [folder [loaded [plugin Hreg]]]]; [apply Hinv|].
      destruct Hreg as [_ [_ [Hfields [_ [_ [_ Hmanifests]]]]]].
      unfold get_plugin_manifest. rewrite Hmanifests.
      destruct (String.eqb_spec name plugin_name) as [-> | Hne].
      * rewrite dict_get_set_same. intros Heq. inversion Heq. now subst.
      * rewrite dict_get_set_other by exact Hne. apply Hinv.
    + apply load_plugin_raises_unchanged in Hload. subst self'. apply Hinv.
  - intros folder fields plugin Hfs Hfile Hfields Henabled Hmodule Hload.
    rewrite load_plugin_cases. cbv zeta. rewrite Hfs.
    unfold _load_manifest at 1, try_except. rewrite Hfile. cbn [bind].
    rewrite check_required_present by exact Hfields. cbn [bind py_get].
    rewrite Hmodule, Hload.
    destruct (dict_get "enabled" fields) as [flag|];
      [now rewrite Henabled | reflexivity].
Qed.

(** C8, as the code has it.  When every fault the health checks raise is
    an instance of [Exception], [health_check_all] returns one status for
    every loaded extension, in the order of the registry: what its check
    returned, or [false] when it raised.  The status of an extension
    depends on its own check alone.  A health check that raises a fault
    that is no instance of [Exception] (cancellation, interpreter exit),
    the checks before it raising instances of [Exception] only, stops the
    scan: the fault comes out of [health_check_all] and no status is
    returned, neither for the extensions before it nor for those after. *)
Theorem health_check_all_isolates (self : PluginLoader) :
  unique_keys (loaded_plugins self) ->
  ((forall name plugin e,
       In (name, plugin) (loaded_plugins self) ->
       health_check plugin = Raise e -> is_Exception e = true) ->
   health_check_all self = Return (verdicts (loaded_plugins self))
   /\ forall name,
        dict_get name (verdicts (loaded_plugins self))
        = option_map verdict (get_plugin self name))
  /\ (forall before after name plugin e,
        loaded_plugins self = before ++ (name, plugin) :: after ->
        (forall n p e',
            In (n, p) before -> health_check p = Raise e' ->
            is_Exception e' = true) ->
        health_check plugin = Raise e ->
        is_Exception e = false ->
        health_check_all self = Raise e).
Proof.
  intros Huniq. split.
  - intros Hexc. split.
    + unfold health_check_all. rewrite health_loop_spec; auto.
    + intros name. apply dict_get_verdicts.
  - intros before after name plugin e Hsplit Hbefore Hraise Hexc.
    unfold health_check_all. rewrite Hsplit.
    now apply health_loop_aborts.
Qed.

(** [load_plugin] keeps each name once in the registry. *)
Lemma load_plugin_unique_keys (plugin_name : string)
    (self self' : PluginLoader) (result : outcome unit) :
  unique_keys (loaded_plugins self) ->
  load_plugin fs now plugin_name self = (result, self') ->
  unique_keys (loaded_plugins self').
Proof.
  intros Huniq Hload. destruct result as [[]|e].
  - apply load_plugin_returns in Hload.
    destruct Hload as [-> | [folder [loaded [plugin Hreg]]]]; [exact Huniq|].
    destruct Hreg as [_ [_ [_ [_ [_ [Hplugins _]]]]]].
    rewrite Hplugins. now apply unique_keys_dict_set.
  - apply load_plugin_raises_unchanged in Hload. now subst self'.
Qed.
End Registry.

(* ================================================================== *)
(** * The registry on concrete extensions                              *)
(* ================================================================== *)

Section RegistryExamples.
Local Open Scope Z_scope.

(** The dispatch of the specification's example returns the map of the
    extension as it is. *)
Lemma execute_plugin_weather :
  execute_plugin busy_loader (utcnow 0) "weather" "get_weather" [("location", JStr "Belfort")]
  = Return weather_result.
Proof. reflexivity. Qed.

(** C1 as stated fails.  The extension is cancelled while it executes:
    the fault is no instance of [Exception], the handler of
    [execute_plugin] does not catch it, and the dispatch raises it as it
    is, which is no [PluginExecutionError]. *)
Lemma execute_plugin_lets_cancellation_through :
  execute_plugin busy_loader (utcnow 0) "stalled" "get_weather" [("location", JStr "Belfort")]
  = Raise cancelled
  /\ ~ classified PluginExecutionError cancelled.
Proof.
  split; [reflexivity|]. intros [b Hb]. discriminate Hb.
Qed.

(** The two failures C1 is right about: a name that is not loaded, and an
    extension that raises a [RuntimeError] after it removed [location]
    from the parameters it was given. *)
Lemma execute_plugin_not_loaded :
  execute_plugin busy_loader (utcnow 7) "calendar" "add_event" []
  = Raise (Hive PluginExecutionError
             (mkBaseError
                "Plugin 'calendar' failed to execute intent 'add_event': Plugin 'calendar' not loaded"
                "PLUGIN_EXECUTION_ERROR" (utcnow 7)
                (Some [("plugin", JStr "calendar"); ("intent", JStr "add_event")]))).
Proof. reflexivity. Qed.

Lemma execute_plugin_wraps_RuntimeError :
  execute_plugin busy_loader (utcnow 7) "broken" "get_weather"
    [("location", JStr "Belfort"); ("units", JStr "metric")]
  = Raise (Hive PluginExecutionError
             (mkBaseError
                "Plugin 'broken' failed to execute intent 'get_weather': boom"
                "PLUGIN_EXECUTION_ERROR" (utcnow 7)
                (Some [ ("plugin", JStr "broken"); ("intent", JStr "get_weather");
                        ("error_type", JStr "RuntimeError");
                        ("params", JObj [("units", JStr "metric")]) ]))).
Proof. reflexivity. Qed.

Lemma execute_plugin_classifies_witness :
  get_plugin busy_loader "broken" = Some broken
  /\ execute broken "get_weather" [("location", JStr "Belfort")]
     = (Raise runtime_error, [])
  /\ is_Exception runtime_error = true
  /\ py_str runtime_error = Return "boom"%string
  /\ (exists b,
         execute_plugin busy_loader (utcnow 7) "broken" "get_weather"
           [("location", JStr "Belfort")]
         = Raise (Hive PluginExecutionError b)
         /\ context b = Some [ ("plugin", JStr "broken"); ("intent", JStr "get_weather");
                               ("error_type", JStr "RuntimeError");
                               ("params", JObj []) ])
  /\ is_Exception cancelled = false
  /\ execute_plugin busy_loader (utcnow 7) "stalled" "get_weather"
       [("location", JStr "Belfort")]
     = Raise cancelled.
Proof.
  repeat (split; [reflexivity|]).
  split; [|split; [reflexivity|]].
  - destruct (proj1 (proj2 (@execute_plugin_classifies (utcnow 7) busy_loader "broken"
                              "get_weather" [("location", JStr "Belfort")]))
                    broken runtime_error [] "boom"%string
                    eq_refl eq_refl eq_refl eq_refl)
      as [b [Hraise [_ [_ [_ Hcontext]]]]].
    exists b. split; [exact Hraise | exact Hcontext].
  - exact (proj1 (proj2 (proj2 (proj2
             (@execute_plugin_classifies (utcnow 7) busy_loader "stalled"
                "get_weather" [("location", JStr "Belfort")]))))
             stalled cancelled [("location", JStr "Belfort")]
             eq_refl eq_refl eq_refl).
Defined.

(** Each way of failing to load, on the sample file system. *)
Lemma load_plugin_failures :
  Forall (fun plugin_name =>
            exists e, load_plugin sample_fs (utcnow 0) plugin_name empty_loader
                      = (Raise e, empty_loader))
         ["nowhere"; "ghost"; "garbled"; "partial"; "headless"; "hollow"; "moody"].
Proof. repeat constructor; eexists; vm_compute; reflexivity. Qed.

Lemma load_plugin_failure_registers_nothing_witness :
  exists self',
    load_plugin sample_fs (utcnow 0) "moody" busy_loader = (Raise runtime_error, self')
    /\ loaded_plugins self' = loaded_plugins busy_loader
    /\ plugin_manifests self' = plugin_manifests busy_loader.
Proof.
  exists busy_loader. split; [reflexivity|].
  apply (@load_plugin_failure_registers_nothing
           sample_fs (utcnow 0) "moody" busy_loader busy_loader runtime_error).
  reflexivity.
Defined.

(** C6 as stated fails.  The handler defines two implementations of the
    interface: the load does not fail, it instantiates the one whose name
    comes first and registers it. *)
Lemma load_plugin_picks_among_two :
  (exists attrs,
      handler_py duo_folder = Some (mkHandler true (Return attrs))
      /\ plugin_classes attrs = [Return weather; Return broken])
  /\ _load_plugin_module (utcnow 0) "plugins/duo" "duo" duo_folder = Return weather
  /\ load_plugin sample_fs (utcnow 0) "duo" empty_loader
     = (Return tt,
        mkLoader "plugins" [("duo", weather)] [("duo", weather_manifest)]).
Proof.
  split; [eexists; split; reflexivity|]. split; reflexivity.
Qed.

Lemma load_plugin_module_takes_first_witness :
  handler_py weather_folder
  = Some (module_of [] [("WeatherPlugin", PluginSubclass (Return weather))])
  /\ _load_plugin_module (utcnow 0) "plugins/weather" "weather" weather_folder = Return weather.
Proof.
  split; [reflexivity|].
  refine (proj1 (proj2 (@load_plugin_module_takes_first
                          (utcnow 0) "plugins/weather" "weather" weather_folder _ _
                          eq_refl eq_refl eq_refl))
                (Return weather) [] weather eq_refl eq_refl).
Defined.

(** C7 as stated fails.  The manifest has its four required fields and
    every one of them is empty: the load succeeds and registers it. *)
Lemma load_plugin_registers_empty_fields :
  load_plugin sample_fs (utcnow 0) "blank" empty_loader
  = (Return tt, mkLoader "plugins" [("blank", weather)] [("blank", blank_manifest)])
  /\ getitem blank_manifest "name" = Return (JStr "")
  /\ getitem blank_manifest "version" = Return (JStr "")
  /\ getitem blank_manifest "description" = Return (JStr "")
  /\ getitem blank_manifest "intents" = Return (JArr []).
Proof. repeat split. Qed.

Lemma load_plugin_keeps_required_fields_witness :
  load_plugin sample_fs (utcnow 0) "weather" empty_loader
  = (Return tt, mkLoader "plugins" [("weather", weather)] [("weather", weather_manifest)])
  /\ load_plugin sample_fs (utcnow 0) "blank" weather_loader
     = (Return tt,
        mkLoader "plugins" [("weather", weather); ("blank", weather)]
          [("weather", weather_manifest); ("blank", blank_manifest)])
  /\ has_required_fields weather_manifest.
Proof.
  split; [reflexivity|]. split.
  { refine (proj2 (@load_plugin_keeps_required_fields sample_fs (utcnow 0) "blank"
                     weather_loader)
                  blank_folder
                  [ ("name", JStr ""); ("version", JStr "");
                    ("description", JStr ""); ("intents", JArr []) ]%string
                  weather eq_refl eq_refl _ I eq_refl eq_refl).
    intros field Hin. simpl in Hin.
    destruct Hin as [<- | [<- | [<- | [<- | []]]]]; reflexivity. }
  apply (proj1 (@load_plugin_keeps_required_fields sample_fs (utcnow 0) "weather"
                  empty_loader)
               (mkLoader "plugins" [("weather", weather)] [("weather", weather_manifest)])
               (Return tt))
    with (name := "weather"%string).
  - intros name manifest Hget. discriminate Hget.
  - reflexivity.
  - reflexivity.
Defined.

(** C8 as stated fails.  The second extension of the registry is
    cancelled during its health check: the scan stops there and
    [health_check_all] returns no status at all, neither the one of the
    first extension, whose check had returned, nor one for the third. *)
Lemma health_check_all_aborted_by_cancellation :
  health_check_all busy_loader = Raise cancelled
  /\ health_check weather = Return true
  /\ keys (loaded_plugins busy_loader) = ["weather"; "stalled"; "broken"]%string.
Proof. repeat split. Qed.

Lemma health_check_all_isolates_witness :
  unique_keys (loaded_plugins calm_loader)
  /\ unique_keys (loaded_plugins busy_loader)
  /\ health_check_all busy_loader = Raise cancelled
  /\ health_check_all calm_loader
     = Return [("weather", true); ("broken", false); ("moody", false)]%string.
Proof.
  assert (Huniq : unique_keys (loaded_plugins calm_loader)).
  { unfold unique_keys. simpl.
    repeat constructor; simpl; intuition discriminate. }
  assert (Hbusy : unique_keys (loaded_plugins busy_loader)).
  { unfold unique_keys. simpl.
    repeat constructor; simpl; intuition discriminate. }
  split; [exact Huniq|]. split; [exact Hbusy|]. split.
  { refine (proj2 (@health_check_all_isolates busy_loader Hbusy)
                  [("weather", weather)]%string [("broken", broken)]%string
                  "stalled"%string stalled cancelled eq_refl _ eq_refl eq_refl).
    intros n p e' Hin Hraise. simpl in Hin. destruct Hin as [Heq | []].
    inversion Heq; subst p. discriminate Hraise. }
  refine (proj1 (proj1 (@health_check_all_isolates calm_loader Huniq) _)).
  intros name plugin e Hin Hraise. simpl in Hin.
  destruct Hin as [Heq | [Heq | [Heq | []]]]; inversion Heq; subst plugin;
    simpl in Hraise; inversion Hraise; reflexivity.
Defined.
End RegistryExamples.

(* ================================================================== *)
(** * Further properties of the context store                          *)
(* ================================================================== *)

Section MessageRoundTrip.
Context `{IsoFormat}.

Lemma to_dict_stored (message : Message) :
  to_dict (stored message) = to_dict message.
Proof.
  unfold to_dict, stored. simpl. now rewrite py_or_idempotent.
Qed.

Lemma from_dict_written (message : Message) :
  from_dict (to_dict message) = Return (stored message).
Proof. exact (decode_written message). Qed.

(** X1.  [Message.from_dict(m.to_dict())] returns [m] with its [metadata]
    as [to_dict] stores it: unchanged when it is a non-empty value or [{}],
    and [{}] in place of [None], so that a message without metadata does not
    come back equal; serializing what came back gives the same record. *)
Theorem from_dict_to_dict_round_trip (message : Message) :
  from_dict (to_dict message) = Return (stored message)
  /\ to_dict (stored message) = to_dict message
  /\ (truthy (metadata message) = true \/ metadata message = JObj [] ->
      from_dict (to_dict message) = Return message)
  /\ (metadata message = JNull ->
      exists back,
        from_dict (to_dict message) = Return back
        /\ metadata back = JObj [] /\ back <> message).
Proof.
  split; [apply from_dict_written|]. split; [apply to_dict_stored|]. split.
  - intros Hmeta. rewrite from_dict_written. f_equal.
    destruct message as [r c t i m]. unfold stored, py_or. simpl in *.
    destruct Hmeta as [Htrue | Hempty]; [now rewrite Htrue | now subst m].
  - intros Hnone. exists (stored message). split; [apply from_dict_written|].
    destruct message as [r c t i m]. simpl in Hnone. subst m.
    split; [reflexivity | discriminate].
Qed.

(** X2.  [Message.from_dict] returns exactly on a JSON object that holds
    [role], [content] and a [timestamp] string that [fromisoformat] reads;
    the message has these, and [client_id] and [metadata] as the object has
    them or [None].  On anything else it raises. *)
Theorem from_dict_returns_iff (data : json) (message : Message) :
  from_dict data = Return message
  <-> exists fields role content stamp t,
        data = JObj fields
        /\ dict_get "role" fields = Some role
        /\ dict_get "content" fields = Some content
        /\ dict_get "timestamp" fields = Some (JStr stamp)
        /\ fromisoformat stamp = Some t
        /\ message = mkMessage role content t
                       (match dict_get "client_id" fields with
                        | Some v => v | None => JNull end)
                       (match dict_get "metadata" fields with
                        | Some v => v | None => JNull end).
Proof.
  split.
  - unfold from_dict. destruct data; simpl; try discriminate.
    destruct (dict_get "role" fields) as [role|] eqn:Er; simpl; [|discriminate].
    destruct (dict_get "content" fields) as [content|] eqn:Ec; simpl; [|discriminate].
    destruct (dict_get "timestamp" fields) as [stamp|] eqn:Et; simpl; [|discriminate].
    destruct stamp; simpl; try discriminate.
    destruct (fromisoformat s) as [t|] eqn:Ef; simpl; [|discriminate].
    intros Heq. exists fields, role, content, s, t.
    repeat split; try assumption.
    destruct (dict_get "client_id" fields), (dict_get "metadata" fields);
      simpl in Heq; now inversion Heq.
  - intros [fields [role [content [stamp [t [-> [Er [Ec [Et [Ef ->]]]]]]]]]].
    unfold from_dict. simpl. rewrite Er, Ec, Et. simpl. rewrite Ef. simpl.
    now destruct (dict_get "client_id" fields), (dict_get "metadata" fields).
Qed.
End MessageRoundTrip.

Section StoreOperations.
Context `{IsoFormat}.
Variable ttl_seconds : Z.

Lemma last_n_snoc {A} (l : list A) (x : A) : last_n 1 (l ++ [x]) = [x].
Proof.
  unfold last_n. rewrite length_app. simpl.
  replace (length l + 1 - Pos.to_nat 1)%nat with (length l) by lia.
  rewrite skipn_app, skipn_all, Nat.sub_diag. reflexivity.
Qed.

Lemma length_stored_messages_written (log : list raw) :
  Forall written log -> length (stored_messages log) = length log.
Proof.
  induction 1 as [|s rest [m ->] _ IH]; simpl; [reflexivity|].
  rewrite decode_written. simpl. now rewrite IH.
Qed.

(** X3.  [add_message] with a metadata JSON carries returns on every log
    and sends its [rpush] and its [expire].  Under a positive time-to-live
    the record is then at the tail of the list, the size is one more and
    the time-to-live of the key is [ttl_seconds] whatever it was; on a log
    of text [get_messages()] reads the messages it read before followed by
    the new one and [get_messages(limit=1)] the new one alone; an element
    that is no text still makes the read raise.  Under a time-to-live of
    zero or less the [expire] deletes the key: nothing is left, the new
    message neither.  With a metadata [json.dumps] refuses, [add_message]
    raises a [ContextError] that carries the text and the class of the
    refusal and sends nothing. *)
Theorem add_message_then_read (now later : Z) (role content : string)
    (client_id : option string) (metadata : option (dict json)) (r : redis) :
  (exists r',
      add_message ttl_seconds now role content client_id
        (option_map Accepted metadata) r = (Return tt, r')
      /\ ((0 < ttl_seconds)%Z ->
          items r'
          = items r
              ++ [json_dumps (to_dict (new_message now role content client_id
                                                   metadata))]
          /\ ttl r' = Some ttl_seconds
          /\ get_context_size later r'
             = (Return (Z.of_nat (length (items r)) + 1)%Z, r')
          /\ (first_undecodable (items r) = None ->
              get_messages later None None r
              = (Return (stored_messages (items r)), r)
              /\ get_messages later None None r'
                 = (Return (stored_messages (items r)
                              ++ [appended now role content client_id metadata]),
                    r')
              /\ get_messages later (Some 1%Z) None r'
                 = (Return [appended now role content client_id metadata], r'))
          /\ (forall reason,
                first_undecodable (items r) = Some reason ->
                get_messages later None None r'
                = (Raise (read_fault later None reason), r')))
      /\ ((ttl_seconds <= 0)%Z ->
          r' = mkRedis [] None
          /\ get_context_size later r' = (Return 0%Z, r')
          /\ get_messages later None None r' = (Return [], r')))
  /\ (forall cls text,
        is_Exception (Py cls (Str text)) = true ->
        add_message ttl_seconds now role content client_id
          (Some (Refused cls text)) r
        = (Raise (add_fault now role content cls text), r)).
Proof.
  split; [|intros cls text; apply add_message_refused].
  set (record := json_dumps (to_dict (new_message now role content client_id
                                                  metadata))).
  exists (EXPIRE ttl_seconds (RPUSH [record] r)).
  split; [apply add_message_spec|]. split.
  - intros Hpos.
    assert (Hr' : EXPIRE ttl_seconds (RPUSH [record] r)
                  = mkRedis (items r ++ [record]) (Some ttl_seconds)).
    { rewrite EXPIRE_positive by exact Hpos. unfold RPUSH. cbn [items].
      now destruct (items r). }
    rewrite Hr'. cbn [items ttl].
    split; [reflexivity|]. split; [reflexivity|]. split.
    { unfold get_context_size, mtry, llen. cbn [items].
      rewrite length_app. simpl. f_equal. f_equal. lia. }
    split.
    + intros Htext. split; [now apply get_messages_all|].
      assert (Htext' : first_undecodable (items r ++ [record]) = None)
        by (now rewrite first_undecodable_app, Htext).
      split.
      * rewrite get_messages_all by exact Htext'. cbn [items].
        unfold record. now rewrite stored_messages_app, stored_messages_one.
      * rewrite get_messages_spec. cbn [items].
        rewrite Htext', filter_not_before_None, stored_messages_app.
        unfold record. rewrite stored_messages_one.
        rewrite apply_limit_positive by lia. now rewrite last_n_snoc.
    + intros reason Hbad. rewrite get_messages_spec. cbn [items].
      now rewrite first_undecodable_app, Hbad.
  - intros Hneg. rewrite (EXPIRE_pushed_nonpositive _ [] r Hneg).
    repeat split.
Qed.

(** X4.  [get_context_size] counts the elements of the list, whatever
    they hold, and changes nothing.  On a log of text [get_messages]
    returns the records that parse: the size is the number of messages
    read plus the number of records that are text and do not parse, equal
    to the former on a log of records the store wrote and larger as soon
    as one record does not parse.  On a log with an element that is no
    text the size is still returned and the read raises. *)
Theorem get_context_size_counts_records (now : Z) (r : redis) :
  get_context_size now r = (Return (Z.of_nat (length (items r))), r)
  /\ (first_undecodable (items r) = None ->
      exists messages,
        get_messages now None None r = (Return messages, r)
        /\ length (items r)
           = (length messages + length (filter corrupted (items r)))%nat
        /\ (Forall written (items r) -> length messages = length (items r))
        /\ (forall bad,
              In bad (items r) -> corrupted bad = true ->
              (length messages < length (items r))%nat))
  /\ (forall reason,
        first_undecodable (items r) = Some reason ->
        get_messages now None None r = (Raise (read_fault now None reason), r)).
Proof.
  split; [reflexivity|]. split.
  - intros Htext. exists (stored_messages (items r)).
    split; [now apply get_messages_all|].
    split; [now apply length_stored_corrupted|].
    split; [apply length_stored_messages_written|].
    intros bad Hin Hbad.
    rewrite (length_stored_corrupted (items r) Htext).
    assert (Hfiltered : In bad (filter corrupted (items r)))
      by (apply filter_In; now split).
    destruct (filter corrupted (items r)); [contradiction | simpl; lia].
  - intros reason Hbad. now rewrite get_messages_spec, Hbad.
Qed.

(** [clear_context] returns on every log and leaves the key deleted: no
    record, no time-to-live, a size of zero and an empty read. *)
Lemma clear_context_empties (now : Z) (r : redis) :
  exists r',
    clear_context now r = (Return tt, r')
    /\ items r' = [] /\ ttl r' = None
    /\ get_context_size now r' = (Return 0%Z, r')
    /\ get_messages now None None r' = (Return [], r').
Proof.
  exists (DEL r). repeat split.
Qed.

(** X5.  For a positive [limit], [get_messages] returns the end of what it
    returns without a limit: at most [limit] messages, all of them when
    there are no more than [limit], and the rest is dropped at the front.
    On a log with an element that is no text the read raises with the
    limit as without it. *)
Theorem get_messages_limit_bounds (now : Z) (n : Z)
    (since : option datetime) (r : redis) :
  (0 < n)%Z ->
  (first_undecodable (items r) = None ->
   exists unlimited limited dropped,
     get_messages now None since r = (Return unlimited, r)
     /\ get_messages now (Some n) since r = (Return limited, r)
     /\ unlimited = dropped ++ limited
     /\ length limited = Nat.min (Z.to_nat n) (length unlimited)
     /\ ((Z.of_nat (length unlimited) <= n)%Z -> limited = unlimited))
  /\ (forall reason,
        first_undecodable (items r) = Some reason ->
        get_messages now None since r = (Raise (read_fault now None reason), r)
        /\ get_messages now (Some n) since r
           = (Raise (read_fault now (Some n) reason), r)).
Proof.
  intros Hn. split.
  - intros Htext.
    set (unlimited := filter (not_before since) (stored_messages (items r))).
    exists unlimited, (last_n n unlimited),
           (firstn (length unlimited - Z.to_nat n) unlimited).
    split; [now rewrite get_messages_spec, Htext|].
    split; [now rewrite get_messages_spec, Htext, apply_limit_positive|].
    unfold last_n. split; [now rewrite firstn_skipn|].
    split; [rewrite length_skipn; lia|].
    intros Hle.
    replace (length unlimited - Z.to_nat n)%nat with 0%nat by lia.
    reflexivity.
  - intros reason Hbad. now rewrite !get_messages_spec, Hbad.
Qed.
End StoreOperations.

Section PruneComposition.
Context `{IsoFormat}.
Variable ttl_seconds : Z.

Lemma filter_map_stored (before : datetime) (messages : list Message) :
  filter (at_or_after before) (map stored messages)
  = map stored (filter (at_or_after before) messages).
Proof.
  induction messages as [|m rest IH]; [reflexivity|].
  cbn [map filter].
  assert (E : at_or_after before (stored m) = at_or_after before m)
    by reflexivity.
  rewrite E. destruct (at_or_after before m); cbn [map]; now rewrite IH.
Qed.

Lemma comparable_same (a b t : datetime) :
  comparable a b = true -> comparable t a = comparable t b.
Proof.
  unfold comparable. intros Hab. apply Bool.eqb_prop in Hab. now rewrite Hab.
Qed.

Lemma all_comparable_same (a b : datetime) (messages : list Message) :
  comparable a b = true ->
  all_comparable a messages = all_comparable b messages.
Proof.
  intros Hab. induction messages as [|m rest IH]; simpl; [reflexivity|].
  now rewrite IH, (comparable_same a b (timestamp m) Hab).
Qed.

Lemma filter_later_cutoff (before1 before2 : datetime) (messages : list Message) :
  comparable before1 before2 = true ->
  (instant before1 <= instant before2)%Z ->
  filter (at_or_after before2) (filter (at_or_after before1) messages)
  = filter (at_or_after before2) messages.
Proof.
  intros Hcmp Hle. induction messages as [|m rest IH]; simpl; [reflexivity|].
  destruct (at_or_after before1 m) eqn:E1; simpl.
  - now rewrite IH.
  - destruct (at_or_after before2 m) eqn:E2; [|exact IH].
    unfold at_or_after in E1, E2.
    rewrite (comparable_same before1 before2 (timestamp m) Hcmp) in E1.
    apply andb_prop in E2. destruct E2 as [E2 E3]. rewrite E2 in E1.
    cbn [andb] in E1. apply Z.leb_le in E3. apply Z.leb_gt in E1. lia.
Qed.

Lemma map_dumps_stored (messages : list Message) :
  map (fun msg => json_dumps (to_dict msg)) (map stored messages)
  = map (fun msg => json_dumps (to_dict msg)) messages.
Proof.
  rewrite map_map. apply map_ext. intros m. now rewrite to_dict_stored.
Qed.

Lemma rewritten_stored (messages : list Message) :
  rewritten ttl_seconds (map stored messages) = rewritten ttl_seconds messages.
Proof.
  destruct messages as [|m rest]; [reflexivity|].
  unfold rewritten. cbn [map].
  change (json_dumps (to_dict (stored m))
            :: map (fun msg => json_dumps (to_dict msg)) (map stored rest))
    with (map (fun msg => json_dumps (to_dict msg)) (map stored (m :: rest))).
  now rewrite map_dumps_stored.
Qed.

(** The prune of a log a prune left. *)
Lemma prune_of_rewritten (now : Z) (before : datetime) (kept : list Message) :
  (0 < ttl_seconds)%Z ->
  all_comparable before kept = true ->
  prune_old_messages ttl_seconds now before (rewritten ttl_seconds kept)
  = (Return (deleted_count kept (filter (at_or_after before) kept)),
     rewritten ttl_seconds (filter (at_or_after before) kept)).
Proof.
  intros Hpos Hcmp. rewrite prune_old_messages_spec. cbv zeta.
  rewrite rewritten_positive by exact Hpos. cbn [items].
  rewrite first_undecodable_written, stored_messages_written.
  rewrite all_comparable_stored, Hcmp, filter_map_stored, rewritten_stored.
  unfold deleted_count. now rewrite !length_map.
Qed.

Lemma not_all_comparable (t : datetime) (messages : list Message) :
  all_comparable t messages = false ->
  exists m, In m messages /\ comparable (timestamp m) t = false.
Proof.
  induction messages as [|m rest IH]; simpl; [discriminate|].
  destruct (comparable (timestamp m) t) eqn:E; simpl.
  - intros Hrest. destruct (IH Hrest) as [m' [Hin Hm']].
    exists m'. split; [now right | exact Hm'].
  - intros _. exists m. split; [now left | exact E].
Qed.

(** X6.  Two cutoffs that compare, the second at or after the first, on a
    log of text whose timestamps compare with them.  Under a positive
    time-to-live, pruning with the first and then with the second leaves
    the log that pruning with the second alone leaves, and the two counts
    add up to its count; pruning again with the same cutoff removes
    nothing and leaves the log as the first prune left it.  Under a
    time-to-live of zero or less the first prune already leaves nothing
    and the second counts nothing.  When a timestamp does not compare
    with the cutoffs, or an element is no text, each of the prunes raises
    and leaves the log as it was. *)
Theorem prune_then_prune (now : Z) (before1 before2 : datetime) (r : redis) :
  comparable before1 before2 = true ->
  (instant before1 <= instant before2)%Z ->
  let messages := stored_messages (items r) in
  (first_undecodable (items r) = None ->
   all_comparable before1 messages = true ->
   exists count1 count2 count r1 r2 r2',
     prune_old_messages ttl_seconds now before1 r = (Return count1, r1)
     /\ prune_old_messages ttl_seconds now before2 r1 = (Return count2, r2)
     /\ prune_old_messages ttl_seconds now before2 r = (Return count, r2')
     /\ ((0 < ttl_seconds)%Z ->
         r2 = r2' /\ (count1 + count2 = count)%Z
         /\ (before1 = before2 -> count2 = 0%Z /\ r2 = r1))
     /\ ((ttl_seconds <= 0)%Z ->
         r1 = mkRedis [] None /\ count2 = 0%Z /\ r2 = mkRedis [] None
         /\ r2' = mkRedis [] None))
  /\ (first_undecodable (items r) = None ->
      all_comparable before1 messages = false ->
      prune_old_messages ttl_seconds now before1 r
      = (Raise (prune_fault now before1), r)
      /\ prune_old_messages ttl_seconds now before2 r
         = (Raise (prune_fault now before2), r))
  /\ (forall reason,
        first_undecodable (items r) = Some reason ->
        prune_old_messages ttl_seconds now before1 r
        = (Raise (read_fault now None reason), r)
        /\ prune_old_messages ttl_seconds now before2 r
           = (Raise (read_fault now None reason), r)).
Proof.
  intros Hcmp Hle messages.
  pose proof (prune_old_messages_spec ttl_seconds now before1 r) as H1.
  pose proof (prune_old_messages_spec ttl_seconds now before2 r) as H2.
  cbv zeta in H1, H2. fold messages in H1, H2.
  rewrite <- (all_comparable_same before1 before2 messages Hcmp) in H2.
  split; [|split].
  - intros Htext Hall. rewrite Htext, Hall in H1, H2.
    set (keep1 := filter (at_or_after before1) messages) in *.
    set (keep2 := filter (at_or_after before2) messages) in *.
    assert (Hkeep : filter (at_or_after before2) keep1 = keep2)
      by (now apply filter_later_cutoff).
    assert (Hall1 : all_comparable before2 keep1 = true).
    { rewrite <- (all_comparable_same before1 before2 keep1 Hcmp).
      now apply all_comparable_filter. }
    destruct (Z_lt_le_dec 0 ttl_seconds) as [Hpos | Hneg].
    + exists (deleted_count messages keep1), (deleted_count keep1 keep2),
             (deleted_count messages keep2),
             (rewritten ttl_seconds keep1), (rewritten ttl_seconds keep2),
             (rewritten ttl_seconds keep2).
      split; [exact H1|].
      split; [rewrite prune_of_rewritten by assumption; now rewrite Hkeep|].
      split; [exact H2|]. split; [|lia].
      intros _. split; [reflexivity|].
      split; [unfold deleted_count; lia|].
      intros Heq. subst before2. unfold keep2. fold keep1.
      split; [unfold deleted_count; lia | reflexivity].
    + exists (deleted_count messages keep1), 0%Z,
             (deleted_count messages keep2),
             (mkRedis [] None), (mkRedis [] None), (mkRedis [] None).
      rewrite rewritten_nonpositive in H1, H2 by exact Hneg.
      split; [exact H1|]. split; [|split; [exact H2|]].
      * rewrite prune_old_messages_spec. reflexivity.
      * split; [lia|]. intros _. repeat split.
  - intros Htext Hall. rewrite Htext, Hall in H1, H2. now split.
  - intros reason Hbad. rewrite Hbad in H1, H2. now split.
Qed.

(** X7.  On a log of text whose timestamps all compare with [before],
    under a positive time-to-live, a prune keeps what a read from its
    cutoff returned: the messages [get_messages(since=before)] returns
    are, once [prune_old_messages(before)] has run, the whole of what
    [get_messages()] returns (each as its record holds it), and reading
    them again from [before] still returns them all.  When a timestamp
    does not compare with [before], the read skips its message and the
    prune raises and leaves it in the log; under a time-to-live of zero
    or less the prune leaves nothing. *)
Theorem prune_keeps_what_since_reads (now : Z) (before : datetime) (r : redis) :
  let messages := stored_messages (items r) in
  let recent := filter (at_or_after before) messages in
  (first_undecodable (items r) = None ->
   get_messages now None (Some before) r = (Return recent, r)
   /\ (all_comparable before messages = true ->
       exists count r',
         prune_old_messages ttl_seconds now before r = (Return count, r')
         /\ ((0 < ttl_seconds)%Z ->
             get_messages now None None r' = (Return (map stored recent), r')
             /\ get_messages now None (Some before) r'
                = (Return (map stored recent), r')
             /\ (Forall written (items r) -> map stored recent = recent))
         /\ ((ttl_seconds <= 0)%Z ->
             get_messages now None None r' = (Return [], r')))
   /\ (all_comparable before messages = false ->
       prune_old_messages ttl_seconds now before r
       = (Raise (prune_fault now before), r)
       /\ exists m, In m messages /\ ~ In m recent))
  /\ (forall reason,
        first_undecodable (items r) = Some reason ->
        get_messages now None (Some before) r
        = (Raise (read_fault now None reason), r)
        /\ prune_old_messages ttl_seconds now before r
           = (Raise (read_fault now None reason), r)).
Proof.
  intros messages recent.
  pose proof (prune_old_messages_spec ttl_seconds now before r) as Hprune.
  cbv zeta in Hprune. fold messages in Hprune. fold recent in Hprune.
  split.
  - intros Htext. rewrite Htext in Hprune.
    split; [now rewrite get_messages_spec, Htext|]. split.
    + intros Hall. rewrite Hall in Hprune.
      eexists _, _. split; [exact Hprune|]. split.
      * intros Hpos. rewrite rewritten_positive by exact Hpos.
        rewrite !get_messages_spec. cbn [items].
        rewrite first_undecodable_written, stored_messages_written.
        unfold apply_limit. rewrite filter_not_before_None.
        change (not_before (Some before)) with (at_or_after before).
        split; [reflexivity|]. split.
        -- rewrite filter_map_stored. unfold recent.
           assert (Hidem : filter (at_or_after before)
                             (filter (at_or_after before) messages)
                           = filter (at_or_after before) messages).
           { clear. induction messages as [|m rest IH]; simpl; [reflexivity|].
             destruct (at_or_after before m) eqn:E; simpl; [|exact IH].
             now rewrite E, IH. }
           now rewrite Hidem.
        -- intros Hw. apply map_fixed_filter.
           now apply stored_messages_of_written.
      * intros Hneg. now rewrite rewritten_nonpositive by exact Hneg.
    + intros Hall. rewrite Hall in Hprune. split; [exact Hprune|].
      destruct (not_all_comparable _ _ Hall) as [m [Hin Hm]].
      exists m. split; [exact Hin|]. unfold recent. rewrite filter_In.
      unfold at_or_after. rewrite Hm. intros [_ Hfalse]. discriminate Hfalse.
  - intros reason Hbad. rewrite Hbad in Hprune.
    split; [now rewrite get_messages_spec, Hbad | exact Hprune].
Qed.
End PruneComposition.

Section RenderingFacts.
Context `{IsoFormat} `{PyFormat}.
Variable ttl_seconds : Z.

Lemma append_assoc (a b c : string) : (a +:+ b) +:+ c = a +:+ b +:+ c.
Proof. induction a as [|ch a IH]; simpl; [reflexivity | now rewrite IH]. Qed.

(** The text [join] makes ends with the last line. *)
Lemma join_last (sep : string) (lines : list string) (last : string) :
  exists head, join sep (lines ++ [last]) = head +:+ last.
Proof.
  unfold join. induction lines as [|line rest [head IH]]; simpl.
  - now exists "".
  - destruct (rest ++ [last]) as [|x xs] eqn:E.
    + now destruct rest.
    + exists (line +:+ sep +:+ head). rewrite IH. now rewrite !append_assoc.
Qed.

Lemma fold_left_lines {A} (f : A -> list string) (l : list A) (lines : list string) :
  fold_left (fun lines x => lines ++ f x) l lines = lines ++ flat_map f l.
Proof.
  revert lines. induction l as [|x rest IH]; intros lines; simpl.
  - now rewrite app_nil_r.
  - now rewrite IH, app_assoc.
Qed.

(** [format_for_llm] on any log: the fault of its read, or the lines it
    joins. *)
Lemma format_for_llm_spec (now : Z) (limit : option Z)
    (system_prompt : option string) (r : redis) :
  format_for_llm now limit system_prompt r
  = match first_undecodable (items r) with
    | Some reason => (Raise (read_fault now limit reason), r)
    | None =>
        (Return (join nl (render_system system_prompt
                            ++ flat_map render_message
                                 (apply_limit limit (stored_messages (items r)))
                            ++ ["<|assistant|>"])), r)
    end.
Proof.
  unfold format_for_llm, mtry, mbind.
  rewrite get_messages_spec.
  destruct (first_undecodable (items r)) as [reason|]; [reflexivity|].
  rewrite filter_not_before_None. unfold ret.
  now rewrite fold_left_lines, app_assoc.
Qed.

(** X8.  On every log of text, [format_for_llm] returns a text that ends
    with the open assistant tag; it is that tag alone when the log is
    empty and the system prompt is absent or empty.  On a log with an
    element that is no text it raises the [ContextError] of its read.
    Either way the log is left as it was. *)
Theorem format_for_llm_ends_with_assistant (now : Z) (limit : option Z)
    (system_prompt : option string) (r : redis) :
  (first_undecodable (items r) = None ->
   exists text head,
     format_for_llm now limit system_prompt r = (Return text, r)
     /\ text = head +:+ "<|assistant|>"
     /\ (items r = [] -> system_prompt = None \/ system_prompt = Some "" ->
         text = "<|assistant|>"))
  /\ (forall reason,
        first_undecodable (items r) = Some reason ->
        format_for_llm now limit system_prompt r
        = (Raise (read_fault now limit reason), r)).
Proof.
  rewrite format_for_llm_spec. split.
  - intros Htext. rewrite Htext.
    destruct (join_last nl
                (render_system system_prompt
                   ++ flat_map render_message
                        (apply_limit limit (stored_messages (items r))))
                "<|assistant|>") as [head Hhead].
    eexists _, head. split; [reflexivity|]. split.
    + now rewrite app_assoc.
    + intros Hempty Hprompt. rewrite Hempty.
      destruct Hprompt as [-> | ->]; destruct limit as [n|]; simpl;
        try reflexivity; now destruct (negb (n =? 0)%Z && (0 <? n)%Z).
  - intros reason Hbad. now rewrite Hbad.
Qed.

Lemma render_message_other_role (m : Message) :
  role m <> JStr "user" -> role m <> JStr "assistant" -> role m <> JStr "system" ->
  render_message m = [].
Proof.
  intros Hu Ha Hs.
  unfold render_message. destruct (role m) as [| | | |s| |]; try reflexivity.
  destruct (String.eqb_spec s "user") as [-> | Nu]; [congruence|].
  destruct (String.eqb_spec s "assistant") as [-> | Na]; [congruence|].
  destruct (String.eqb_spec s "system") as [-> | Ns]; [congruence|].
  clear - Nu Na Ns.
  repeat (destruct s as [|[[] [] [] [] [] [] [] []] s];
          try reflexivity; try congruence).
Qed.

(** X9.  A record leaves no trace in what [format_for_llm(limit=None)]
    gives when it is text and does not deserialize, or when the role of
    its message is none of [user], [assistant] and [system]: the text, or
    the fault, is the one of the log without that record.  A record that
    is no UTF-8 text does leave one: [format_for_llm] raises the
    [ContextError] of its read. *)
Theorem format_for_llm_skips_record (now : Z)
    (system_prompt : option string) (pre post : list raw) (record : raw)
    (expiry : option Z) :
  ((corrupted record = true
    \/ exists message,
         decode record = Return message
         /\ role message <> JStr "user" /\ role message <> JStr "assistant"
         /\ role message <> JStr "system") ->
   fst (format_for_llm now None system_prompt (mkRedis (pre ++ record :: post) expiry))
   = fst (format_for_llm now None system_prompt (mkRedis (pre ++ post) expiry)))
  /\ (forall reason,
        record = NotUtf8 reason ->
        exists reason',
          format_for_llm now None system_prompt
            (mkRedis (pre ++ record :: post) expiry)
          = (Raise (read_fault now None reason'),
             mkRedis (pre ++ record :: post) expiry)).
Proof.
  split.
  - intros Hskip.
    assert (Htext : forall reason, record <> NotUtf8 reason).
    { intros reason ->. destruct Hskip as [Hc | [m [Hm _]]]; discriminate. }
    rewrite !format_for_llm_spec. cbn [items apply_limit].
    rewrite (first_undecodable_text pre post Htext).
    destruct (first_undecodable (pre ++ post)); [reflexivity|].
    cbn [fst]. do 3 f_equal.
    change (pre ++ record :: post) with (pre ++ [record] ++ post).
    rewrite !stored_messages_app, !flat_map_app.
    replace (flat_map render_message (stored_messages [record]))
      with (@nil string); [reflexivity|].
    destruct Hskip as [Hc | [m [Hm [Hu [Ha Hs]]]]].
    + now rewrite (stored_messages_corrupted _ Hc).
    + unfold stored_messages. cbn [flat_map]. rewrite Hm. cbn [app flat_map].
      now rewrite render_message_other_role.
  - intros reason ->. rewrite format_for_llm_spec. cbn [items].
    rewrite first_undecodable_app. cbn [first_undecodable].
    destruct (first_undecodable pre) as [reason'|]; eexists; reflexivity.
Qed.

(** X10.  [add_message] with a role that is [user], [assistant] or
    [system] and a metadata JSON carries, and [format_for_llm(limit=None)]
    before and after it.  Under a positive time-to-live, on a log of text,
    the append adds one line to the text, just before the open assistant
    tag: the role's tag, a line feed, the content as it was given, and the
    end tag; on a log with an element that is no text the rendering still
    raises.  Under a time-to-live of zero or less the append leaves no log
    and the text is the system prompt and the open tag. *)
Theorem format_for_llm_after_append (now later : Z)
    (role content : string) (client_id : option string)
    (metadata : option (dict json)) (system_prompt : option string) (r : redis) :
  role = "user" \/ role = "assistant" \/ role = "system" ->
  exists r',
    add_message ttl_seconds now role content client_id
      (option_map Accepted metadata) r = (Return tt, r')
    /\ ((0 < ttl_seconds)%Z -> first_undecodable (items r) = None ->
        exists lines,
          format_for_llm later None system_prompt r
          = (Return (join nl (lines ++ ["<|assistant|>"])), r)
          /\ format_for_llm later None system_prompt r'
             = (Return (join nl (lines ++ [ "<|" +:+ role +:+ "|>" +:+ nl +:+ content
                                              +:+ "<|end|>";
                                            "<|assistant|>" ])), r'))
    /\ ((0 < ttl_seconds)%Z ->
        forall reason,
          first_undecodable (items r) = Some reason ->
          format_for_llm later None system_prompt r'
          = (Raise (read_fault later None reason), r'))
    /\ ((ttl_seconds <= 0)%Z ->
        format_for_llm later None system_prompt r'
        = (Return (join nl (render_system system_prompt ++ ["<|assistant|>"])), r')).
Proof.
  intros Hrole. eexists. split; [apply add_message_spec|].
  split; [|split].
  - intros Hpos Htext.
    exists (render_system system_prompt
              ++ flat_map render_message (stored_messages (items r))).
    split.
    { rewrite format_for_llm_spec, Htext. cbn [apply_limit].
      now rewrite app_assoc. }
    rewrite (EXPIRE_pushed_positive _ [] r Hpos).
    rewrite format_for_llm_spec. cbn [apply_limit items].
    rewrite first_undecodable_app, Htext. cbn [first_undecodable].
    rewrite stored_messages_app, stored_messages_one, flat_map_app.
    cbn [flat_map]. rewrite app_nil_r.
    assert (Hline : render_message
                      (stored (new_message now role content client_id metadata))
                    = ["<|" +:+ role +:+ "|>" +:+ nl +:+ content +:+ "<|end|>"]).
    { unfold render_message, stored, new_message. simpl. rewrite py_format_str.
      destruct Hrole as [-> | [-> | ->]]; reflexivity. }
    rewrite Hline. now rewrite <- !app_assoc.
  - intros Hpos reason Hbad.
    rewrite (EXPIRE_pushed_positive _ [] r Hpos).
    rewrite format_for_llm_spec. cbn [items].
    now rewrite first_undecodable_app, Hbad.
  - intros Hneg. now rewrite (EXPIRE_pushed_nonpositive _ [] r Hneg).
Qed.
End RenderingFacts.

(* ================================================================== *)
(** * Further properties of the registry                               *)
(* ================================================================== *)

Section DictMoreFacts.
Variable V : Type.

Lemma dict_in_keys (k : string) (d : dict V) :
  dict_in k d = true <-> In k (keys d).
Proof.
  unfold dict_in. destruct (dict_get k d) eqn:E.
  - split; [|reflexivity]. intros _.
    destruct (in_dec string_dec k (keys d)) as [Hin | Hnot]; [exact Hin|].
    apply dict_get_None in Hnot. congruence.
  - apply dict_get_None in E. split; [discriminate | contradiction].
Qed.

Lemma keys_dict_del (k : string) (d : dict V) :
  keys (dict_del k d) = filter (fun k' => negb (k =? k')) (keys d).
Proof.
  induction d as [|[k' v'] rest IH]; simpl; [reflexivity|].
  destruct (k =? k'); simpl; now rewrite IH.
Qed.

Lemma dict_get_del_same (k : string) (d : dict V) :
  dict_get k (dict_del k d) = None.
Proof.
  induction d as [|[k' v'] rest IH]; simpl; [reflexivity|].
  destruct (k =? k') eqn:E; simpl; [exact IH | now rewrite E].
Qed.

Lemma dict_get_del_other (k k' : string) (d : dict V) :
  k <> k' -> dict_get k (dict_del k' d) = dict_get k d.
Proof.
  intros Hne. induction d as [|[k0 v0] rest IH]; simpl; [reflexivity|].
  destruct (k' =? k0) eqn:E; simpl.
  - apply String.eqb_eq in E. subst k0.
    apply String.eqb_neq in Hne. now rewrite Hne.
  - now rewrite IH.
Qed.

Lemma dict_del_fresh (k : string) (d : dict V) :
  ~ In k (keys d) -> dict_del k d = d.
Proof.
  induction d as [|[k0 v0] rest IH]; simpl; intros Hfresh; [reflexivity|].
  destruct (k =? k0) eqn:E.
  - apply String.eqb_eq in E. subst k0. tauto.
  - rewrite IH; [reflexivity | tauto].
Qed.

Lemma dict_del_set_fresh (k : string) (v : V) (d : dict V) :
  ~ In k (keys d) -> dict_del k (dict_set k v d) = d.
Proof.
  intros Hfresh. rewrite dict_set_fresh by exact Hfresh.
  induction d as [|[k0 v0] rest IH]; simpl.
  - now rewrite String.eqb_refl.
  - simpl in Hfresh. destruct (k =? k0) eqn:E.
    + apply String.eqb_eq in E. subst k0. tauto.
    + rewrite IH; [reflexivity | tauto].
Qed.

Lemma unique_keys_dict_del (k : string) (d : dict V) :
  unique_keys d -> unique_keys (dict_del k d).
Proof.
  unfold unique_keys. rewrite keys_dict_del. apply NoDup_filter.
Qed.

Lemma dict_set_same_value (k : string) (v : V) (d : dict V) :
  dict_get k d = Some v -> dict_set k v d = d.
Proof.
  induction d as [|[k0 v0] rest IH]; simpl; [discriminate|].
  destruct (k =? k0) eqn:E.
  - apply String.eqb_eq in E. subst k0. intros Heq. now inversion Heq.
  - intros Hget. now rewrite IH.
Qed.

(** [{**d, **extra}] read at a key: the value of [extra] when it has one. *)
Lemma dict_get_update (k : string) (extra : dict V) :
  forall d : dict V,
    unique_keys extra ->
    dict_get k (dict_update d extra)
    = match dict_get k extra with
      | Some v => Some v
      | None => dict_get k d
      end.
Proof.
  unfold dict_update.
  induction extra as [|[k0 v0] rest IH]; intros d Huniq; simpl; [reflexivity|].
  inversion Huniq as [|? ? Hfresh Hrest]; subst.
  rewrite IH by exact Hrest.
  destruct (k =? k0) eqn:E.
  - apply String.eqb_eq in E. subst k0.
    apply dict_get_None in Hfresh. rewrite Hfresh.
    apply dict_get_set_same.
  - destruct (dict_get k rest); [reflexivity|].
    apply dict_get_set_other. now apply String.eqb_neq.
Qed.
End DictMoreFacts.

Lemma dict_in_same_keys {V W} (k : string) (d : dict V) (d' : dict W) :
  keys d = keys d' -> dict_in k d = dict_in k d'.
Proof.
  intros Hkeys.
  destruct (dict_in k d) eqn:E, (dict_in k d') eqn:E'; try reflexivity.
  - apply dict_in_keys in E. rewrite Hkeys in E. apply dict_in_keys in E. congruence.
  - apply dict_in_keys in E'. rewrite <- Hkeys in E'. apply dict_in_keys in E'.
    congruence.
Qed.

Section LoadingFacts.
Variable fs : filesystem.
Variable now : datetime.

(** [load_plugin] finds, then registers. *)
Lemma load_plugin_as_result (plugin_name : string) (self : PluginLoader) :
  load_plugin fs now plugin_name self
  = match load_result fs now (plugins_dir self) plugin_name with
    | Return found => (Return tt, register plugin_name found self)
    | Raise e => (Raise e, self)
    end.
Proof.
  rewrite load_plugin_cases. cbv zeta. unfold load_result.
  destruct (fs (path_join (plugins_dir self) plugin_name)) as [folder|];
    [|reflexivity].
  destruct (_load_manifest now _ folder) as [manifest|e]; [|reflexivity].
  cbn [bind].
  destruct (py_get manifest "enabled" (JBool true)) as [enabled|e]; [|reflexivity].
  cbn [bind]. destruct (negb (truthy enabled)); [reflexivity|].
  destruct (_load_plugin_module now _ plugin_name folder) as [plugin|e];
    [|reflexivity].
  cbn [bind]. destruct (on_load plugin) as [[]|e]; reflexivity.
Qed.

Lemma plugins_dir_register (plugin_name : string)
    (found : option (PluginInterface * json)) (self : PluginLoader) :
  plugins_dir (register plugin_name found self) = plugins_dir self.
Proof. now destruct found as [[plugin manifest]|]. Qed.

Lemma consistent_register (plugin_name : string)
    (found : option (PluginInterface * json)) (self : PluginLoader) :
  consistent self -> consistent (register plugin_name found self).
Proof.
  intros [Hkeys Huniq]. destruct found as [[plugin manifest]|]; [|now split].
  split; simpl.
  - rewrite !keys_dict_set, Hkeys.
    now rewrite (dict_in_same_keys plugin_name _ _ Hkeys).
  - now apply unique_keys_dict_set.
Qed.

Lemma same_entry_register (name plugin_name : string)
    (found : option (PluginInterface * json)) (self : PluginLoader) :
  name <> plugin_name -> same_entry name self (register plugin_name found self).
Proof.
  intros Hne. destruct found as [[plugin manifest]|]; [|now split].
  unfold same_entry, get_plugin, get_plugin_manifest. simpl.
  now rewrite !dict_get_set_other by exact Hne.
Qed.

Lemma same_entry_refl (name : string) (self : PluginLoader) :
  same_entry name self self.
Proof. now split. Qed.

Lemma same_entry_trans (name : string) (s1 s2 s3 : PluginLoader) :
  same_entry name s1 s2 -> same_entry name s2 s3 -> same_entry name s1 s3.
Proof.
  unfold same_entry. intros [H1 H2] [H3 H4]. split; congruence.
Qed.

Lemma check_required_first_missing (manifest_path : string) (fields : dict json)
    (before after : list string) (missing : string) :
  (forall field, In field before -> dict_in field fields = true) ->
  dict_in missing fields = false ->
  check_required now manifest_path (JObj fields) (before ++ missing :: after)
  = Raise (mkConfigurationError missing
             ("Missing required field '" +:+ missing +:+ "' in " +:+ manifest_path)
             None now).
Proof.
  induction before as [|f rest IH]; simpl; intros Hall Hmissing.
  - now rewrite Hmissing.
  - rewrite (Hall f (or_introl eq_refl)). simpl. apply IH; [|exact Hmissing].
    intros field Hin. apply Hall. now right.
Qed.

(** X11.  A manifest that has its four required fields and whose [enabled]
    is false, or any value Python reads as false, makes [load_plugin]
    return without registering anything, whatever the handler is: it is not
    looked at. *)
Theorem load_plugin_disabled (plugin_name : string) (self : PluginLoader)
    (folder : plugin_folder) (fields : dict json) (flag : json) :
  fs (path_join (plugins_dir self) plugin_name) = Some folder ->
  manifest_file folder = Some (Return (JObj fields)) ->
  (forall field, In field required_fields -> dict_in field fields = true) ->
  dict_get "enabled" fields = Some flag ->
  truthy flag = false ->
  load_plugin fs now plugin_name self = (Return tt, self).
Proof.
  intros Hfs Hfile Hfields Hflag Hfalse.
  rewrite load_plugin_cases. cbv zeta. rewrite Hfs.
  unfold _load_manifest, try_except. rewrite Hfile. cbn [bind].
  rewrite check_required_present by exact Hfields. cbn [bind py_get].
  rewrite Hflag, Hfalse. reflexivity.
Qed.

(** X12.  After a [load_plugin] that returned on an enabled manifest,
    [get_plugin_manifest] gives the manifest of the file as it is and
    [get_plugin] the instance the handler's class made; the entries of the
    other names are what they were. *)
Theorem load_plugin_then_get (plugin_name : string) (self self' : PluginLoader)
    (folder : plugin_folder) (fields : dict json) :
  load_plugin fs now plugin_name self = (Return tt, self') ->
  fs (path_join (plugins_dir self) plugin_name) = Some folder ->
  manifest_file folder = Some (Return (JObj fields)) ->
  match dict_get "enabled" fields with
  | Some flag => truthy flag = true
  | None => True
  end ->
  get_plugin_manifest self' plugin_name = Some (JObj fields)
  /\ (exists plugin,
        get_plugin self' plugin_name = Some plugin
        /\ _load_plugin_module now (path_join (plugins_dir self) plugin_name)
             plugin_name folder = Return plugin
        /\ on_load plugin = Return tt)
  /\ forall other, other <> plugin_name -> same_entry other self self'.
Proof.
  intros Hload Hfs Hfile Henabled.
  rewrite load_plugin_as_result in Hload. unfold load_result in Hload.
  rewrite Hfs in Hload. unfold _load_manifest, try_except in Hload.
  rewrite Hfile in Hload. cbn [bind] in Hload.
  destruct (check_required now _ (JObj fields) required_fields) as [[]|e] eqn:Ec;
    cbn [bind py_get] in Hload.
  2: { apply check_required_raises in Ec. rewrite Ec in Hload.
       discriminate Hload. }
  assert (Hflag : negb (truthy (match dict_get "enabled" fields with
                                | Some v => v | None => JBool true end)) = false).
  { destruct (dict_get "enabled" fields); [now rewrite Henabled | reflexivity]. }
  destruct (dict_get "enabled" fields) as [flag|]; cbn [bind] in Hload;
    rewrite Hflag in Hload;
    (destruct (_load_plugin_module now _ plugin_name folder) as [plugin|e] eqn:Ep;
     cbn [bind] in Hload; [|discriminate Hload];
     destruct (on_load plugin) as [[]|e] eqn:El; cbn [bind] in Hload;
     [|discriminate Hload];
     inversion Hload; subst self';
     split; [unfold get_plugin_manifest; simpl; apply dict_get_set_same|];
     split;
     [ exists plugin; split;
       [unfold get_plugin; simpl; apply dict_get_set_same | now split]
     | intros other Hne;
       exact (same_entry_register (Some (plugin, JObj fields)) self Hne) ]).
Qed.

(** X13.  A manifest that is a JSON object without one of the required
    fields makes [_load_manifest] raise a [ConfigurationError] that names
    the first field missing, in the order [name], [version], [description],
    [intents]; [load_plugin] raises that fault and leaves the registry as
    it was. *)
Theorem load_plugin_first_missing_field (plugin_name : string) (self : PluginLoader)
    (folder : plugin_folder) (fields : dict json)
    (before after : list string) (missing : string) :
  fs (path_join (plugins_dir self) plugin_name) = Some folder ->
  manifest_file folder = Some (Return (JObj fields)) ->
  required_fields = before ++ missing :: after ->
  (forall field, In field before -> dict_in field fields = true) ->
  dict_in missing fields = false ->
  let fault :=
    mkConfigurationError missing
      ("Missing required field '" +:+ missing +:+ "' in "
         +:+ path_join (path_join (plugins_dir self) plugin_name) "plugin.json")
      None now in
  _load_manifest now (path_join (plugins_dir self) plugin_name) folder = Raise fault
  /\ load_plugin fs now plugin_name self = (Raise fault, self).
Proof.
  intros Hfs Hfile Hsplit Hbefore Hmissing fault.
  assert (Hmanifest : _load_manifest now (path_join (plugins_dir self) plugin_name)
                        folder = Raise fault).
  { unfold _load_manifest, try_except. rewrite Hfile. cbn [bind].
    rewrite Hsplit.
    rewrite check_required_first_missing by assumption. reflexivity. }
  split; [exact Hmanifest|].
  rewrite load_plugin_cases. cbv zeta. now rewrite Hfs, Hmanifest.
Qed.

(** X14.  [load_plugin] keeps the registry consistent, whether it returns
    or raises: the loaded plugins and the manifests hold the same names,
    each once. *)
Theorem load_plugin_keeps_consistent (plugin_name : string)
    (self self' : PluginLoader) (result : outcome unit) :
  consistent self ->
  load_plugin fs now plugin_name self = (result, self') ->
  consistent self'.
Proof.
  intros Hcons Hload. rewrite load_plugin_as_result in Hload.
  destruct (load_result fs now (plugins_dir self) plugin_name) as [found|e];
    inversion Hload; subst; [now apply consistent_register | exact Hcons].
Qed.
End LoadingFacts.

Section UnloadingFacts.
Variable fs : filesystem.
Variable now : datetime.

(** [unload_plugin] on a consistent registry. *)
Lemma unload_plugin_cases (plugin_name : string) (self : PluginLoader) :
  consistent self ->
  unload_plugin plugin_name self
  = match get_plugin self plugin_name with
    | None => (Return tt, self)
    | Some plugin =>
        match on_unload plugin with
        | Raise e => (Raise e, self)
        | Return _ =>
            (Return tt,
             mkLoader (plugins_dir self)
               (dict_del plugin_name (loaded_plugins self))
               (dict_del plugin_name (plugin_manifests self)))
        end
    end.
Proof.
  intros [Hkeys _]. unfold unload_plugin, get_plugin, mbind, get.
  destruct (dict_get plugin_name (loaded_plugins self)) as [plugin|] eqn:Eget;
    [|reflexivity].
  unfold lift. destruct (on_unload plugin) as [[]|e]; [|reflexivity].
  assert (Hin : dict_in plugin_name (loaded_plugins self) = true)
    by (unfold dict_in; now rewrite Eget).
  unfold del_loaded_plugin, del_plugin_manifest, py_del.
  rewrite Hin. cbn [plugin_manifests set_loaded_plugins].
  rewrite <- (dict_in_same_keys plugin_name _ _ Hkeys), Hin. reflexivity.
Qed.

Lemma consistent_deleted (plugin_name : string) (self : PluginLoader) :
  consistent self ->
  consistent (mkLoader (plugins_dir self)
                (dict_del plugin_name (loaded_plugins self))
                (dict_del plugin_name (plugin_manifests self))).
Proof.
  intros [Hkeys Huniq]. split; simpl.
  - now rewrite !keys_dict_del, Hkeys.
  - now apply unique_keys_dict_del.
Qed.

(** X15.  On a consistent registry [unload_plugin] raises nothing of its
    own.  A name that is not loaded is left alone and the call returns; a
    plugin whose [on_unload] raises stays registered and the fault comes
    out; otherwise the call returns, the name is in neither dictionary any
    more, the other entries are what they were and the registry is still
    consistent. *)
Theorem unload_plugin_behaviour (plugin_name : string) (self : PluginLoader) :
  consistent self ->
  (get_plugin self plugin_name = None ->
   unload_plugin plugin_name self = (Return tt, self))
  /\ (forall plugin e,
        get_plugin self plugin_name = Some plugin ->
        on_unload plugin = Raise e ->
        unload_plugin plugin_name self = (Raise e, self))
  /\ (forall plugin,
        get_plugin self plugin_name = Some plugin ->
        on_unload plugin = Return tt ->
        exists self',
          unload_plugin plugin_name self = (Return tt, self')
          /\ get_plugin self' plugin_name = None
          /\ get_plugin_manifest self' plugin_name = None
          /\ (forall other, other <> plugin_name -> same_entry other self self')
          /\ consistent self').
Proof.
  intros Hcons. rewrite (unload_plugin_cases plugin_name Hcons).
  split; [|split].
  - intros Hnone. now rewrite Hnone.
  - intros plugin e Hsome Hraise. now rewrite Hsome, Hraise.
  - intros plugin Hsome Hret. rewrite Hsome, Hret.
    eexists. split; [reflexivity|].
    unfold get_plugin, get_plugin_manifest, same_entry. simpl.
    split; [apply dict_get_del_same|]. split; [apply dict_get_del_same|].
    split.
    + intros other Hne. unfold get_plugin, get_plugin_manifest. simpl.
      now rewrite !dict_get_del_other by exact Hne.
    + now apply consistent_deleted.
Qed.

(** X16.  Loading a name that is in neither dictionary and unloading it
    again gives the registry back as it was, when the load registered an
    instance and its [on_unload] returns. *)
Theorem load_then_unload (plugin_name : string) (self loaded : PluginLoader)
    (plugin : PluginInterface) :
  consistent self ->
  get_plugin self plugin_name = None ->
  load_plugin fs now plugin_name self = (Return tt, loaded) ->
  get_plugin loaded plugin_name = Some plugin ->
  on_unload plugin = Return tt ->
  unload_plugin plugin_name loaded = (Return tt, self).
Proof.
  intros Hcons Hfresh Hload Hget Hret.
  assert (Hcons' : consistent loaded).
  { rewrite load_plugin_as_result in Hload.
    destruct (load_result fs now (plugins_dir self) plugin_name) as [found|e];
      inversion Hload; subst. now apply consistent_register. }
  rewrite (unload_plugin_cases plugin_name Hcons'), Hget, Hret.
  rewrite load_plugin_as_result in Hload.
  destruct (load_result fs now (plugins_dir self) plugin_name) as [[[p m]|]|e];
    inversion Hload; subst loaded; clear Hload.
  - destruct Hcons as [Hkeys _].
    assert (Hnot : ~ In plugin_name (keys (loaded_plugins self)))
      by (now apply dict_get_None).
    assert (Hnot' : ~ In plugin_name (keys (plugin_manifests self)))
      by (now rewrite <- Hkeys).
    simpl. rewrite !dict_del_set_fresh by assumption.
    now destruct self.
  - simpl in Hget. congruence.
Qed.
End UnloadingFacts.

Section UnloadAllFacts.

Lemma dict_get_In {V} (k : string) (v : V) (d : dict V) :
  dict_get k d = Some v -> In (k, v) d.
Proof.
  induction d as [|[k0 v0] rest IH]; simpl; [discriminate|].
  destruct (k =? k0) eqn:E.
  - apply String.eqb_eq in E. subst k0. intros Heq. inversion Heq. now left.
  - intros Hget. right. now apply IH.
Qed.

Lemma In_dict_del {V} (k : string) (entry : string * V) (d : dict V) :
  In entry (dict_del k d) -> In entry d.
Proof.
  induction d as [|[k0 v0] rest IH]; simpl; [tauto|].
  destruct (k =? k0); simpl; intuition.
Qed.

Lemma remove_all_covered {V} (names : list string) :
  forall d : dict V,
    (forall k, In k (keys d) -> In k names) -> remove_all names d = [].
Proof.
  unfold remove_all.
  induction names as [|n rest IH]; intros d Hcover; simpl.
  - destruct d as [|[k v] d]; [reflexivity|].
    exfalso. apply (Hcover k). now left.
  - apply IH. intros k Hk. rewrite keys_dict_del in Hk.
    apply filter_In in Hk. destruct Hk as [Hk Hne].
    destruct (Hcover k Hk) as [-> | Hin]; [|exact Hin].
    now rewrite String.eqb_refl in Hne.
Qed.

Lemma remove_all_prefix {V} (before : dict V) :
  forall rest : dict V,
    unique_keys (before ++ rest) -> remove_all (keys before) (before ++ rest) = rest.
Proof.
  unfold remove_all, unique_keys, keys.
  induction before as [|[k v] before IH]; intros rest Huniq; simpl; [reflexivity|].
  simpl in Huniq. inversion Huniq as [|? ? Hfresh Hrest]; subst.
  rewrite String.eqb_refl. rewrite dict_del_fresh by exact Hfresh.
  now apply IH.
Qed.

Lemma unload_loop_app (names1 names2 : list string) :
  forall self,
    unload_loop (names1 ++ names2) self
    = match unload_loop names1 self with
      | (Return _, self') => unload_loop names2 self'
      | (Raise e, self') => (Raise e, self')
      end.
Proof.
  induction names1 as [|n rest IH]; intros self; simpl; [reflexivity|].
  unfold mbind. destruct (unload_plugin n self) as [[[]|e] s]; [apply IH | reflexivity].
Qed.

Lemma consistent_removed (names : list string) :
  forall self,
    consistent self ->
    consistent (mkLoader (plugins_dir self)
                  (remove_all names (loaded_plugins self))
                  (remove_all names (plugin_manifests self))).
Proof.
  unfold remove_all.
  induction names as [|n rest IH]; intros self Hcons; simpl.
  - now destruct self.
  - exact (IH _ (consistent_deleted n Hcons)).
Qed.

(** The loop of [unload_all_plugins] while the [on_unload] of the plugins
    it reaches return. *)
Lemma unload_loop_returns (names : list string) :
  forall self,
    consistent self ->
    (forall name plugin,
        In (name, plugin) (loaded_plugins self) -> In name names ->
        on_unload plugin = Return tt) ->
    unload_loop names self
    = (Return tt,
       mkLoader (plugins_dir self)
         (remove_all names (loaded_plugins self))
         (remove_all names (plugin_manifests self))).
Proof.
  induction names as [|n rest IH]; intros self Hcons Hret; simpl.
  - now destruct self.
  - unfold mbind. rewrite (unload_plugin_cases n Hcons).
    destruct (get_plugin self n) as [plugin|] eqn:Eget.
    + rewrite (Hret n plugin (dict_get_In _ _ Eget) (or_introl eq_refl)).
      rewrite IH; [reflexivity | now apply consistent_deleted |].
      intros name p Hin Hname. simpl in Hin. apply In_dict_del in Hin.
      apply (Hret name p Hin). now right.
    + rewrite IH; [| exact Hcons |].
      * assert (Hnot : ~ In n (keys (loaded_plugins self)))
          by (now apply dict_get_None).
        assert (Hnot' : ~ In n (keys (plugin_manifests self)))
          by (destruct Hcons as [Hkeys _]; now rewrite <- Hkeys).
        unfold remove_all. simpl. now rewrite !dict_del_fresh by assumption.
      * intros name p Hin Hname. apply (Hret name p Hin). now right.
Qed.

Lemma In_unique_prefix {V} (before rest : dict V) (k : string) (v : V) :
  unique_keys (before ++ rest) ->
  In (k, v) (before ++ rest) -> In k (keys before) -> In (k, v) before.
Proof.
  unfold unique_keys, keys.
  induction before as [|[k0 v0] before IH]; simpl; intros Huniq Hin Hk; [contradiction|].
  inversion Huniq as [|? ? Hfresh Hrest]; subst.
  destruct Hin as [Heq | Hin]; [now left|].
  destruct Hk as [<- | Hk].
  - exfalso. apply Hfresh. now apply (in_map fst) in Hin.
  - right. now apply IH.
Qed.

(** X17.  On a consistent registry whose plugins all have an [on_unload]
    that returns, [unload_all_plugins] returns and leaves both dictionaries
    empty. *)
Theorem unload_all_plugins_empties (self : PluginLoader) :
  consistent self ->
  (forall name plugin,
      In (name, plugin) (loaded_plugins self) -> on_unload plugin = Return tt) ->
  unload_all_plugins self = (Return tt, mkLoader (plugins_dir self) [] []).
Proof.
  intros Hcons Hret. unfold unload_all_plugins, mbind, get.
  rewrite unload_loop_returns; [| exact Hcons | eauto].
  rewrite !remove_all_covered; [reflexivity | | auto].
  intros k Hk. destruct Hcons as [Hkeys _]. now rewrite Hkeys.
Qed.

(** X18.  [unload_all_plugins] stops at the first plugin whose
    [on_unload] raises: the fault comes out, the plugins before it in the
    registry are unloaded, and that plugin and the ones after it stay
    registered. *)
Theorem unload_all_plugins_stops (self : PluginLoader)
    (before after : dict PluginInterface) (name : string)
    (plugin : PluginInterface) (e : exn) :
  consistent self ->
  loaded_plugins self = before ++ (name, plugin) :: after ->
  (forall n p, In (n, p) before -> on_unload p = Return tt) ->
  on_unload plugin = Raise e ->
  exists self',
    unload_all_plugins self = (Raise e, self')
    /\ loaded_plugins self' = (name, plugin) :: after
    /\ consistent self'.
Proof.
  intros Hcons Hsplit Hbefore Hraise.
  pose proof Hcons as [_ Huniq]. rewrite Hsplit in Huniq.
  exists (mkLoader (plugins_dir self)
            (remove_all (keys before) (loaded_plugins self))
            (remove_all (keys before) (plugin_manifests self))).
  assert (Hleft : remove_all (keys before) (loaded_plugins self)
                  = (name, plugin) :: after).
  { rewrite Hsplit. now apply remove_all_prefix. }
  split; [|split; [exact Hleft | now apply consistent_removed]].
  unfold unload_all_plugins, mbind, get. rewrite Hsplit at 1.
  unfold keys at 1. rewrite map_app. fold (keys before). cbn [map fst].
  rewrite unload_loop_app, unload_loop_returns; [| exact Hcons |].
  - cbn [unload_loop]. unfold mbind.
    rewrite unload_plugin_cases by (now apply consistent_removed).
    unfold get_plugin. cbn [loaded_plugins]. rewrite Hleft. cbn [dict_get].
    rewrite String.eqb_refl, Hraise. reflexivity.
  - intros n p Hin Hn. apply (Hbefore n p). rewrite Hsplit in Hin.
    now apply (In_unique_prefix _ _ _ _ Huniq Hin).
Qed.
End UnloadAllFacts.

Section DiscoveryFacts.
Variable fs : filesystem.
Variable now : datetime.

Lemma load_loop_app (entries1 entries2 : list dir_entry) :
  forall self,
    load_loop fs now (entries1 ++ entries2) self
    = match load_loop fs now entries1 self with
      | (Return _, self') => load_loop fs now entries2 self'
      | (Raise e, self') => (Raise e, self')
      end.
Proof.
  induction entries1 as [|d rest IH]; intros self; simpl; [reflexivity|].
  destruct (negb (entry_is_dir d)); [apply IH|].
  destruct (is_special (entry_name d)); [apply IH|].
  unfold mbind, mtry.
  destruct (load_plugin fs now (entry_name d) self) as [[[]|e] s]; [apply IH|].
  destruct (is_instance ConfigurationError e); [apply IH | reflexivity].
Qed.

(** One turn of the loop of [load_all_plugins]. *)
Lemma load_loop_cons (d : dir_entry) (rest : list dir_entry) (self : PluginLoader) :
  load_loop fs now (d :: rest) self
  = if entry_is_dir d && negb (is_special (entry_name d)) then
      match load_result fs now (plugins_dir self) (entry_name d) with
      | Return found =>
          load_loop fs now rest (register (entry_name d) found self)
      | Raise e =>
          if is_instance ConfigurationError e then load_loop fs now rest self
          else (Raise e, self)
      end
    else load_loop fs now rest self.
Proof.
  simpl. destruct (entry_is_dir d); simpl; [|reflexivity].
  destruct (is_special (entry_name d)); simpl; [reflexivity|].
  unfold mbind, mtry. rewrite load_plugin_as_result.
  destruct (load_result fs now (plugins_dir self) (entry_name d)) as [found|e];
    [reflexivity|].
  now destruct (is_instance ConfigurationError e).
Qed.

Lemma candidates_cons (d : dir_entry) (rest : list dir_entry) :
  candidates (d :: rest)
  = if entry_is_dir d && negb (is_special (entry_name d))
    then entry_name d :: candidates rest
    else candidates rest.
Proof.
  unfold candidates. simpl.
  now destruct (entry_is_dir d && negb (is_special (entry_name d))).
Qed.

Lemma candidate_not_special (name : string) (entries : list dir_entry) :
  In name (candidates entries) -> is_special name = false.
Proof.
  unfold candidates. intros Hin. apply in_map_iff in Hin.
  destruct Hin as [d [<- Hd]]. apply filter_In in Hd. destruct Hd as [_ Hd].
  apply andb_true_iff in Hd. destruct Hd as [_ Hd].
  now apply negb_true_iff in Hd.
Qed.

(** What the loop leaves alone. *)
Lemma load_loop_untouched (entries : list dir_entry) :
  forall self result self',
    load_loop fs now entries self = (result, self') ->
    plugins_dir self' = plugins_dir self
    /\ (consistent self -> consistent self')
    /\ forall name, ~ In name (candidates entries) -> same_entry name self self'.
Proof.
  induction entries as [|d rest IH]; intros self result self' Hloop.
  - simpl in Hloop. inversion Hloop; subst.
    split; [reflexivity|]. split; [auto|]. intros name _. apply same_entry_refl.
  - rewrite load_loop_cons in Hloop. rewrite candidates_cons.
    destruct (entry_is_dir d && negb (is_special (entry_name d))).
    + destruct (load_result fs now (plugins_dir self) (entry_name d)) as [found|e].
      * destruct (IH _ _ _ Hloop) as [Hdir [Hcons Hsame]].
        split; [now rewrite Hdir, plugins_dir_register|].
        split; [intros Hc; now apply Hcons, consistent_register|].
        intros name Hnot.
        apply same_entry_trans with (s2 := register (entry_name d) found self).
        -- apply same_entry_register. intros ->. apply Hnot. now left.
        -- apply Hsame. intros Hin. apply Hnot. now right.
      * destruct (is_instance ConfigurationError e).
        -- destruct (IH _ _ _ Hloop) as [Hdir [Hcons Hsame]].
           split; [exact Hdir|]. split; [exact Hcons|].
           intros name Hnot. apply Hsame. intros Hin. apply Hnot. now right.
        -- inversion Hloop; subst.
           split; [reflexivity|]. split; [auto|].
           intros name _. apply same_entry_refl.
    + exact (IH _ _ _ Hloop).
Qed.

Lemma same_entry_registered (name : string)
    (found : option (PluginInterface * json)) (s1 s2 : PluginLoader) :
  (found = None -> same_entry name s1 s2) ->
  same_entry name (register name found s1) (register name found s2).
Proof.
  destruct found as [[plugin manifest]|]; intros Hnone; [|now apply Hnone].
  unfold same_entry, get_plugin, get_plugin_manifest. simpl.
  now rewrite !dict_get_set_same.
Qed.

(** The loop when no candidate fails but with a [ConfigurationError]. *)
Lemma load_loop_returns (entries : list dir_entry) :
  forall self,
    (forall name e,
        In name (candidates entries) ->
        load_result fs now (plugins_dir self) name = Raise e ->
        is_instance ConfigurationError e = true) ->
    exists self',
      load_loop fs now entries self = (Return tt, self')
      /\ forall name found,
           In name (candidates entries) ->
           load_result fs now (plugins_dir self) name = Return found ->
           same_entry name (register name found self) self'.
Proof.
  induction entries as [|d rest IH]; intros self Hconf.
  - exists self. split; [reflexivity|]. intros name found [].
  - rewrite load_loop_cons. rewrite candidates_cons in *.
    destruct (entry_is_dir d && negb (is_special (entry_name d))); [|now apply IH].
    destruct (load_result fs now (plugins_dir self) (entry_name d))
      as [found_d|e] eqn:Ed.
    + destruct (IH (register (entry_name d) found_d self)) as [self' [Hloop Hreg]].
      { intros name e Hin. rewrite plugins_dir_register. intros Hraise.
        apply (Hconf name e); [now right | exact Hraise]. }
      exists self'. split; [exact Hloop|].
      intros name found Hin Hfound.
      destruct (in_dec string_dec name (candidates rest)) as [Hrest | Hnot].
      * apply same_entry_trans
          with (s2 := register name found (register (entry_name d) found_d self)).
        -- apply same_entry_registered. intros ->.
           destruct (string_dec name (entry_name d)) as [-> | Hne].
           ++ rewrite Ed in Hfound. inversion Hfound; subst. apply same_entry_refl.
           ++ now apply same_entry_register.
        -- apply Hreg; [exact Hrest | now rewrite plugins_dir_register].
      * destruct Hin as [<- | Hin]; [|contradiction].
        rewrite Ed in Hfound. inversion Hfound; subst.
        destruct (load_loop_untouched _ _ Hloop) as [_ [_ Hsame]].
        now apply Hsame.
    + rewrite (Hconf (entry_name d) e (or_introl eq_refl) Ed).
      destruct (IH self) as [self' [Hloop Hreg]].
      { intros name e' Hin. apply Hconf. now right. }
      exists self'. split; [exact Hloop|].
      intros name found Hin Hfound. destruct Hin as [<- | Hin].
      * rewrite Ed in Hfound. discriminate Hfound.
      * now apply Hreg.
Qed.

Lemma load_plugin_outcome (plugin_name : string) (self : PluginLoader) (e : exn) :
  fst (load_plugin fs now plugin_name self) = Raise e
  <-> load_result fs now (plugins_dir self) plugin_name = Raise e.
Proof.
  rewrite load_plugin_as_result.
  destruct (load_result fs now (plugins_dir self) plugin_name); simpl;
    split; intros Heq; now inversion Heq.
Qed.

(** X19.  [load_all_plugins] loads nothing but the directories of the
    listing whose names do not start with an underscore: the registry
    entries of every other name, and so of every name that starts with an
    underscore, are after the call what they were before it, whether it
    returns or raises.  It keeps the registry consistent, and when the
    plugins directory does not exist it returns and changes nothing. *)
Theorem load_all_plugins_skips (listing : plugins_listing)
    (self self' : PluginLoader) (result : outcome unit) :
  load_all_plugins fs listing now self = (result, self') ->
  (forall name, is_special name = true -> same_entry name self self')
  /\ (forall entries name,
        listing = Some (Return entries) ->
        ~ In name (candidates entries) -> same_entry name self self')
  /\ (consistent self -> consistent self')
  /\ (listing = None -> result = Return tt /\ self' = self).
Proof.
  intros Hall. unfold load_all_plugins in Hall.
  destruct listing as [[entries|e]|].
  - unfold mbind, lift in Hall.
    destruct (load_loop_untouched _ _ Hall) as [_ [Hcons Hsame]].
    split; [|split; [|split]]; auto.
    + intros name Hspecial. apply Hsame. intros Hin.
      apply candidate_not_special in Hin. congruence.
    + intros entries' name Heq. inversion Heq; subst. apply Hsame.
    + discriminate.
  - unfold mbind, lift in Hall. inversion Hall; subst.
    split; [|split; [|split]]; auto.
    + intros name _. apply same_entry_refl.
    + intros entries name Heq. discriminate Heq.
    + discriminate.
  - unfold ret in Hall. inversion Hall; subst.
    split; [|split; [|split]]; auto.
    + intros name _. apply same_entry_refl.
    + intros entries name Heq. discriminate Heq.
Qed.

(** X20.  When the only faults the candidates' loads raise are
    [ConfigurationError]s, [load_all_plugins] returns: a directory that
    fails to load does not stop the scan, and every candidate has at the
    end the registry entry its own [load_plugin] gives it. *)
Theorem load_all_plugins_isolates (entries : list dir_entry) (self : PluginLoader) :
  (forall name e,
      In name (candidates entries) ->
      fst (load_plugin fs now name self) = Raise e ->
      is_instance ConfigurationError e = true) ->
  exists self',
    load_all_plugins fs (Some (Return entries)) now self = (Return tt, self')
    /\ forall name loaded,
         In name (candidates entries) ->
         load_plugin fs now name self = (Return tt, loaded) ->
         same_entry name loaded self'.
Proof.
  intros Hconf.
  destruct (load_loop_returns entries self) as [self' [Hloop Hreg]].
  { intros name e Hin Hraise. apply (Hconf name e Hin).
    now apply load_plugin_outcome. }
  exists self'. split; [exact Hloop|].
  intros name loaded Hin Hload. rewrite load_plugin_as_result in Hload.
  destruct (load_result fs now (plugins_dir self) name) as [found|e] eqn:E;
    inversion Hload; subst. now apply Hreg.
Qed.

(** X21.  A candidate whose load raises a fault that is no
    [ConfigurationError] (its [on_load] raising, a manifest that is a JSON
    list or number) stops [load_all_plugins]: the fault comes out and the
    entries listed after it are not loaded. *)
Theorem load_all_plugins_stops (before after : list dir_entry) (d : dir_entry)
    (self : PluginLoader) (e : exn) :
  (forall name e',
      In name (candidates before) ->
      fst (load_plugin fs now name self) = Raise e' ->
      is_instance ConfigurationError e' = true) ->
  entry_is_dir d = true ->
  is_special (entry_name d) = false ->
  fst (load_plugin fs now (entry_name d) self) = Raise e ->
  is_instance ConfigurationError e = false ->
  exists self',
    load_all_plugins fs (Some (Return (before ++ d :: after))) now self
    = (Raise e, self')
    /\ forall name, ~ In name (candidates before) -> same_entry name self self'.
Proof.
  intros Hconf Hdir Hspecial Hraise Hother.
  destruct (load_loop_returns before self) as [s1 [Hloop _]].
  { intros name e' Hin Hr. apply (Hconf name e' Hin).
    now apply load_plugin_outcome. }
  exists s1. unfold load_all_plugins, mbind, lift.
  rewrite load_loop_app, Hloop, load_loop_cons, Hdir, Hspecial. cbn [andb negb].
  destruct (load_loop_untouched _ _ Hloop) as [Hsame_dir [_ Hsame]].
  apply load_plugin_outcome in Hraise.
  rewrite Hsame_dir, Hraise, Hother. split; [reflexivity | exact Hsame].
Qed.
End DiscoveryFacts.

Section AggregationFacts.
Context `{PyFormat}.

Lemma contexts_loop_returns (manifests : dict json)
    (plugins : list (string * PluginInterface)) :
  forall contexts,
    (forall name plugin,
        In (name, plugin) plugins ->
        exists manifest,
          dict_get name manifests = Some manifest /\ has_required_fields manifest) ->
    exists lines,
      contexts_loop manifests plugins contexts = Return (contexts ++ lines)
      /\ length lines = (3 * length plugins)%nat
      /\ (forall name plugin,
            In (name, plugin) plugins -> In (get_prompt_context plugin) lines)
      /\ (forall name plugin fields text,
            In (name, plugin) plugins ->
            dict_get name manifests = Some (JObj fields) ->
            dict_get "description" fields = Some (JStr text) ->
            In ("## " +:+ text) lines).
Proof.
  induction plugins as [|[name plugin] rest IH]; intros contexts Hmanifests.
  - exists []. simpl. rewrite app_nil_r. repeat split; intros; contradiction.
  - destruct (Hmanifests name plugin (or_introl eq_refl))
      as [manifest [Hget [fields [-> Hfields]]]].
    assert (Hdesc : dict_in "description" fields = true).
    { apply Hfields. simpl. tauto. }
    unfold dict_in in Hdesc.
    destruct (dict_get "description" fields) as [description|] eqn:Ed;
      [|discriminate].
    destruct (IH (contexts ++ [ "## " +:+ py_format description;
                                get_prompt_context plugin; "" ]))
      as [lines [Hloop [Hlen [Hprompt Htitle]]]].
    { intros n p Hin. apply (Hmanifests n p). now right. }
    exists ([ "## " +:+ py_format description; get_prompt_context plugin; "" ]
              ++ lines).
    split; [|split; [|split]].
    + cbn [contexts_loop]. rewrite Hget. cbn [bind getitem]. rewrite Ed.
      cbn [bind]. rewrite Hloop. now rewrite <- app_assoc.
    + simpl. rewrite Hlen. lia.
    + intros n p [Heq | Hin].
      * inversion Heq; subst. simpl. tauto.
      * right. right. right. now apply (Hprompt n p).
    + intros n p fields' text [Heq | Hin] Hm Hd.
      * inversion Heq; subst. rewrite Hget in Hm. inversion Hm; subst.
        rewrite Ed in Hd. inversion Hd; subst. rewrite py_format_str.
        now left.
      * right. right. right. now apply (Htitle n p fields' text).
Qed.

(** X22.  On a consistent registry whose manifests have their required
    fields, as [load_plugin] keeps it, [get_all_plugin_contexts] returns:
    the text joins three lines per loaded plugin, in the order of the
    registry, among them the prompt context of every plugin and, for a
    description that is a string, the title made of it; with no plugin
    loaded the text is empty. *)
Theorem get_all_plugin_contexts_returns (self : PluginLoader) :
  consistent self ->
  (forall name manifest,
      get_plugin_manifest self name = Some manifest ->
      has_required_fields manifest) ->
  exists lines,
    get_all_plugin_contexts self = Return (join nl lines)
    /\ length lines = (3 * length (loaded_plugins self))%nat
    /\ (forall name plugin,
          In (name, plugin) (loaded_plugins self) ->
          In (get_prompt_context plugin) lines)
    /\ (forall name plugin fields text,
          In (name, plugin) (loaded_plugins self) ->
          get_plugin_manifest self name = Some (JObj fields) ->
          dict_get "description" fields = Some (JStr text) ->
          In ("## " +:+ text) lines)
    /\ (loaded_plugins self = [] -> join nl lines = "").
Proof.
  intros [Hkeys _] Hfields.
  destruct (contexts_loop_returns (plugin_manifests self) (loaded_plugins self) [])
    as [lines [Hloop [Hlen [Hprompt Htitle]]]].
  { intros name plugin Hin.
    assert (Hname : In name (keys (plugin_manifests self))).
    { rewrite <- Hkeys. now apply (in_map fst) in Hin. }
    apply dict_in_keys in Hname. unfold dict_in in Hname.
    destruct (dict_get name (plugin_manifests self)) as [manifest|] eqn:E;
      [|discriminate].
    exists manifest. split; [reflexivity|]. now apply (Hfields name). }
  exists lines. unfold get_all_plugin_contexts. rewrite Hloop. simpl.
  split; [reflexivity|]. split; [exact Hlen|]. split; [exact Hprompt|].
  split; [exact Htitle|].
  intros Hempty. rewrite Hempty in Hlen. simpl in Hlen.
  destruct lines; [reflexivity | discriminate].
Qed.
End AggregationFacts.

Section FaultFacts.

(** X23.  The context of a [PluginExecutionError] is the caller's context
    written over the plugin name and the intent: every key the caller gave
    keeps the caller's value, [plugin] and [intent] included, and these two
    hold the name and the intent when the caller gave none. *)
Theorem PluginExecutionError_context (plugin_name intent text : string)
    (extra : option (dict json)) (timestamp : datetime) :
  unique_keys (or_empty extra) ->
  exists b merged,
    mkPluginExecutionError plugin_name intent text extra timestamp
    = Hive PluginExecutionError b
    /\ context b = Some merged
    /\ error_code b = "PLUGIN_EXECUTION_ERROR"
    /\ (forall k v, dict_get k (or_empty extra) = Some v -> dict_get k merged = Some v)
    /\ (dict_get "plugin" (or_empty extra) = None ->
        dict_get "plugin" merged = Some (JStr plugin_name))
    /\ (dict_get "intent" (or_empty extra) = None ->
        dict_get "intent" merged = Some (JStr intent))
    /\ (forall k, k <> "plugin" -> k <> "intent" ->
        dict_get k merged = dict_get k (or_empty extra)).
Proof.
  intros Huniq. unfold mkPluginExecutionError. eexists _, _.
  split; [reflexivity|]. split; [reflexivity|]. split; [reflexivity|].
  cbn [context]. split; [|split; [|split]].
  - intros k v Hk. rewrite dict_get_update by exact Huniq. now rewrite Hk.
  - intros Hnone. rewrite dict_get_update by exact Huniq. now rewrite Hnone.
  - intros Hnone. rewrite dict_get_update by exact Huniq. now rewrite Hnone.
  - intros k Hp Hi. rewrite dict_get_update by exact Huniq.
    destruct (dict_get k (or_empty extra)); [reflexivity|].
    simpl. apply String.eqb_neq in Hp, Hi. now rewrite Hp, Hi.
Qed.
End FaultFacts.

Section SettingsFacts.

Lemma keys_dict_set_present {V} (k : string) (v v' : V) (d : dict V) :
  dict_get k d = Some v' -> keys (dict_set k v d) = keys d.
Proof.
  intros Hget. rewrite keys_dict_set. unfold dict_in. now rewrite Hget.
Qed.

Lemma mask_secrets_spec (names : list string) :
  forall config : dict json,
    keys (mask_secrets names config) = keys config
    /\ (forall k, ~ In k names ->
          dict_get k (mask_secrets names config) = dict_get k config)
    /\ (forall k v,
          dict_get k (mask_secrets names config) = Some v ->
          v = JStr "***MASKED***" \/ dict_get k config = Some v)
    /\ (forall k v,
          In k names -> dict_get k (mask_secrets names config) = Some v ->
          v = JStr "***MASKED***" \/ truthy v = false).
Proof.
  induction names as [|secret rest IH]; intros config; simpl.
  - repeat split; auto. intros k v [].
  - set (config' := match dict_get secret config with
                    | Some value =>
                        if truthy value
                        then dict_set secret (JStr "***MASKED***") config
                        else config
                    | None => config
                    end).
    destruct (IH config') as [Hkeys [Hother [Hvalue Hsecret]]].
    assert (Hstep_keys : keys config' = keys config).
    { unfold config'. destruct (dict_get secret config) as [value|] eqn:E;
        [|reflexivity].
      destruct (truthy value); [|reflexivity].
      now apply keys_dict_set_present with (v' := value). }
    assert (Hstep_other : forall k, k <> secret ->
                                    dict_get k config' = dict_get k config).
    { intros k Hne. unfold config'.
      destruct (dict_get secret config) as [value|]; [|reflexivity].
      destruct (truthy value); [|reflexivity].
      now apply dict_get_set_other. }
    assert (Hstep_secret : forall v, dict_get secret config' = Some v ->
                                     v = JStr "***MASKED***" \/ truthy v = false).
    { intros v. unfold config'.
      destruct (dict_get secret config) as [value|] eqn:E.
      - destruct (truthy value) eqn:T.
        + rewrite dict_get_set_same. intros Heq. inversion Heq. now left.
        + rewrite E. intros Heq. inversion Heq; subst. now right.
      - rewrite E. discriminate. }
    split; [congruence|]. split; [|split].
    + intros k Hnot. rewrite Hother by tauto. apply Hstep_other.
      intros ->. apply Hnot. now left.
    + intros k v Hget. destruct (Hvalue k v Hget) as [Hm | Hc]; [now left|].
      destruct (string_dec k secret) as [-> | Hne].
      * unfold config' in Hc.
        destruct (dict_get secret config) as [value|] eqn:E; [|congruence].
        destruct (truthy value).
        -- rewrite dict_get_set_same in Hc. inversion Hc. now left.
        -- right. congruence.
      * right. now rewrite <- Hstep_other.
    + intros k v [<- | Hin] Hget.
      * destruct (Hvalue secret v Hget) as [Hm | Hc]; [now left|].
        now apply Hstep_secret.
      * now apply (Hsecret k v).
Qed.

(** A value Python reads as false stays where it is. *)
Lemma mask_secrets_falsy (names : list string) :
  forall (config : dict json) k v,
    dict_get k config = Some v -> truthy v = false ->
    dict_get k (mask_secrets names config) = Some v.
Proof.
  induction names as [|secret rest IH]; intros config k v Hget Hfalse; simpl;
    [exact Hget|].
  apply IH; [|exact Hfalse].
  destruct (dict_get secret config) as [value|] eqn:E; [|exact Hget].
  destruct (truthy value) eqn:T; [|exact Hget].
  rewrite dict_get_set_other; [exact Hget|].
  intros ->. congruence.
Qed.

(** X24.  [model_dump_safe] shows no secret: in what it returns, the value
    under [openweather_api_key] and under [google_client_secret] is the
    mask, or a value Python reads as false that was there already (an empty
    string is left as it is); it has the keys of the dump in their order
    and every other key with its value. *)
Theorem model_dump_safe_masks (model_dump : dict json) :
  keys (model_dump_safe model_dump) = keys model_dump
  /\ (forall secret v,
        In secret secrets ->
        dict_get secret (model_dump_safe model_dump) = Some v ->
        v = JStr "***MASKED***" \/ (truthy v = false /\ dict_get secret model_dump = Some v))
  /\ (forall k, ~ In k secrets ->
        dict_get k (model_dump_safe model_dump) = dict_get k model_dump)
  /\ (forall secret v,
        In secret secrets -> dict_get secret model_dump = Some v -> truthy v = true ->
        dict_get secret (model_dump_safe model_dump) = Some (JStr "***MASKED***"))
  /\ (forall k v,
        dict_get k model_dump = Some v -> truthy v = false ->
        dict_get k (model_dump_safe model_dump) = Some v).
Proof.
  unfold model_dump_safe.
  destruct (mask_secrets_spec secrets model_dump) as [Hkeys [Hother [Hvalue Hsecret]]].
  split; [exact Hkeys|]. split; [|split; [exact Hother|]].
  2: split; [|intros k v; apply mask_secrets_falsy].
  - intros secret v Hin Hget.
    destruct (Hsecret secret v Hin Hget) as [Hm | Hf]; [now left|].
    destruct (Hvalue secret v Hget) as [Hm | Hc]; [now left | right; now split].
  - intros secret v Hin Hget Htrue.
    assert (Hpresent : dict_in secret (mask_secrets secrets model_dump) = true).
    { apply dict_in_keys. rewrite Hkeys. apply dict_in_keys.
      unfold dict_in. now rewrite Hget. }
    unfold dict_in in Hpresent.
    destruct (dict_get secret (mask_secrets secrets model_dump)) as [w|] eqn:E;
      [|discriminate].
    destruct (Hsecret secret w Hin E) as [-> | Hf]; [reflexivity|].
    destruct (Hvalue secret w E) as [-> | Hc]; [reflexivity|]. congruence.
Qed.
End SettingsFacts.

(* ================================================================== *)
(** * The further properties on concrete inputs                        *)
(* ================================================================== *)

(** Closes [consistent] on a registry given by its entries. *)
Ltac concrete_consistent :=
  split; [reflexivity | unfold unique_keys; simpl;
                        repeat constructor; simpl; intuition discriminate].

Section StoreWitnesses.
#[local] Existing Instance decimal_iso.
#[local] Existing Instance text_py_format.
Local Open Scope Z_scope.

Lemma add_message_then_read_witness :
  (exists r',
      add_message 3600 4 "assistant" "four" None None log3 = (Return tt, r')
      /\ get_messages 9 (Some 1) None r'
         = (Return [appended 4 "assistant" "four" None None], r'))
  /\ (exists r',
         add_message (-1) 4 "assistant" "four" None None log3 = (Return tt, r')
         /\ get_messages 9 None None r' = (Return [], r'))
  /\ add_message 3600 4 "assistant" "four" None
       (Some (Refused TypeError "Object of type set is not JSON serializable")) log3
     = (Raise (add_fault 4 "assistant" "four" TypeError
                 "Object of type set is not JSON serializable"), log3).
Proof.
  split; [|split].
  - destruct (proj1 (@add_message_then_read decimal_iso 3600 4 9 "assistant" "four"
                       None None log3))
      as [r' [Hadd [Hpos _]]].
    destruct (Hpos eq_refl) as [_ [_ [_ [Hread _]]]].
    destruct (Hread eq_refl) as [_ [_ Hlast]].
    exists r'. split; [exact Hadd | exact Hlast].
  - destruct (proj1 (@add_message_then_read decimal_iso (-1) 4 9 "assistant" "four"
                       None None log3))
      as [r' [Hadd [_ Hneg]]].
    assert (Hle : -1 <= 0) by discriminate.
    destruct (Hneg Hle) as [_ [_ Hread]].
    exists r'. split; [exact Hadd | exact Hread].
  - exact (proj2 (@add_message_then_read decimal_iso 3600 4 9 "assistant" "four"
                    None None log3)
                 TypeError "Object of type set is not JSON serializable"%string
                 eq_refl).
Defined.

Lemma get_context_size_counts_records_witness :
  get_context_size 9 damaged_log = (Return 5, damaged_log)
  /\ (exists messages,
         get_messages 9 None None damaged_log = (Return messages, damaged_log)
         /\ length messages = 3%nat)
  /\ get_context_size 9 binary_log = (Return 4, binary_log)
  /\ exists reason,
       get_messages 9 None None binary_log
       = (Raise (read_fault 9 None reason), binary_log).
Proof.
  split; [exact (proj1 (@get_context_size_counts_records decimal_iso 9 damaged_log))|].
  split.
  - destruct (proj1 (proj2 (@get_context_size_counts_records decimal_iso 9 damaged_log))
                    eq_refl)
      as [messages [Hread _]].
    exists messages. split; [exact Hread|].
    assert (E : fst (get_messages 9 None None damaged_log)
                = Return [message1; message2; message3])
      by (vm_compute; reflexivity).
    rewrite Hread in E. cbn [fst] in E. inversion E. reflexivity.
  - split; [exact (proj1 (@get_context_size_counts_records decimal_iso 9 binary_log))|].
    eexists.
    exact (proj2 (proj2 (@get_context_size_counts_records decimal_iso 9 binary_log))
                 _ eq_refl).
Defined.

Lemma get_messages_limit_bounds_witness :
  0 < 2
  /\ exists unlimited limited dropped,
       get_messages 9 None None log3 = (Return unlimited, log3)
       /\ get_messages 9 (Some 2) None log3 = (Return limited, log3)
       /\ unlimited = dropped ++ limited
       /\ length limited = Nat.min (Z.to_nat 2) (length unlimited).
Proof.
  split; [reflexivity|].
  destruct (proj1 (@get_messages_limit_bounds decimal_iso 9 2 None log3 eq_refl)
                  eq_refl)
    as [unlimited [limited [dropped [Hall [Hlimit [Hsplit [Hlen _]]]]]]].
  exists unlimited, limited, dropped. repeat split; assumption.
Defined.

Lemma prune_then_prune_witness :
  comparable (Naive 2) (Naive 3) = true
  /\ instant (Naive 2) <= instant (Naive 3)
  /\ exists r1 r2,
       prune_old_messages 3600 20 (Naive 2) log3 = (Return 1, r1)
       /\ prune_old_messages 3600 20 (Naive 3) r1 = (Return 1, r2)
       /\ prune_old_messages 3600 20 (Naive 3) log3 = (Return 2, r2).
Proof.
  split; [reflexivity|]. split; [discriminate|].
  assert (Hle : instant (Naive 2) <= instant (Naive 3)) by discriminate.
  destruct (proj1 (@prune_then_prune decimal_iso 3600 20 (Naive 2) (Naive 3) log3
                     eq_refl Hle) eq_refl eq_refl)
    as [count1 [count2 [count [r1 [r2 [r2' [H1 [H2 [H3 [Hpos _]]]]]]]]]].
  destruct (Hpos eq_refl) as [Hsame _]. subst r2'.
  exists r1, r2.
  assert (E1 : fst (prune_old_messages 3600 20 (Naive 2) log3) = Return 1)
    by (vm_compute; reflexivity).
  assert (E3 : fst (prune_old_messages 3600 20 (Naive 3) log3) = Return 2)
    by (vm_compute; reflexivity).
  rewrite H1 in E1. rewrite H3 in E3. simpl in E1, E3.
  inversion E1; subst count1. inversion E3; subst count.
  assert (E2 : fst (prune_old_messages 3600 20 (Naive 3) r1) = Return 1).
  { replace r1 with (snd (prune_old_messages 3600 20 (Naive 2) log3))
      by (now rewrite H1).
    vm_compute. reflexivity. }
  rewrite H2 in E2. simpl in E2. inversion E2; subst count2.
  repeat split; assumption.
Defined.

Lemma prune_keeps_what_since_reads_witness :
  (get_messages 9 None (Some (Naive 2)) log3 = (Return [message2; message3], log3)
   /\ exists count r',
        prune_old_messages 3600 9 (Naive 2) log3 = (Return count, r')
        /\ get_messages 9 None None r' = (Return [message2; message3], r'))
  /\ get_messages 9 None (Some (Naive 2)) zoned_log = (Return [message2], zoned_log)
  /\ prune_old_messages 3600 9 (Naive 2) zoned_log
     = (Raise (prune_fault 9 (Naive 2)), zoned_log).
Proof.
  split; [|split].
  - destruct (proj1 (@prune_keeps_what_since_reads decimal_iso 3600 9 (Naive 2) log3)
                    eq_refl)
      as [Hread [Hprune _]].
    split; [exact Hread|].
    destruct (Hprune eq_refl) as [count [r' [Hcount [Hpos _]]]].
    destruct (Hpos eq_refl) as [Hafter _].
    exists count, r'. split; [exact Hcount | exact Hafter].
  - exact (proj1 (proj1 (@prune_keeps_what_since_reads decimal_iso 3600 9 (Naive 2)
                           zoned_log) eq_refl)).
  - exact (proj1 (proj2 (proj2 (proj1 (@prune_keeps_what_since_reads decimal_iso 3600 9
                                         (Naive 2) zoned_log) eq_refl))
                        eq_refl)).
Defined.

Lemma format_for_llm_ends_with_assistant_witness :
  (exists text head,
      format_for_llm 9 None (Some "Be brief.") log3 = (Return text, log3)
      /\ text = head +:+ "<|assistant|>")
  /\ exists reason,
       format_for_llm 9 None (Some "Be brief.") binary_log
       = (Raise (read_fault 9 None reason), binary_log).
Proof.
  split.
  - destruct (proj1 (@format_for_llm_ends_with_assistant decimal_iso text_py_format
                       9 None (Some "Be brief."%string) log3) eq_refl)
      as [text [head [Hformat [Hend _]]]].
    exists text, head. split; [exact Hformat | exact Hend].
  - eexists.
    exact (proj2 (@format_for_llm_ends_with_assistant decimal_iso text_py_format
                    9 None (Some "Be brief."%string) binary_log)
                 _ eq_refl).
Defined.

Lemma format_for_llm_skips_record_witness :
  corrupted no_timestamp = true
  /\ fst (format_for_llm 9 None None damaged_log)
     = fst (format_for_llm 9 None None
              (mkRedis (NotJson "{oops" :: items log3) (Some 3600)))
  /\ exists reason,
       format_for_llm 9 None None binary_log
       = (Raise (read_fault 9 None reason), binary_log).
Proof.
  split; [reflexivity|]. split.
  - pose proof (proj1 (@format_for_llm_skips_record decimal_iso text_py_format 9 None
                         (NotJson "{oops" :: items log3) [] no_timestamp (Some 3600))
                      (or_introl eq_refl))
      as Hskip.
    rewrite app_nil_r in Hskip. exact Hskip.
  - exact (proj2 (@format_for_llm_skips_record decimal_iso text_py_format 9 None
                    [] (items log3) binary (Some 3600))
                 _ eq_refl).
Defined.

Lemma format_for_llm_after_append_witness :
  exists r',
    add_message 3600 4 "assistant" "four" None None log3 = (Return tt, r')
    /\ exists lines,
         format_for_llm 9 None (Some "Be brief.") log3
         = (Return (join nl (lines ++ ["<|assistant|>"])), log3)
         /\ format_for_llm 9 None (Some "Be brief.") r'
            = (Return (join nl (lines ++ [ "<|" +:+ "assistant" +:+ "|>" +:+ nl
                                             +:+ "four" +:+ "<|end|>";
                                           "<|assistant|>" ])), r').
Proof.
  destruct (@format_for_llm_after_append decimal_iso text_py_format 3600 4 9
              "assistant" "four" None None (Some "Be brief."%string) log3
              (or_intror (or_introl eq_refl)))
    as [r' [Hadd [Hpos _]]].
  exists r'. split; [exact Hadd|]. exact (Hpos eq_refl eq_refl).
Defined.

(** The text [format_for_llm] makes of the three messages. *)
Lemma format_for_llm_log3 :
  fst (format_for_llm 9 None (Some "Be brief.") log3)
  = Return ("<|system|>" +:+ nl +:+ "Be brief.<|end|>" +:+ nl
              +:+ "<|user|>" +:+ nl +:+ "one<|end|>" +:+ nl
              +:+ "<|assistant|>" +:+ nl +:+ "two<|end|>" +:+ nl
              +:+ "<|user|>" +:+ nl +:+ "three<|end|>" +:+ nl
              +:+ "<|assistant|>")%string.
Proof. vm_compute. reflexivity. Qed.
End StoreWitnesses.

Section RegistryWitnesses.
#[local] Existing Instance text_py_format.
Local Open Scope Z_scope.

Lemma load_plugin_disabled_witness :
  handler_py example_folder = None
  /\ load_plugin extended_fs (utcnow 0) "example" busy_loader = (Return tt, busy_loader).
Proof.
  split; [reflexivity|].
  apply (@load_plugin_disabled extended_fs (utcnow 0) "example" busy_loader example_folder
           [ ("name", JStr "example"); ("version", JStr "1.0.0");
             ("description", JStr "Example plugin template");
             ("triggers", JArr [JStr "example"; JStr "test"]);
             ("intents", JArr [JStr "example_action"]);
             ("enabled", JBool false) ]%string
           (JBool false)); try reflexivity.
  intros field Hin. simpl in Hin.
  destruct Hin as [<- | [<- | [<- | [<- | []]]]]; reflexivity.
Defined.

Lemma load_plugin_then_get_witness :
  load_plugin sample_fs (utcnow 0) "weather" empty_loader = (Return tt, weather_loader)
  /\ get_plugin_manifest weather_loader "weather" = Some weather_manifest
  /\ exists plugin, get_plugin weather_loader "weather" = Some plugin.
Proof.
  split; [reflexivity|].
  destruct (@load_plugin_then_get sample_fs (utcnow 0) "weather" empty_loader weather_loader
              weather_folder
              [ ("name", JStr "weather"); ("version", JStr "1.0.0");
                ("description", JStr "d"); ("intents", JArr [JStr "get_weather"]);
                ("enabled", JBool true) ]%string
              eq_refl eq_refl eq_refl eq_refl)
    as [Hmanifest [[plugin [Hplugin _]] _]].
  split; [exact Hmanifest|]. exists plugin. exact Hplugin.
Defined.

Lemma load_plugin_first_missing_field_witness :
  required_fields = ["name"; "version"; "description"]%string ++ "intents"%string :: []
  /\ load_plugin sample_fs (utcnow 0) "partial" empty_loader
     = (Raise (mkConfigurationError "intents"
                 "Missing required field 'intents' in plugins/partial/plugin.json"
                 None (utcnow 0)),
        empty_loader).
Proof.
  split; [reflexivity|].
  refine (proj2 (@load_plugin_first_missing_field sample_fs (utcnow 0) "partial" empty_loader
                   partial_folder
                   [ ("name", JStr "p"); ("version", JStr "1");
                     ("description", JStr "d") ]%string
                   ["name"; "version"; "description"]%string [] "intents"%string
                   eq_refl eq_refl eq_refl _ eq_refl)).
  intros field Hin. simpl in Hin.
  destruct Hin as [<- | [<- | [<- | []]]]; reflexivity.
Defined.

Lemma load_plugin_keeps_consistent_witness :
  consistent weather_loader
  /\ consistent (snd (load_plugin sample_fs (utcnow 0) "blank" weather_loader)).
Proof.
  assert (Hcons : consistent weather_loader) by concrete_consistent.
  split; [exact Hcons|].
  exact (@load_plugin_keeps_consistent sample_fs (utcnow 0) "blank" weather_loader _ _
           Hcons (surjective_pairing _)).
Defined.

Lemma unload_plugin_behaviour_witness :
  consistent clingy_loader
  /\ unload_plugin "calendar" clingy_loader = (Return tt, clingy_loader)
  /\ unload_plugin "clingy" clingy_loader = (Raise runtime_error, clingy_loader)
  /\ exists self',
       unload_plugin "moody" clingy_loader = (Return tt, self')
       /\ get_plugin self' "moody" = None.
Proof.
  assert (Hcons : consistent clingy_loader) by concrete_consistent.
  split; [exact Hcons|].
  split; [exact (proj1 (@unload_plugin_behaviour "calendar" clingy_loader Hcons)
                   eq_refl)|].
  split; [exact (proj1 (proj2 (@unload_plugin_behaviour "clingy" clingy_loader Hcons))
                   clingy runtime_error eq_refl eq_refl)|].
  destruct (proj2 (proj2 (@unload_plugin_behaviour "moody" clingy_loader Hcons))
              moody eq_refl eq_refl) as [self' [Hunload [Hgone _]]].
  exists self'. split; [exact Hunload | exact Hgone].
Defined.

Lemma load_then_unload_witness :
  load_plugin sample_fs (utcnow 0) "weather" empty_loader = (Return tt, weather_loader)
  /\ unload_plugin "weather" weather_loader = (Return tt, empty_loader).
Proof.
  split; [reflexivity|].
  apply (@load_then_unload sample_fs (utcnow 0) "weather" empty_loader weather_loader weather);
    try reflexivity.
  concrete_consistent.
Defined.

Lemma unload_all_plugins_empties_witness :
  consistent calm_loader
  /\ unload_all_plugins calm_loader = (Return tt, mkLoader "plugins" [] []).
Proof.
  assert (Hcons : consistent calm_loader) by concrete_consistent.
  split; [exact Hcons|].
  apply (@unload_all_plugins_empties calm_loader Hcons).
  intros name plugin Hin. simpl in Hin.
  destruct Hin as [Heq | [Heq | [Heq | []]]]; inversion Heq; reflexivity.
Defined.

Lemma unload_all_plugins_stops_witness :
  exists self',
    unload_all_plugins clingy_loader = (Raise runtime_error, self')
    /\ loaded_plugins self' = [("clingy", clingy); ("moody", moody)]%string.
Proof.
  assert (Hcons : consistent clingy_loader) by concrete_consistent.
  destruct (@unload_all_plugins_stops clingy_loader [("weather", weather)]%string
              [("moody", moody)]%string "clingy" clingy runtime_error
              Hcons eq_refl)
    as [self' [Hstop [Hleft _]]].
  - intros n p Hin. simpl in Hin. destruct Hin as [Heq | []].
    inversion Heq. reflexivity.
  - reflexivity.
  - exists self'. split; [exact Hstop | exact Hleft].
Defined.
End RegistryWitnesses.

Section DiscoveryWitnesses.
#[local] Existing Instance text_py_format.
Local Open Scope Z_scope.

(** Every candidate of the sample listing loads, is not enabled, or fails
    with a [ConfigurationError]. *)
Lemma sample_listing_faults (name : string) (e : exn) :
  In name (candidates sample_listing) ->
  fst (load_plugin extended_fs (utcnow 0) name empty_loader) = Raise e ->
  is_instance ConfigurationError e = true.
Proof.
  intros Hin Hraise. simpl in Hin.
  destruct Hin as [<- | [<- | [<- | [<- | []]]]];
    vm_compute in Hraise; try discriminate Hraise;
    inversion Hraise; reflexivity.
Qed.

Lemma load_all_plugins_skips_witness :
  exists self',
    load_all_plugins extended_fs (Some (Return sample_listing)) (utcnow 0) weather_loader
    = (Return tt, self')
    /\ same_entry "_template" weather_loader self'
    /\ same_entry "README.md" weather_loader self'
    /\ consistent self'.
Proof.
  pose (out := load_all_plugins extended_fs (Some (Return sample_listing)) (utcnow 0)
                 weather_loader).
  assert (Hfst : fst out = Return tt) by (vm_compute; reflexivity).
  assert (Hall : load_all_plugins extended_fs (Some (Return sample_listing)) (utcnow 0)
                   weather_loader = (Return tt, snd out)).
  { rewrite <- Hfst. apply surjective_pairing. }
  exists (snd out).
  destruct (@load_all_plugins_skips extended_fs (utcnow 0) (Some (Return sample_listing))
              weather_loader (snd out) (Return tt) Hall)
    as [Hspecial [Hother [Hcons _]]].
  split; [exact Hall|].
  split; [apply Hspecial; reflexivity|].
  split.
  - apply (Hother sample_listing); [reflexivity|].
    simpl. intuition discriminate.
  - apply Hcons. concrete_consistent.
Defined.

Lemma load_all_plugins_isolates_witness :
  fst (load_plugin extended_fs (utcnow 0) "ghost" empty_loader)
  = Raise (mkConfigurationError "plugin.json"
             "Manifest not found for plugin at plugins/ghost" None (utcnow 0))
  /\ exists self',
       load_all_plugins extended_fs (Some (Return sample_listing)) (utcnow 0) empty_loader
       = (Return tt, self')
       /\ get_plugin self' "weather" = Some weather
       /\ get_plugin_manifest self' "blank" = Some blank_manifest.
Proof.
  split; [reflexivity|].
  destruct (@load_all_plugins_isolates extended_fs (utcnow 0) sample_listing empty_loader
              sample_listing_faults) as [self' [Hall Hloaded]].
  exists self'. split; [exact Hall|]. split.
  - destruct (Hloaded "weather"%string weather_loader) as [Hplugin _];
      [simpl; tauto | reflexivity | exact Hplugin].
  - destruct (Hloaded "blank"%string
                (snd (load_plugin extended_fs (utcnow 0) "blank" empty_loader)))
      as [_ Hmanifest]; [simpl; tauto | reflexivity | exact Hmanifest].
Defined.

Lemma load_all_plugins_stops_witness :
  exists self',
    load_all_plugins sample_fs
      (Some (Return ([mkEntry "weather" true] ++ mkEntry "moody" true
                       :: [mkEntry "blank" true]))) (utcnow 0) empty_loader
    = (Raise runtime_error, self')
    /\ same_entry "blank" empty_loader self'.
Proof.
  destruct (@load_all_plugins_stops sample_fs (utcnow 0) [mkEntry "weather" true]
              [mkEntry "blank" true] (mkEntry "moody" true) empty_loader
              runtime_error)
    as [self' [Hall Hsame]]; try reflexivity.
  - intros name e' Hin Hraise. simpl in Hin. destruct Hin as [<- | []].
    vm_compute in Hraise. discriminate Hraise.
  - exists self'. split; [exact Hall|]. apply Hsame.
    simpl. intuition discriminate.
Defined.

Lemma get_all_plugin_contexts_returns_witness :
  consistent weather_loader
  /\ exists lines,
       get_all_plugin_contexts weather_loader = Return (join nl lines)
       /\ length lines = 3%nat
       /\ In "## d"%string lines.
Proof.
  assert (Hcons : consistent weather_loader) by concrete_consistent.
  split; [exact Hcons|].
  destruct (@get_all_plugin_contexts_returns text_py_format weather_loader Hcons)
    as [lines [Hret [Hlen [_ [Htitle _]]]]].
  - intros name manifest Hget. unfold get_plugin_manifest in Hget. simpl in Hget.
    destruct (name =? "weather")%string; inversion Hget.
    eexists. split; [reflexivity|].
    intros field Hin. simpl in Hin.
    destruct Hin as [<- | [<- | [<- | [<- | []]]]]; reflexivity.
  - exists lines. split; [exact Hret|]. split; [exact Hlen|].
    apply (Htitle "weather"%string weather
             [ ("name", JStr "weather"); ("version", JStr "1.0.0");
               ("description", JStr "d"); ("intents", JArr [JStr "get_weather"]);
               ("enabled", JBool true) ]%string "d"%string);
      [simpl; tauto | reflexivity | reflexivity].
Defined.

Lemma PluginExecutionError_context_witness :
  exists b merged,
    mkPluginExecutionError "weather" "get_weather" "boom"
      (Some [("plugin", JStr "spoofed"); ("error_type", JStr "RuntimeError")]%string) (utcnow 0)
    = Hive PluginExecutionError b
    /\ context b = Some merged
    /\ dict_get "plugin" merged = Some (JStr "spoofed")
    /\ dict_get "intent" merged = Some (JStr "get_weather").
Proof.
  destruct (@PluginExecutionError_context "weather" "get_weather" "boom"
              (Some [("plugin", JStr "spoofed");
                     ("error_type", JStr "RuntimeError")]%string) (utcnow 0))
    as [b [merged [Hmk [Hctx [_ [Hkeep [_ [Hintent _]]]]]]]].
  - unfold unique_keys. simpl. repeat constructor; simpl; intuition discriminate.
  - exists b, merged. split; [exact Hmk|]. split; [exact Hctx|].
    split; [apply Hkeep; reflexivity | apply Hintent; reflexivity].
Defined.
End DiscoveryWitnesses.
